(** * Antiplag: the submission processing task and the comparison step

    A shallow embedding of [antiplag/tasks.py] (with the records it reads and
    writes) and the properties of its document comparison and aggregation
    pipeline, followed by [Document.create_and_process_text] of
    [antiplag/models.py] and the upload view of [antiplag/views.py].

    - Python's [float] is IEEE 754 binary64: it is Rocq's primitive [float].
    - Python's [int] is [Z].  A Python number that may be either (the running
      sum [result_similarity] starts as the int [0] and becomes a float with
      the first score added) is a [number].
    - An exception is a value: every computation returns an [outcome].
    - The database, the mail outbox and the history of calls to the external
      collaborators form the [world] that the task threads through. *)

From Stdlib Require Import ZArith Floats Ascii.
From stdpp Require Import gmap strings list pretty sorting.

#[local] Set Warnings "-inexact-float".
#[local] Open Scope Z_scope.

(** ** Exceptions and outcomes *)

Inductive exn : Type :=
  | DoesNotExist
  | ValueError
  | OverflowError
  | ZeroDivisionError
  | IndexError
  | TypeError
  | ExternalError (msg : string).

Inductive outcome (A : Type) : Type :=
  | Ok (a : A)
  | Raised (e : exn).
Arguments Ok {A} a.
Arguments Raised {A} e.

Definition obind {A B} (r : outcome A) (k : A -> outcome B) : outcome B :=
  match r with
  | Ok a => k a
  | Raised e => Raised e
  end.

Notation "'do' x <~ r ; k" := (obind r (fun x => k))
  (at level 10, x name, r at level 100, k at level 200).

(** ** Python numbers *)

Inductive number : Type :=
  | Int (z : Z)
  | Float (x : float).

Module Py.

(** An exact integer as a (not yet rounded) binary float. *)
Definition int_as_spec (z : Z) : spec_float :=
  match z with
  | Z0 => S754_zero false
  | Zpos p => S754_finite false p 0
  | Zneg p => S754_finite true p 0
  end.

Definition is_overflow (s : spec_float) : bool :=
  match s with
  | S754_infinity _ => true
  | _ => false
  end.

(** [float(z)]: the nearest binary64 (ties to even); [OverflowError] when
    [z] is too large. *)
Definition float_of_int (z : Z) : outcome float :=
  let s := binary_normalize prec emax z 0 false in
  if is_overflow s then Raised OverflowError else Ok (SF2Prim s).

(** [a / b] on two ints: the correctly rounded quotient. *)
Definition int_truediv (a b : Z) : outcome float :=
  if b =? 0 then Raised ZeroDivisionError
  else
    let s := SFdiv prec emax (int_as_spec a) (int_as_spec b) in
    if is_overflow s then Raised OverflowError else Ok (SF2Prim s).

(** [math.ceil] on a float: an int; [ValueError] on NaN, [OverflowError]
    on an infinity. *)
Definition float_ceil (x : float) : outcome Z :=
  match Prim2SF x with
  | S754_zero _ => Ok 0
  | S754_infinity _ => Raised OverflowError
  | S754_nan => Raised ValueError
  | S754_finite s m e =>
      let sm := if s then Z.neg m else Z.pos m in
      Ok (if 0 <=? e then sm * 2 ^ e else - ((- sm) / 2 ^ (- e)))
  end.

Definition to_float (a : number) : outcome float :=
  match a with
  | Int z => float_of_int z
  | Float x => Ok x
  end.

Definition add (a b : number) : outcome number :=
  match a, b with
  | Int x, Int y => Ok (Int (x + y))
  | _, _ =>
      do x <~ to_float a;
      do y <~ to_float b;
      Ok (Float (x + y)%float)
  end.

Definition mul (a b : number) : outcome number :=
  match a, b with
  | Int x, Int y => Ok (Int (x * y))
  | _, _ =>
      do x <~ to_float a;
      do y <~ to_float b;
      Ok (Float (x * y)%float)
  end.

Definition truediv (a b : number) : outcome number :=
  match a, b with
  | Int x, Int y => do q <~ int_truediv x y; Ok (Float q)
  | _, _ =>
      do x <~ to_float a;
      do y <~ to_float b;
      if PrimFloat.is_zero y then Raised ZeroDivisionError
      else Ok (Float (x / y)%float)
  end.

Definition ceil (a : number) : outcome Z :=
  match a with
  | Int z => Ok z
  | Float x => float_ceil x
  end.

(** [x > y] on floats: false as soon as one side is NaN. *)
Definition gt (x y : float) : bool := PrimFloat.ltb y x.

End Py.

(** [ceil(x * round_factor) / round_factor], the rounding both the per-match
    percentage and the total go through. *)
Definition round_up (round_factor : Z) (x : number) : outcome float :=
  do scaled <~ Py.mul x (Int round_factor);
  do n <~ Py.ceil scaled;
  Py.int_truediv n round_factor.

(** ** The records of [antiplag/models.py]

    The fields are those [tasks.py] reads and writes: a Submission's status
    and email, a Document's file, texts, type, language and total, and the
    fields of the Results that lines 127-136 and 151-160 create.  The
    timestamps, which no line of the task reads, are left out. *)

Inductive SubmissionStatus : Type := PENDING | PROCESSING | PROCESSED.
Inductive DocumentType : Type := FILE | TEXT.
Inductive MatchType : Type := CORPUS | UPLOADED.

(** A nullable text column: [None] is Python's [None]. *)
Abbreviation textfield := (option string).

Module Submission.
Record t : Type := mk {
  id : Z;
  status : SubmissionStatus;
  email : option string
}.
Definition with_status (s : SubmissionStatus) (x : t) : t :=
  mk (id x) s (email x).
End Submission.

Module Document.
Record t : Type := mk {
  id : Z;
  file : option string;
  name : option string;
  submission : option Z;
  text : textfield;
  text_raw : textfield;
  type : DocumentType;
  language : option string;
  total_percentage : option float
}.
Definition with_id (v : Z) (d : t) : t :=
  mk v (file d) (name d) (submission d) (text d) (text_raw d) (type d)
     (language d) (total_percentage d).
Definition with_text (v : textfield) (d : t) : t :=
  mk (id d) (file d) (name d) (submission d) v (text_raw d) (type d)
     (language d) (total_percentage d).
Definition with_text_raw (v : textfield) (d : t) : t :=
  mk (id d) (file d) (name d) (submission d) (text d) v (type d)
     (language d) (total_percentage d).
Definition with_language (v : option string) (d : t) : t :=
  mk (id d) (file d) (name d) (submission d) (text d) (text_raw d) (type d)
     v (total_percentage d).
Definition with_total_percentage (v : option float) (d : t) : t :=
  mk (id d) (file d) (name d) (submission d) (text d) (text_raw d) (type d)
     (language d) v.
End Document.

(** What a [Result] points at: a corpus item (its [elastic_id]) or a
    sibling document (its primary key). *)
Inductive match_ref : Type :=
  | ElasticId (s : string)
  | DocumentId (k : Z).

#[global] Instance match_ref_eq_dec : EqDecision match_ref.
Proof. solve_decision. Defined.

Module Result.
Record t : Type := mk {
  document : Z;
  match_type : MatchType;
  match_id : match_ref;
  match_name : option string;
  percentage : float;
  ranges : list (Z * Z)
}.
End Result.

(** One hit of [Elastic.find_similar]. *)
Record candidate : Type := {
  elastic_id : string;
  cand_name : string;
  text_preprocessed : textfield
}.

(** The [first_to_second] entry of what [text_comparison] returns. *)
Record comparison : Type := {
  similarity : float;
  intervals : list (Z * Z)
}.

Record EmailMessage : Type := {
  subject : string;
  message : string;
  from_email : string;
  recipient_list : list string
}.

(** ** The world: database tables, outbox and history *)

Inductive event : Type :=
  | SaveSubmission (s : Submission.t)
  | SaveDocument (d : Document.t)
  | CreateResult (r : Result.t)
  | CallExtract (path : option string)
  | CallDetect (t : textfield)
  | CallPreprocess (t : textfield) (lang : option string)
  | CallFindSimilar (t : textfield) (limit : Z)
  | CallTextComparison (first second : textfield)
  | PrintStderr (e : exn)
  | SendMail (m : EmailMessage).

Record world : Type := {
  db_submissions : gmap Z Submission.t;
  db_documents : gmap Z Document.t;
  db_results : list Result.t;
  outbox : list EmailMessage;
  trace : list event
}.

Definition log (e : event) (w : world) : world :=
  {| db_submissions := db_submissions w; db_documents := db_documents w;
     db_results := db_results w; outbox := outbox w;
     trace := trace w ++ [e] |}.

Definition put_submission (s : Submission.t) (w : world) : world :=
  {| db_submissions := <[Submission.id s := s]> (db_submissions w);
     db_documents := db_documents w; db_results := db_results w;
     outbox := outbox w; trace := trace w |}.

Definition put_document (d : Document.t) (w : world) : world :=
  {| db_submissions := db_submissions w;
     db_documents := <[Document.id d := d]> (db_documents w);
     db_results := db_results w; outbox := outbox w; trace := trace w |}.

Definition put_result (r : Result.t) (w : world) : world :=
  {| db_submissions := db_submissions w; db_documents := db_documents w;
     db_results := db_results w ++ [r]; outbox := outbox w;
     trace := trace w |}.

Definition put_mail (m : EmailMessage) (w : world) : world :=
  {| db_submissions := db_submissions w; db_documents := db_documents w;
     db_results := db_results w; outbox := outbox w ++ [m];
     trace := trace w |}.

(** ** The task monad: state and exceptions

    A raised exception keeps the world reached so far: every database write
    is committed on its own, there is no transaction around the task. *)

Definition M (A : Type) : Type := world -> outcome A * world.

Definition ret {A} (a : A) : M A := fun w => (Ok a, w).

Definition bind {A B} (m : M A) (k : A -> M B) : M B :=
  fun w =>
    match m w with
    | (Ok a, w') => k a w'
    | (Raised e, w') => (Raised e, w')
    end.

Definition lift {A} (r : outcome A) : M A := fun w => (r, w).

(** [try: m / except Exception: ...] hands the outcome to the code after
    it instead of propagating. *)
Definition attempt {A} (m : M A) : M (outcome A) :=
  fun w => let '(r, w') := m w in (Ok r, w').

(** A call to an external collaborator: recorded, then its answer. *)
Definition call {A} (e : event) (r : outcome A) : M A :=
  fun w => (r, log e w).

Notation "'let*' x := m 'in' k" := (bind m (fun x => k))
  (at level 10, x pattern, m at level 100, k at level 200).

Fixpoint for_each {A} (l : list A) (body : A -> M unit) : M unit :=
  match l with
  | [] => ret tt
  | x :: l' => let* _ := body x in for_each l' body
  end.

(** A loop that updates local variables [S]. *)
Fixpoint for_fold {A S} (l : list A) (s : S) (body : S -> A -> M S) : M S :=
  match l with
  | [] => ret s
  | x :: l' => let* s' := body s x in for_fold l' s' body
  end.

(** A loop that mutates the objects it iterates over. *)
Fixpoint for_map {A} (l : list A) (body : A -> M A) : M (list A) :=
  match l with
  | [] => ret []
  | x :: l' =>
      let* x' := body x in
      let* l'' := for_map l' body in
      ret (x' :: l'')
  end.

(** ** External collaborators

    Everything [tasks.py] imports from outside the application: the [nlp]
    package, [langdetect], Django's mail and translation functions, and the
    two constants of [constants.py] and [settings.py]. *)

Record preprocess_options : Type := {
  words_to_numbers : bool;
  remove_numbers : bool;
  tokenize_words : bool;
  lemmatize : bool;
  remove_stopwords : bool
}.

Record Env : Type := {
  extract_text_from_file : string -> outcome string;
  detect : textfield -> outcome string;
  preprocess_text :
    textfield -> option string -> preprocess_options -> outcome (list string);
  find_similar : textfield -> Z -> outcome (list candidate);
  text_comparison : textfield -> textfield -> outcome comparison;
  (** delivery by [send_mail] with [fail_silently=False] *)
  deliver : EmailMessage -> outcome unit;
  ugettext : string -> string;
  (** [template % value] on a translated template and an int; a translation
      keeps the template's single [%s], so the formatting does not raise *)
  str_mod : string -> Z -> string;
  EMAIL_SENDER : string;
  SIMILARITY_THRESHOLD : float
}.

(** ** Database access *)

(** [Submission.objects.get(id=k)]; the primary key of a row is its key in
    the table. *)
Definition objects_get (k : Z) : M Submission.t :=
  fun w =>
    match db_submissions w !! k with
    | Some s => (Ok (Submission.mk k (Submission.status s) (Submission.email s)), w)
    | None => (Raised DoesNotExist, w)
    end.

Definition save_submission (s : Submission.t) : M unit :=
  fun w => (Ok tt, log (SaveSubmission s) (put_submission s w)).

Definition save_document (d : Document.t) : M unit :=
  fun w => (Ok tt, log (SaveDocument d) (put_document d w)).

(** [doc.results.create(...)] *)
Definition results_create (r : Result.t) : M unit :=
  fun w => (Ok tt, log (CreateResult r) (put_result r w)).

(** The order of an unordered queryset: by primary key. *)
Definition by_key (a b : Z * Document.t) : Prop := a.1 <= b.1.

#[global] Instance by_key_dec : RelDecision by_key.
Proof. intros a b. unfold by_key. apply _. Defined.

#[global] Instance by_key_total : Total by_key.
Proof. intros a b. unfold by_key. lia. Qed.

(** The rows of the Document table, each with its key as [id], in
    primary-key order. *)
Definition rows (w : world) : list Document.t :=
  (fun kd => Document.with_id kd.1 kd.2) <$>
    merge_sort by_key (map_to_list (db_documents w)).

(** [submission.documents.all()] *)
Definition documents_all (s : Submission.t) : M (list Document.t) :=
  fun w =>
    (Ok (filter (fun d => Document.submission d = Some (Submission.id s)) (rows w)), w).

(** [l.remove(x)] on a list of documents: the first element equal to [x]
    goes; model instances are equal when their primary keys are. *)
Fixpoint list_remove (x : Document.t) (l : list Document.t)
  : outcome (list Document.t) :=
  match l with
  | [] => Raised ValueError
  | y :: l' =>
      if Document.id y =? Document.id x then Ok l'
      else do r <~ list_remove x l'; Ok (y :: r)
  end.

(** The side of a comparison that is not the document under check. *)
Record pairing : Type := {
  p_type : MatchType;
  p_id : match_ref;
  p_name : option string;
  p_text : textfield
}.

(** Lines 119 and 128-130: a corpus hit as the other side. *)
Definition corpus_pairing (similar_doc : candidate) : pairing :=
  {| p_type := CORPUS; p_id := ElasticId (elastic_id similar_doc);
     p_name := Some (cand_name similar_doc);
     p_text := text_preprocessed similar_doc |}.

(** Lines 142 and 152-154: a sibling as the other side. *)
Definition uploaded_pairing (user_doc : Document.t) : pairing :=
  {| p_type := UPLOADED; p_id := DocumentId (Document.id user_doc);
     p_name := Document.name user_doc;
     p_text := Document.text user_doc |}.

Section Tasks.

Context (env : Env).

(** ** Ingestion (lines 71-88) *)

(** [file.path] raises [ValueError] for a field without a file, before
    [extract_text_from_file] is called. *)
Definition process_file (file : option string) : M string :=
  match file with
  | Some path => call (CallExtract file) (extract_text_from_file env path)
  | None => lift (Raised ValueError)
  end.

Definition detect_language (text_raw : textfield) : M string :=
  call (CallDetect text_raw) (detect env text_raw).

Definition process_raw_text (text : textfield) (language : option string)
  : M string :=
  call (CallPreprocess text language)
    (do r <~ preprocess_text env text language
               {| words_to_numbers := true; remove_numbers := false;
                  tokenize_words := false; lemmatize := false;
                  remove_stopwords := true |};
     match r !! 1%nat with
     | Some t => Ok t
     | None => Raised IndexError
     end).

(** The [except Exception] branch of the ingestion loop (lines 44-50). *)
Definition downgrade (e : exn) (document : Document.t) : M Document.t :=
  let* _ := call (PrintStderr e) (Ok tt) in
  let document :=
    match Document.type document with
    | FILE => Document.with_text_raw (Some "") document
    | TEXT => document
    end in
  let document := Document.with_text (Document.text_raw document) document in
  let* _ := save_document document in
  ret document.

(** The body of the ingestion loop (lines 32-50).  The object keeps the
    attributes assigned before the statement that raised. *)
Definition ingest (document : Document.t) : M Document.t :=
  let* extracted :=
    attempt
      match Document.type document with
      | FILE =>
          let* t := process_file (Document.file document) in
          ret (Document.with_text_raw (Some t) document)
      | TEXT => ret document
      end in
  match extracted with
  | Raised e => downgrade e document
  | Ok document =>
      let* detected := attempt (detect_language (Document.text_raw document)) in
      match detected with
      | Raised e => downgrade e document
      | Ok l =>
          let document := Document.with_language (Some l) document in
          let* processed :=
            attempt (process_raw_text (Document.text_raw document)
                                      (Document.language document)) in
          match processed with
          | Raised e => downgrade e document
          | Ok t =>
              let document := Document.with_text (Some t) document in
              let* _ := save_document document in
              ret document
          end
      end
  end.

(** ** Comparison (lines 91-167) *)

(** Lines 117-136 and 140-160 are one statement sequence, run on a corpus
    candidate and on a sibling: what differs is the match's type, id, name
    and text, gathered in a [pairing]. *)
Definition compare_pair (threshold : float) (round_factor : Z)
    (doc : Document.t) (acc : number * Z) (other : pairing)
  : M (number * Z) :=
  let '(result_similarity, compared_count) := acc in
  let* scored :=
    attempt
      (let* compared :=
         call (CallTextComparison (Document.text doc) (p_text other))
              (text_comparison env (Document.text doc) (p_text other)) in
       let* sum :=
         lift (Py.add result_similarity (Float (similarity compared))) in
       ret (compared, sum)) in
  match scored with
  | Raised _ => ret (result_similarity, compared_count)
  | Ok (compared, result_similarity) =>
      if Py.gt (similarity compared) threshold then
        let compared_count := compared_count + 1 in
        let* percentage :=
          lift (round_up round_factor (Float (similarity compared))) in
        let* _ :=
          results_create
            (Result.mk (Document.id doc) (p_type other) (p_id other)
               (p_name other) percentage (intervals compared)) in
        ret (result_similarity, compared_count)
      else ret (result_similarity, compared_count)
  end.

Definition compare_corpus threshold round_factor doc acc (similar_doc : candidate) :=
  compare_pair threshold round_factor doc acc (corpus_pairing similar_doc).

Definition compare_uploaded threshold round_factor doc acc (user_doc : Document.t) :=
  compare_pair threshold round_factor doc acc (uploaded_pairing user_doc).

(** Lines 105-163: the value of [result_similarity] that line 166 rounds. *)
Definition score_document (documents : list Document.t) (threshold : float)
    (similar_count : Z) (round_factor : Z) (doc : Document.t) : M number :=
  let* similar_documents :=
    call (CallFindSimilar (Document.text doc) similar_count)
         (find_similar env (Document.text doc) similar_count) in
  let* user_documents := lift (list_remove doc documents) in
  let* acc :=
    for_fold similar_documents (Int 0, 0)
      (compare_corpus threshold round_factor doc) in
  let* acc :=
    for_fold user_documents acc
      (compare_uploaded threshold round_factor doc) in
  let '(result_similarity, compared_count) := acc in
  if 0 <? compared_count then
    lift (Py.truediv result_similarity (Int compared_count))
  else ret result_similarity.

(** The body of the loop over the batch (lines 100-167). *)
Definition compare_document (documents : list Document.t) (threshold : float)
    (similar_count : Z) (round_factor : Z) (doc : Document.t) : M unit :=
  let* result_similarity :=
    score_document documents threshold similar_count round_factor doc in
  let* total := lift (round_up round_factor result_similarity) in
  save_document (Document.with_total_percentage (Some total) doc).

Definition compare_documents (documents : list Document.t)
    (threshold : float) (similar_count : Z) (round_decimal_places : N)
  : M unit :=
  let round_factor := 10 ^ Z.of_N round_decimal_places in
  for_each documents
    (compare_document documents threshold similar_count round_factor).

(** ** The task (lines 18-68) *)

(** [send_mail(..., fail_silently=False)], the call of line 61.  The outbox
    holds the messages for which the call returned; what the mail library
    then does with a message (it skips a recipient that is the empty
    string) is behind [deliver]. *)
Definition send_mail (subject message from_email : string)
    (recipient_list : list string) : M unit :=
  let m := {| subject := subject; message := message;
              from_email := from_email; recipient_list := recipient_list |} in
  fun w =>
    match deliver env m with
    | Ok _ => (Ok tt, log (SendMail m) (put_mail m w))
    | Raised e => (Raised e, log (SendMail m) w)
    end.

(** Lines 59-68. *)
Definition notify (submission : Submission.t) : M unit :=
  match Submission.email submission with
  | Some address =>
      send_mail (ugettext env "Antiplag - Your check has finished!")
        (str_mod env
           (ugettext env
              "Check the results of your check at https://antiplag.sk/submission/%s/")
           (Submission.id submission))
        (EMAIL_SENDER env) [address]
  | None => ret tt
  end.

Definition process_documents (submission_id : Z) : M unit :=
  let* found := attempt (objects_get submission_id) in
  match found with
  | Raised _ => ret tt
  | Ok submission =>
      let submission := Submission.with_status PROCESSING submission in
      let* _ := save_submission submission in
      let* documents := documents_all submission in
      let* documents := for_map documents ingest in
      let* _ :=
        compare_documents documents (SIMILARITY_THRESHOLD env) 10 2 in
      let submission := Submission.with_status PROCESSED submission in
      let* _ := save_submission submission in
      notify submission
  end.

End Tasks.


(** ** The aggregation, stated on lists

    What the two loops of [compare_documents] compute for one document,
    written over the list of pairs the engine scored. *)

Section Aggregation.

Context (env : Env).

(** The loops' iteration order: corpus hits first, then siblings. *)
Definition pairings (similar_documents : list candidate)
    (user_documents : list Document.t) : list pairing :=
  (corpus_pairing <$> similar_documents) ++ (uploaded_pairing <$> user_documents).

(** The pairs for which the engine returned a score, with what it returned. *)
Definition scored (doc : Document.t) (others : list pairing)
  : list (pairing * comparison) :=
  omap (fun other =>
          match text_comparison env (Document.text doc) (p_text other) with
          | Ok compared => Some (other, compared)
          | Raised _ => None
          end) others.

Definition score (pc : pairing * comparison) : float := similarity pc.2.

Definition exceeds (threshold : float) (pc : pairing * comparison) : bool :=
  Py.gt (score pc) threshold.

(** [0 + s1 + s2 + ...], left to right, from the int [0]. *)
Definition similaritySum (scores : list float) : number :=
  match scores with
  | [] => Int 0
  | _ => Float (fold_left PrimFloat.add scores 0%float)
  end.

Definition matchCount (threshold : float) (l : list (pairing * comparison)) : Z :=
  Z.of_nat (length (List.filter (exceeds threshold) l)).

(** Lines 162-163. *)
Definition average (threshold : float) (l : list (pairing * comparison))
  : outcome number :=
  if 0 <? matchCount threshold l then
    Py.truediv (similaritySum (score <$> l)) (Int (matchCount threshold l))
  else Ok (similaritySum (score <$> l)).

Definition aggregate (documents : list Document.t) (threshold : float)
    (similar_count : Z) (doc : Document.t) : outcome number :=
  do similar_documents <~ find_similar env (Document.text doc) similar_count;
  do user_documents <~ list_remove doc documents;
  average threshold (scored doc (pairings similar_documents user_documents)).

(** The Result a pair above the threshold gives rise to. *)
Definition result_of (round_factor : Z) (doc : Document.t)
    (pc : pairing * comparison) : outcome Result.t :=
  do percentage <~ round_up round_factor (Float (score pc));
  Ok (Result.mk (Document.id doc) (p_type pc.1) (p_id pc.1) (p_name pc.1)
        percentage (intervals pc.2)).

(** The try block of the ingestion loop, on its own: what it assigns when
    nothing raises, and the exception otherwise. *)
Definition ingestion (document : Document.t) : outcome Document.t :=
  do document <~
     match Document.type document with
     | FILE =>
         do t <~ match Document.file document with
                 | Some path => extract_text_from_file env path
                 | None => Raised ValueError
                 end;
         Ok (Document.with_text_raw (Some t) document)
     | TEXT => Ok document
     end;
  do l <~ detect env (Document.text_raw document);
  let document := Document.with_language (Some l) document in
  do r <~ preprocess_text env (Document.text_raw document)
            (Document.language document)
            {| words_to_numbers := true; remove_numbers := false;
               tokenize_words := false; lemmatize := false;
               remove_stopwords := true |};
  match r !! 1%nat with
  | Some t => Ok (Document.with_text (Some t) document)
  | None => Raised IndexError
  end.

End Aggregation.

(** What the comparison step stores for [doc]: the document with the
    rounded aggregate as its total. *)
Definition stored_for (env : Env) (documents : list Document.t)
    (threshold : float) (similar_count : Z) (round_factor : Z)
    (doc stored : Document.t) : Prop :=
  exists avg total,
    aggregate env documents threshold similar_count doc = Ok avg /\
    round_up round_factor avg = Ok total /\
    stored = Document.with_total_percentage (Some total) doc.

(** The Results the comparison step creates for [doc]: one for each scored
    pair above the threshold, in loop order. *)
Definition results_for (env : Env) (documents : list Document.t)
    (threshold : float) (similar_count : Z) (round_factor : Z)
    (doc : Document.t) (rs : list Result.t) : Prop :=
  exists similar_documents user_documents,
    find_similar env (Document.text doc) similar_count = Ok similar_documents /\
    list_remove doc documents = Ok user_documents /\
    Forall2 (fun pc r => result_of round_factor doc pc = Ok r)
      (List.filter (exceeds threshold)
         (scored env doc (pairings similar_documents user_documents))) rs.

(** What the comparison of [doc] needs to return: the corpus search
    answers, and every rounding it performs is defined. *)
Definition comparable (env : Env) (documents : list Document.t)
    (threshold : float) (similar_count : Z) (round_factor : Z)
    (doc : Document.t) : Prop :=
  exists similar_documents user_documents avg total,
    find_similar env (Document.text doc) similar_count = Ok similar_documents /\
    list_remove doc documents = Ok user_documents /\
    Forall (fun pc => exists r, result_of round_factor doc pc = Ok r)
      (List.filter (exceeds threshold)
         (scored env doc (pairings similar_documents user_documents))) /\
    average threshold
      (scored env doc (pairings similar_documents user_documents)) = Ok avg /\
    round_up round_factor avg = Ok total.

(** ** The claims' formula, stated

    [ceil(a * 10^p) / 10^p] in Python's arithmetic, written out: the product
    is the float product, the ceiling is the least integer that is not below
    the exact value of that product, and the quotient is the division of two
    ints. *)

(** The exact value [n / 2^k] of a finite float. *)
Definition dyadic (x : float) : option (Z * Z) :=
  match Prim2SF x with
  | S754_zero _ => Some (0, 0)
  | S754_finite s m e =>
      let n := if s then Z.neg m else Z.pos m in
      Some (if 0 <=? e then (n * 2 ^ e, 0) else (n, - e))
  | S754_infinity _ | S754_nan => None
  end.

(** [c] is the least integer with [x <= c]. *)
Definition is_ceiling (x : float) (c : Z) : Prop :=
  exists n k, dyadic x = Some (n, k) /\ 2 ^ k * (c - 1) < n <= 2 ^ k * c.

Definition ceil_places (round_factor : Z) (a : number) (rounded : float) : Prop :=
  match a with
  | Float x =>
      exists factor c,
        Py.float_of_int round_factor = Ok factor /\
        is_ceiling (x * factor)%float c /\
        Py.int_truediv c round_factor = Ok rounded
  | Int z => Py.int_truediv (z * round_factor) round_factor = Ok rounded
  end.

(** [stored] is [doc] with [total] as its total and nothing else changed. *)
Definition carries_total (doc : Document.t) (total : float)
    (stored : Document.t) : Prop :=
  Document.total_percentage stored = Some total /\
  Document.id stored = Document.id doc /\
  Document.file stored = Document.file doc /\
  Document.name stored = Document.name doc /\
  Document.submission stored = Document.submission doc /\
  Document.text stored = Document.text doc /\
  Document.text_raw stored = Document.text_raw doc /\
  Document.type stored = Document.type doc /\
  Document.language stored = Document.language doc.

(** The other side of a comparison: a corpus candidate or a sibling, in the
    order of the two loops. *)
Definition others (similar_documents : list candidate)
    (user_documents : list Document.t) : list (candidate + Document.t) :=
  (inl <$> similar_documents) ++ (inr <$> user_documents).

Definition other_text (other : candidate + Document.t) : textfield :=
  match other with
  | inl similar_doc => text_preprocessed similar_doc
  | inr user_doc => Document.text user_doc
  end.

(** The pairs the engine scored, with its answers. *)
Definition scored_others (env : Env) (doc : Document.t)
    (l : list (candidate + Document.t))
  : list ((candidate + Document.t) * comparison) :=
  omap (fun other =>
          match text_comparison env (Document.text doc) (other_text other) with
          | Ok compared => Some (other, compared)
          | Raised _ => None
          end) l.

(** [score > threshold]. *)
Definition above (threshold : float)
    (oc : (candidate + Document.t) * comparison) : bool :=
  PrimFloat.ltb threshold (similarity oc.2).


(** A corpus candidate or a sibling as the loops see it. *)
Definition pairing_of (other : candidate + Document.t) : pairing :=
  match other with
  | inl similar_doc => corpus_pairing similar_doc
  | inr user_doc => uploaded_pairing user_doc
  end.

(** The Results of a document whose comparison did not complete: those of
    the pairs reached before it ended. *)
Definition results_so_far (env : Env) (documents : list Document.t)
    (threshold : float) (similar_count : Z) (round_factor : Z)
    (doc : Document.t) (rs : list Result.t) : Prop :=
  rs = [] \/
  exists similar_documents user_documents reached rest,
    find_similar env (Document.text doc) similar_count = Ok similar_documents /\
    list_remove doc documents = Ok user_documents /\
    pairings similar_documents user_documents = reached ++ rest /\
    Forall2 (fun pc r => result_of round_factor doc pc = Ok r)
      (List.filter (exceeds threshold) (scored env doc reached)) rs.

(** ** What a computation may add to the world

    [within allowed good w w']: from [w] to [w'] the history grew by
    [allowed] events only, the Result table by [good] rows only, and neither
    the Submission table nor the outbox changed. *)

Definition within (allowed : event -> Prop) (good : Result.t -> Prop)
    (w w' : world) : Prop :=
  (exists evs, trace w' = trace w ++ evs /\ Forall allowed evs) /\
  (exists rs, db_results w' = db_results w ++ rs /\ Forall good rs) /\
  db_submissions w' = db_submissions w /\
  outbox w' = outbox w.

Definition bounded (allowed : event -> Prop) (good : Result.t -> Prop)
    {A} (m : M A) : Prop :=
  forall w, within allowed good w (m w).2.

(** ** Reading the history *)

Definition saved_documents (evs : list event) : list Document.t :=
  omap (fun e => match e with SaveDocument d => Some d | _ => None end) evs.

Definition saved_statuses (evs : list event) : list SubmissionStatus :=
  omap (fun e => match e with
                 | SaveSubmission s => Some (Submission.status s)
                 | _ => None
                 end) evs.

Definition sent_mails (evs : list event) : list EmailMessage :=
  omap (fun e => match e with SendMail m => Some m | _ => None end) evs.

Definition status_rank (s : SubmissionStatus) : nat :=
  match s with
  | PENDING => 0
  | PROCESSING => 1
  | PROCESSED => 2
  end.

(** A sequence of statuses that never steps back in the order PENDING,
    PROCESSING, PROCESSED. *)
Fixpoint never_backwards (l : list SubmissionStatus) : bool :=
  match l with
  | a :: ((b :: _) as l') =>
      (status_rank a <=? status_rank b)%nat && never_backwards l'
  | _ => true
  end.

(** The events the ingestion loop can cause. *)
Definition ingestion_event (e : event) : Prop :=
  match e with
  | CallExtract _ | CallDetect _ | CallPreprocess _ _ | PrintStderr _
  | SaveDocument _ => True
  | _ => False
  end.

(** The events the comparison step can cause. *)
Definition comparison_event (e : event) : Prop :=
  match e with
  | CallFindSimilar _ _ | CallTextComparison _ _ | CreateResult _
  | SaveDocument _ => True
  | _ => False
  end.

(** Everything between the two status writes. *)
Definition work_event (e : event) : Prop :=
  ingestion_event e \/ comparison_event e.

(** A Result that does not match a document against itself. *)
Definition no_self_match (r : Result.t) : Prop :=
  Result.match_type r = UPLOADED ->
  Result.match_id r <> DocumentId (Result.document r).

(** [keeps_document k m]: [m] leaves the row of key [k] of the Document
    table as it is, present or absent, however [m] ends. *)
Definition keeps_document (k : Z) {A} (m : M A) : Prop :=
  forall w, db_documents (m w).2 !! k = db_documents w !! k.

(** The events a computation caused: the history of [w'] after that of
    [w]. *)
Definition events_since (w w' : world) : list event :=
  drop (length (trace w)) (trace w').

(** What the ingestion of a document never changes. *)
Definition ingestion_keeps (d d' : Document.t) : Prop :=
  Document.id d' = Document.id d /\
  Document.file d' = Document.file d /\
  Document.name d' = Document.name d /\
  Document.submission d' = Document.submission d /\
  Document.type d' = Document.type d /\
  Document.total_percentage d' = Document.total_percentage d /\
  (Document.type d = TEXT -> Document.text_raw d' = Document.text_raw d).

(** A document without the total it carries. *)
Definition forget_total (d : Document.t) : Document.t :=
  Document.with_total_percentage None d.

(** Two rows of the same document: the file, the name, the submission and
    the type agree. *)
Definition same_document (d d' : Document.t) : Prop :=
  Document.file d' = Document.file d /\
  Document.name d' = Document.name d /\
  Document.submission d' = Document.submission d /\
  Document.type d' = Document.type d.

(** [agrees m0 w]: every row of the table [m0] is in the Document table of
    [w], under its key, as a row of the same document. *)
Definition agrees (m0 : gmap Z Document.t) (w : world) : Prop :=
  forall k d, m0 !! k = Some d ->
    exists d', db_documents w !! k = Some d' /\ same_document d d'.

(** [preserves m0 m]: [m] neither deletes nor relabels a row of [m0],
    however it ends. *)
Definition preserves (m0 : gmap Z Document.t) {A} (m : M A) : Prop :=
  forall w, agrees m0 w -> agrees m0 (m w).2.

(** A document that may be saved: it is the document [m0] has under its
    key, if any. *)
Definition known (m0 : gmap Z Document.t) (d : Document.t) : Prop :=
  forall d0, m0 !! Document.id d = Some d0 -> same_document d0 d.

(** ** The Document model ([antiplag/models.py], lines 35-68)

    [Document.create_and_process_text] and the methods it calls.  The file
    it receives is an uploaded file: it has a name, and it is false when
    the name is empty. *)

Module UploadedFile.
Record t : Type := mk { name : string }.
End UploadedFile.

(** [x.name] on [None]. *)
Definition AttributeError : exn := ExternalError "AttributeError".

(** [if s:] on a string or [None]. *)
Definition truthy (s : textfield) : bool :=
  match s with
  | Some (String _ _) => true
  | _ => false
  end.

(** [if file:] on an uploaded file or [None]. *)
Definition file_bool (file : option UploadedFile.t) : bool :=
  truthy (UploadedFile.name <$> file).

(** The key the database gives a new row: one that is not in use. *)
Definition next_id {A} (m : gmap Z A) : Z :=
  1 + foldr Z.max 0 ((map_to_list m).*1).

(** [Document.objects.create(...)]: the row is inserted under a new key. *)
Definition objects_create (d : Document.t) : M Document.t :=
  fun w =>
    let d := Document.with_id (next_id (db_documents w)) d in
    (Ok d, log (SaveDocument d) (put_document d w)).

Module Models.
Section Models.

(** [upload_to]: the path under which the storage keeps a file of a given
    name.  The path is taken to depend on the name only: a storage that
    renames a file whose name is in use is not modelled. *)
Context (env : Env) (upload_to : string -> string).

(** Lines 59-60. *)
Definition process_file (self : Document.t) : M string :=
  process_file env (Document.file self).

(** Lines 62-64. *)
Definition process_raw_text (self : Document.t) : string := "text".

(** Lines 66-68. *)
Definition detect_language (text_raw : textfield) : M string :=
  detect_language env text_raw.

(** Lines 35-54.  The arguments of [objects.create] are evaluated in the
    order they are written: [file.name] before anything is detected or
    stored.  A file that is false (its name is empty) is not stored: the
    row has no file, as [Document.file] has it for a field without one. *)
Definition create_and_process_text (submission : option Z)
    (text_raw : textfield) (file : option UploadedFile.t) : M unit :=
  let* name :=
    lift match file with
         | Some f => Ok (UploadedFile.name f)
         | None => Raised AttributeError
         end in
  let type := if file_bool file then FILE else TEXT in
  let* language :=
    if truthy text_raw then
      let* detected := detect_language text_raw in ret (Some detected)
    else ret None in
  let* document :=
    objects_create
      (Document.mk 0 (if file_bool file then Some (upload_to name) else None)
         (Some name) submission None text_raw type language None) in
  let* document :=
    if file_bool file then
      let* extracted := process_file document in
      let document := Document.with_text_raw (Some extracted) document in
      let* _ := save_document document in
      ret document
    else ret document in
  let document :=
    Document.with_text (Some (process_raw_text document)) document in
  save_document document.

End Models.
End Models.

(** ** The upload view ([antiplag/views.py], lines 27-51) *)

(** [needle in haystack] on strings. *)
Fixpoint contains (needle haystack : string) : bool :=
  String.prefix needle haystack ||
  match haystack with
  | EmptyString => false
  | String _ rest => contains needle rest
  end.

(** What the view reads of a request: its content type, the files under
    the key ["files"], and [request.body.decode()]. *)
Module Request.
Record t : Type := mk {
  content_type : string;
  files : list UploadedFile.t;
  body_decode : outcome string
}.
End Request.

(** A response: the submission it shows, if any, and the status code. *)
Module Response.
Record t : Type := mk {
  data : option Submission.t;
  status : Z
}.
End Response.

Definition HTTP_200_OK : Z := 200.
Definition HTTP_201_CREATED : Z := 201.
Definition HTTP_400_BAD_REQUEST : Z := 400.

Module Views.
Section Views.

(** The two constants of [constants.py] and the submission serializer of
    [serializers.py] are parameters: whether the data
    [{"status": PENDING}] is valid, and what saving it does. *)
Context (env : Env) (upload_to : string -> string)
        (CONTENT_TYPE_FILE CONTENT_TYPE_TEXT : string)
        (is_valid : bool) (serializer_save : M Submission.t).

(** [FileDetail.post]; a view that falls off its end returns [None]. *)
Definition post (request : Request.t) : M (option Response.t) :=
  if is_valid then
    let* submission := serializer_save in
    if contains CONTENT_TYPE_FILE (Request.content_type request) then
      let* _ :=
        for_each (Request.files request)
          (fun file =>
             Models.create_and_process_text env upload_to
               (Some (Submission.id submission)) None (Some file)) in
      ret (Some (Response.mk (Some submission) HTTP_201_CREATED))
    else if contains CONTENT_TYPE_TEXT (Request.content_type request) then
      let* text_raw := lift (Request.body_decode request) in
      let* _ :=
        Models.create_and_process_text env upload_to
          (Some (Submission.id submission)) (Some text_raw) None in
      ret (Some (Response.mk (Some submission) HTTP_200_OK))
    else ret (Some (Response.mk None HTTP_400_BAD_REQUEST))
  else ret None.

End Views.
End Views.

(** What a returned [create_and_process_text] has put in the row it
    inserted. *)
Definition created (env : Env) (upload_to : string -> string)
    (submission : option Z) (text_raw : textfield) (f : UploadedFile.t)
    (row : Document.t) : Prop :=
  Document.name row = Some (UploadedFile.name f) /\
  Document.submission row = submission /\
  Document.text row = Some "text"%string /\
  (if file_bool (Some f) then
     Document.type row = FILE /\
     Document.file row = Some (upload_to (UploadedFile.name f)) /\
     extract_text_from_file env (upload_to (UploadedFile.name f)) =
       Ok (default ""%string (Document.text_raw row)) /\
     Document.text_raw row <> None
   else
     Document.type row = TEXT /\ Document.file row = None /\
     Document.text_raw row = text_raw) /\
  (if truthy text_raw then
     exists l, detect env text_raw = Ok l /\ Document.language row = Some l
   else Document.language row = None).

(** ** A concrete deployment

    Submission 7 holds two pasted texts and one uploaded file that cannot be
    read.  The corpus has one hit for the first text.  The scores are those
    of the specification's scenario: threshold 0.5, the corpus hit at 0.8,
    the sibling at 0.3; the engine rejects every pair with an empty text. *)

Module Scenario.

#[local] Open Scope string_scope.

(** ["...%s..." % value] for a template with one [%s]. *)
Fixpoint percent_s (template : string) (value : Z) : string :=
  match template with
  | String "%"%char (String "s"%char rest) => pretty value +:+ rest
  | String c rest => String c (percent_s rest value)
  | EmptyString => EmptyString
  end.

Definition engine (a b : textfield) : outcome comparison :=
  match a, b with
  | Some "alpha", Some "corpus one" =>
      Ok {| similarity := 0.8; intervals := [(0, 5)] |}
  | Some "alpha", Some "beta" =>
      Ok {| similarity := 0.3; intervals := [(2, 4)] |}
  | Some "beta", Some "alpha" =>
      Ok {| similarity := 0.4; intervals := [(1, 3)] |}
  | _, _ => Raised (ExternalError "uncomparable")
  end.

Definition search (t : textfield) (limit : Z) : outcome (list candidate) :=
  match t with
  | Some "alpha" =>
      Ok [ {| elastic_id := "e1"; cand_name := "one";
              text_preprocessed := Some "corpus one" |} ]
  | _ => Ok []
  end.

Definition env : Env :=
  {| extract_text_from_file := fun _ => Raised (ExternalError "unreadable");
     detect := fun _ => Ok "en";
     preprocess_text := fun t _ _ => Ok [""; default "" t];
     find_similar := search;
     text_comparison := engine;
     deliver := fun _ => Ok tt;
     ugettext := fun s => s;
     str_mod := percent_s;
     EMAIL_SENDER := "noreply@antiplag.sk";
     SIMILARITY_THRESHOLD := 0.5 |}.

(** The same deployment with a mail server that refuses the message. *)
Definition env_mail_down : Env :=
  {| extract_text_from_file := extract_text_from_file env;
     detect := detect env;
     preprocess_text := preprocess_text env;
     find_similar := find_similar env;
     text_comparison := text_comparison env;
     deliver := fun _ => Raised (ExternalError "connection refused");
     ugettext := ugettext env;
     str_mod := str_mod env;
     EMAIL_SENDER := EMAIL_SENDER env;
     SIMILARITY_THRESHOLD := SIMILARITY_THRESHOLD env |}.

Definition d1 : Document.t :=
  Document.mk 1 None (Some "a.txt") (Some 7) (Some "alpha") (Some "alpha")
    TEXT None None.

Definition d2 : Document.t :=
  Document.mk 2 None (Some "b.txt") (Some 7) (Some "beta") (Some "beta")
    TEXT None None.

(** The uploaded file as stored, and as the ingestion loop leaves it. *)
Definition r3 : Document.t :=
  Document.mk 3 (Some "documents/c.pdf") (Some "c.pdf") (Some 7) None None
    FILE None None.

Definition d3 : Document.t :=
  Document.mk 3 (Some "documents/c.pdf") (Some "c.pdf") (Some 7) (Some "")
    (Some "") FILE None None.

Definition batch : list Document.t := [d1; d2; d3].

Definition w0 : world :=
  {| db_submissions := {[ 7 := Submission.mk 7 PENDING (Some "a@b.c") ]};
     db_documents := {[ 1 := d1; 2 := d2; 3 := r3 ]};
     db_results := []; outbox := []; trace := [] |}.

(** Submission 8 was processed before and has no contact address. *)
Definition w_done : world :=
  {| db_submissions := {[ 8 := Submission.mk 8 PROCESSED None ]};
     db_documents := ∅;
     db_results := []; outbox := []; trace := [] |}.

End Scenario.

(** The same deployment with collaborators that misbehave. *)

Module Faults.

#[local] Open Scope string_scope.

(** A corpus search that is down. *)
Definition env_search_down : Env :=
  {| extract_text_from_file := extract_text_from_file Scenario.env;
     detect := detect Scenario.env;
     preprocess_text := preprocess_text Scenario.env;
     find_similar := fun _ _ => Raised (ExternalError "connection refused");
     text_comparison := text_comparison Scenario.env;
     deliver := deliver Scenario.env;
     ugettext := ugettext Scenario.env;
     str_mod := str_mod Scenario.env;
     EMAIL_SENDER := EMAIL_SENDER Scenario.env;
     SIMILARITY_THRESHOLD := SIMILARITY_THRESHOLD Scenario.env |}.

(** An engine that answers NaN for one pair. *)
Definition engine_nan (a b : textfield) : outcome comparison :=
  match a, b with
  | Some "alpha", Some "beta" => Ok {| similarity := nan; intervals := [] |}
  | _, _ => Scenario.engine a b
  end.

Definition env_nan : Env :=
  {| extract_text_from_file := extract_text_from_file Scenario.env;
     detect := detect Scenario.env;
     preprocess_text := preprocess_text Scenario.env;
     find_similar := find_similar Scenario.env;
     text_comparison := engine_nan;
     deliver := deliver Scenario.env;
     ugettext := ugettext Scenario.env;
     str_mod := str_mod Scenario.env;
     EMAIL_SENDER := EMAIL_SENDER Scenario.env;
     SIMILARITY_THRESHOLD := SIMILARITY_THRESHOLD Scenario.env |}.

End Faults.

(** Two submissions side by side: submission 8 holds one text of its own. *)

Module Shared.

#[local] Open Scope string_scope.

Definition d9 : Document.t :=
  Document.mk 9 None (Some "z.txt") (Some 8) (Some "alpha") (Some "alpha")
    TEXT None None.

Definition w_two : world :=
  {| db_submissions :=
       {[ 7 := Submission.mk 7 PENDING (Some "a@b.c");
          8 := Submission.mk 8 PENDING None ]};
     db_documents := {[ 1 := Scenario.d1; 2 := Scenario.d2; 9 := d9 ]};
     db_results := []; outbox := []; trace := [] |}.

End Shared.

(** A deployment whose text extraction works for PDF files only. *)

Module Upload.

#[local] Open Scope string_scope.

Definition upload_to (name : string) : string := "documents/" +:+ name.

Definition reader (path : string) : outcome string :=
  if String.eqb path "documents/c.pdf" then Ok "gamma"
  else Raised (ExternalError "unreadable").

Definition env : Env :=
  {| extract_text_from_file := reader;
     detect := detect Scenario.env;
     preprocess_text := preprocess_text Scenario.env;
     find_similar := find_similar Scenario.env;
     text_comparison := text_comparison Scenario.env;
     deliver := deliver Scenario.env;
     ugettext := ugettext Scenario.env;
     str_mod := str_mod Scenario.env;
     EMAIL_SENDER := EMAIL_SENDER Scenario.env;
     SIMILARITY_THRESHOLD := SIMILARITY_THRESHOLD Scenario.env |}.

Definition c_pdf : UploadedFile.t := UploadedFile.mk "c.pdf".
Definition d_doc : UploadedFile.t := UploadedFile.mk "d.doc".

End Upload.

(** A deployment of the upload view: the serializer accepts the data and
    saving inserts a PENDING submission under a new key. *)

Module Site.

#[local] Open Scope string_scope.

Definition CONTENT_TYPE_FILE : string := "multipart/form-data".
Definition CONTENT_TYPE_TEXT : string := "text/plain".

Definition serializer_save : M Submission.t :=
  fun w =>
    let s := Submission.mk (next_id (db_submissions w)) PENDING None in
    (Ok s, log (SaveSubmission s) (put_submission s w)).

Definition post : Request.t -> M (option Response.t) :=
  Views.post Upload.env Upload.upload_to CONTENT_TYPE_FILE CONTENT_TYPE_TEXT
    true serializer_save.

Definition file_request : Request.t :=
  Request.mk "multipart/form-data; boundary=frontier" [Upload.c_pdf]
    (Raised (ExternalError "UnicodeDecodeError")).

Definition text_request : Request.t :=
  Request.mk "text/plain; charset=utf-8" [] (Ok "alpha").

Definition json_request : Request.t :=
  Request.mk "application/json" [] (Ok "{}").

End Site.

(** * Properties *)

(** ** Running the monad *)

#[local] Arguments bind : simpl never.

Lemma bind_Ok {A B} (m : M A) (k : A -> M B) w a w1 :
  m w = (Ok a, w1) -> bind m k w = k a w1.
Proof. intros H. unfold bind. rewrite H. reflexivity. Qed.

Lemma bind_Raised {A B} (m : M A) (k : A -> M B) w e w1 :
  m w = (Raised e, w1) -> bind m k w = (Raised e, w1).
Proof. intros H. unfold bind. rewrite H. reflexivity. Qed.

Lemma bind_Ok_inv {A B} (m : M A) (k : A -> M B) w b w' :
  bind m k w = (Ok b, w') ->
  exists a w1, m w = (Ok a, w1) /\ k a w1 = (Ok b, w').
Proof.
  unfold bind. destruct (m w) as [[a|e] w1]; intros H.
  - exists a, w1. split; [reflexivity | exact H].
  - discriminate H.
Qed.

Lemma lift_Ok_inv {A} (r : outcome A) w a w' :
  lift r w = (Ok a, w') -> r = Ok a /\ w' = w.
Proof. unfold lift. intros H. inversion H. split; reflexivity. Qed.

Lemma for_fold_app {A S} (l1 l2 : list A) (s : S) (body : S -> A -> M S) w :
  for_fold (l1 ++ l2) s body w =
  bind (for_fold l1 s body) (fun s' => for_fold l2 s' body) w.
Proof.
  revert s w. induction l1 as [|x l1 IH]; intros s w; simpl.
  - reflexivity.
  - unfold bind. destruct (body s x w) as [[s'|e] w1].
    + rewrite IH. unfold bind. reflexivity.
    + reflexivity.
Qed.

Lemma for_fold_fmap {A B S} (f : A -> B) (l : list A) (s : S)
    (body : S -> B -> M S) w :
  for_fold (f <$> l) s body w = for_fold l s (fun s x => body s (f x)) w.
Proof.
  revert s w. induction l as [|x l IH]; intros s w; simpl.
  - reflexivity.
  - unfold bind. destruct (body s (f x) w) as [[s'|e] w1].
    + apply IH.
    + reflexivity.
Qed.

(** ** What a computation may add to the world *)

Section Within.

Context (allowed : event -> Prop) (good : Result.t -> Prop).

Lemma within_refl w : within allowed good w w.
Proof.
  repeat split.
  - exists []. rewrite app_nil_r. split; [reflexivity | constructor].
  - exists []. rewrite app_nil_r. split; [reflexivity | constructor].
Qed.

Lemma within_trans w1 w2 w3 :
  within allowed good w1 w2 -> within allowed good w2 w3 ->
  within allowed good w1 w3.
Proof.
  intros [[e1 [He1 Fe1]] [[r1 [Hr1 Fr1]] [Hs1 Ho1]]]
         [[e2 [He2 Fe2]] [[r2 [Hr2 Fr2]] [Hs2 Ho2]]].
  repeat split.
  - exists (e1 ++ e2). rewrite He2, He1, app_assoc.
    split; [reflexivity | apply Forall_app; split; assumption].
  - exists (r1 ++ r2). rewrite Hr2, Hr1, app_assoc.
    split; [reflexivity | apply Forall_app; split; assumption].
  - congruence.
  - congruence.
Qed.

Lemma within_log e w : allowed e -> within allowed good w (log e w).
Proof.
  intros He. repeat split.
  - exists [e]. split; [reflexivity | repeat constructor; exact He].
  - exists []. simpl. rewrite app_nil_r. split; [reflexivity | constructor].
Qed.

Lemma bounded_ret {A} (a : A) : bounded allowed good (ret a).
Proof. intros w. apply within_refl. Qed.

Lemma bounded_lift {A} (r : outcome A) : bounded allowed good (lift r).
Proof. intros w. apply within_refl. Qed.

Lemma bounded_call {A} e (r : outcome A) : allowed e -> bounded allowed good (call e r).
Proof. intros He w. apply within_log, He. Qed.

Lemma bounded_bind {A B} (m : M A) (k : A -> M B) :
  bounded allowed good m -> (forall a, bounded allowed good (k a)) ->
  bounded allowed good (bind m k).
Proof.
  intros Hm Hk w. unfold bind. specialize (Hm w).
  destruct (m w) as [[a|e] w1]; simpl in Hm.
  - eapply within_trans; [exact Hm | apply Hk].
  - exact Hm.
Qed.

Lemma bounded_attempt {A} (m : M A) :
  bounded allowed good m -> bounded allowed good (attempt m).
Proof.
  intros Hm w. unfold attempt. specialize (Hm w).
  destruct (m w) as [r w1]. exact Hm.
Qed.

Lemma bounded_save_document d :
  allowed (SaveDocument d) -> bounded allowed good (save_document d).
Proof.
  intros He w. unfold save_document. simpl.
  apply (within_log _ (put_document d w)) in He.
  destruct He as [He [Hr [Hs Ho]]]. repeat split; assumption.
Qed.

Lemma bounded_results_create r :
  allowed (CreateResult r) -> good r -> bounded allowed good (results_create r).
Proof.
  intros He Hg w. unfold results_create. simpl. repeat split.
  - exists [CreateResult r]. split; [reflexivity | repeat constructor; exact He].
  - exists [r]. split; [reflexivity | repeat constructor; exact Hg].
Qed.

Lemma bounded_for_fold {A S} (l : list A) (body : S -> A -> M S) :
  (forall s x, x ∈ l -> bounded allowed good (body s x)) ->
  forall s, bounded allowed good (for_fold l s body).
Proof.
  induction l as [|x l IH]; intros Hb s; simpl.
  - apply bounded_ret.
  - apply bounded_bind.
    + apply Hb. left.
    + intros s'. apply IH. intros s'' y Hy. apply Hb. right. exact Hy.
Qed.

Lemma bounded_for_each {A} (l : list A) (body : A -> M unit) :
  (forall x, x ∈ l -> bounded allowed good (body x)) ->
  bounded allowed good (for_each l body).
Proof.
  induction l as [|x l IH]; intros Hb; simpl.
  - apply bounded_ret.
  - apply bounded_bind.
    + apply Hb. left.
    + intros _. apply IH. intros y Hy. apply Hb. right. exact Hy.
Qed.

Lemma bounded_for_map {A} (l : list A) (body : A -> M A) :
  (forall x, x ∈ l -> bounded allowed good (body x)) ->
  bounded allowed good (for_map l body).
Proof.
  induction l as [|x l IH]; intros Hb; simpl.
  - apply bounded_ret.
  - apply bounded_bind.
    + apply Hb. left.
    + intros x'. apply bounded_bind.
      * apply IH. intros y Hy. apply Hb. right. exact Hy.
      * intros l'. apply bounded_ret.
Qed.

(** A loop that returned went through each of its elements. *)
Lemma for_each_Ok_elem {A} (l : list A) (body : A -> M unit) x w w' :
  (forall y, y ∈ l -> bounded allowed good (body y)) ->
  for_each l body w = (Ok tt, w') ->
  x ∈ l ->
  exists w1 w2,
    within allowed good w w1 /\ body x w1 = (Ok tt, w2) /\
    within allowed good w2 w'.
Proof.
  revert w. induction l as [|y l IH]; intros w Hb Hrun Hx.
  - inversion Hx.
  - simpl in Hrun. apply bind_Ok_inv in Hrun as ([] & w1 & Hy & Hrest).
    assert (Hrest' : within allowed good w1 w').
    { pose proof (bounded_for_each l body
                    (fun z Hz => Hb z (list_elem_of_further _ _ _ Hz)) w1) as H.
      rewrite Hrest in H. exact H. }
    apply elem_of_cons in Hx as [-> | Hx].
    + exists w, w1. split; [apply within_refl | split; assumption].
    + destruct (IH w1) as (wa & wb & Ha & Hbody & Hb');
        [intros z Hz; apply Hb; right; exact Hz | exact Hrest | exact Hx |].
      exists wa, wb. split; [| split; assumption].
      eapply within_trans; [| exact Ha].
      specialize (Hb y (list_elem_of_here _ _) w). rewrite Hy in Hb. exact Hb.
Qed.

End Within.

(** ** Facts on Python numbers *)

Lemma float_of_int_0 : Py.float_of_int 0 = Ok 0%float.
Proof. reflexivity. Qed.

Lemma add_similaritySum (prev : list float) (x : float) :
  Py.add (similaritySum prev) (Float x) = Ok (similaritySum (prev ++ [x])).
Proof.
  destruct prev as [|y prev].
  - unfold similaritySum, Py.add, Py.to_float. rewrite float_of_int_0.
    reflexivity.
  - change (similaritySum (y :: prev))
      with (Float (fold_left PrimFloat.add (y :: prev) 0%float)).
    change (similaritySum ((y :: prev) ++ [x]))
      with (Float (fold_left PrimFloat.add ((y :: prev) ++ [x]) 0%float)).
    rewrite fold_left_app. reflexivity.
Qed.

Lemma int_truediv_0 (b : Z) : 0 < b -> Py.int_truediv 0 b = Ok 0%float.
Proof.
  intros Hb. unfold Py.int_truediv.
  destruct b as [|p|p]; try lia. reflexivity.
Qed.

Lemma round_up_Int_0 (round_factor : Z) :
  0 < round_factor -> round_up round_factor (Int 0) = Ok 0%float.
Proof.
  intros Hrf. unfold round_up, Py.mul, Py.ceil, obind.
  rewrite Z.mul_0_l. apply int_truediv_0, Hrf.
Qed.

Lemma round_factor_pos (round_decimal_places : N) :
  0 < 10 ^ Z.of_N round_decimal_places.
Proof. apply Z.pow_pos_nonneg; lia. Qed.



(** ** One pair, and the loops over pairs *)

Section Comparison.

Context (env : Env) (threshold : float) (round_factor : Z) (doc : Document.t).

(** Every way through lines 117-136 (and 140-160), from a running sum that
    the loop can have reached. *)
Lemma compare_pair_run (prev : list float) (c : Z) (other : pairing) (w : world) :
  compare_pair env threshold round_factor doc (similaritySum prev, c) other w =
  let w1 := log (CallTextComparison (Document.text doc) (p_text other)) w in
  match text_comparison env (Document.text doc) (p_text other) with
  | Raised _ => (Ok (similaritySum prev, c), w1)
  | Ok compared =>
      if Py.gt (similarity compared) threshold then
        match result_of round_factor doc (other, compared) with
        | Ok r =>
            (Ok (similaritySum (prev ++ [similarity compared]), c + 1),
             log (CreateResult r) (put_result r w1))
        | Raised e => (Raised e, w1)
        end
      else (Ok (similaritySum (prev ++ [similarity compared]), c), w1)
  end.
Proof.
  unfold compare_pair, bind, attempt, call, lift, ret.
  destruct (text_comparison env (Document.text doc) (p_text other))
    as [compared|e]; simpl; [| reflexivity].
  rewrite add_similaritySum.
  destruct (Py.gt (similarity compared) threshold); [| reflexivity].
  unfold result_of, score, obind; simpl.
  destruct (round_up round_factor (Float (similarity compared)));
    reflexivity.
Qed.

Lemma scored_cons (other : pairing) (others : list pairing) :
  scored env doc (other :: others) =
  match text_comparison env (Document.text doc) (p_text other) with
  | Ok compared => (other, compared) :: scored env doc others
  | Raised _ => scored env doc others
  end.
Proof.
  unfold scored. simpl.
  destruct (text_comparison env (Document.text doc) (p_text other));
    reflexivity.
Qed.

Lemma scored_app (l1 l2 : list pairing) :
  scored env doc (l1 ++ l2) = scored env doc l1 ++ scored env doc l2.
Proof. unfold scored. apply omap_app. Qed.

Lemma matchCount_cons (pc : pairing * comparison) l :
  matchCount threshold (pc :: l) =
  (if exceeds threshold pc then 1 else 0) + matchCount threshold l.
Proof.
  unfold matchCount. simpl. destruct (exceeds threshold pc); simpl; lia.
Qed.

Lemma matchCount_nonneg l : 0 <= matchCount threshold l.
Proof. unfold matchCount. lia. Qed.

(** A loop over pairs that returned: the sum, the count, the Results and
    the calls it made. *)
Lemma pairs_loop_Ok (others : list pairing) :
  forall (prev : list float) (c : Z) (w : world) acc' w',
  for_fold others (similaritySum prev, c)
    (compare_pair env threshold round_factor doc) w = (Ok acc', w') ->
  acc' = (similaritySum (prev ++ (score <$> scored env doc others)),
          c + matchCount threshold (scored env doc others)) /\
  (exists rs,
      db_results w' = db_results w ++ rs /\
      Forall2 (fun pc r => result_of round_factor doc pc = Ok r)
        (List.filter (exceeds threshold) (scored env doc others)) rs) /\
  db_documents w' = db_documents w /\
  (exists evs,
      trace w' = trace w ++ evs /\
      saved_documents evs = [] /\
      forall other, other ∈ others ->
        CallTextComparison (Document.text doc) (p_text other) ∈ evs).
Proof.
  induction others as [|other others IH]; intros prev c w acc' w' Hrun.
  - simpl in Hrun. inversion Hrun; subst. simpl. rewrite app_nil_r.
    split; [f_equal; unfold matchCount; simpl; lia |].
    split; [exists []; rewrite app_nil_r; split; [reflexivity | constructor] |].
    split; [reflexivity |].
    exists []. rewrite app_nil_r. split; [reflexivity |].
    split; [reflexivity |]. intros o Ho. inversion Ho.
  - cbn [for_fold] in Hrun.
    apply bind_Ok_inv in Hrun as (acc1 & w1 & Hstep & Hrest).
    rewrite compare_pair_run in Hstep. rewrite scored_cons.
    set (ev := CallTextComparison (Document.text doc) (p_text other)) in *.
    destruct (text_comparison env (Document.text doc) (p_text other))
      as [compared|e]; simpl in Hstep.
    + destruct (Py.gt (similarity compared) threshold) eqn:Hgt.
      * destruct (result_of round_factor doc (other, compared))
          as [r|e] eqn:Hres; [| discriminate Hstep].
        inversion Hstep; subst acc1 w1; clear Hstep.
        apply IH in Hrest
          as (-> & (rs & Hrs & Hall) & Hdocs & (evs & Hevs & Hsaved & Hcalls)).
        split.
        { f_equal.
          - simpl. rewrite <- app_assoc. reflexivity.
          - rewrite matchCount_cons. unfold exceeds, score. simpl.
            rewrite Hgt. lia. }
        split.
        { exists (r :: rs). simpl in Hrs. rewrite <- app_assoc in Hrs.
          split; [exact Hrs |].
          simpl. unfold exceeds at 1, score. simpl. rewrite Hgt.
          constructor; [exact Hres | exact Hall]. }
        split; [exact Hdocs |].
        exists (ev :: CreateResult r :: evs). simpl in Hevs.
        rewrite <- !app_assoc in Hevs. split; [exact Hevs |].
        split; [simpl; exact Hsaved |].
        intros o Ho. apply elem_of_cons in Ho as [-> | Ho].
        { left. }
        { right. right. apply Hcalls, Ho. }
      * inversion Hstep; subst acc1 w1; clear Hstep.
        apply IH in Hrest
          as (-> & (rs & Hrs & Hall) & Hdocs & (evs & Hevs & Hsaved & Hcalls)).
        split.
        { f_equal.
          - simpl. rewrite <- app_assoc. reflexivity.
          - rewrite matchCount_cons. unfold exceeds, score. simpl.
            rewrite Hgt. lia. }
        split.
        { exists rs. split; [exact Hrs |].
          simpl. unfold exceeds at 1, score. simpl. rewrite Hgt. exact Hall. }
        split; [exact Hdocs |].
        exists (ev :: evs). simpl in Hevs.
        rewrite <- app_assoc in Hevs. split; [exact Hevs |].
        split; [simpl; exact Hsaved |].
        intros o Ho. apply elem_of_cons in Ho as [-> | Ho].
        { left. }
        { right. apply Hcalls, Ho. }
    + inversion Hstep; subst acc1 w1; clear Hstep.
      apply IH in Hrest
        as (-> & (rs & Hrs & Hall) & Hdocs & (evs & Hevs & Hsaved & Hcalls)).
      split; [reflexivity |].
      split; [exists rs; split; assumption |].
      split; [exact Hdocs |].
      exists (ev :: evs). simpl in Hevs.
      rewrite <- app_assoc in Hevs. split; [exact Hevs |].
      split; [simpl; exact Hsaved |].
      intros o Ho. apply elem_of_cons in Ho as [-> | Ho].
      { left. }
      { right. apply Hcalls, Ho. }
Qed.

(** A loop over pairs returns as soon as every percentage it has to round
    is defined. *)
Lemma pairs_loop_returns (others : list pairing) :
  forall (prev : list float) (c : Z) (w : world),
  Forall (fun pc => exists r, result_of round_factor doc pc = Ok r)
    (List.filter (exceeds threshold) (scored env doc others)) ->
  exists acc' w',
    for_fold others (similaritySum prev, c)
      (compare_pair env threshold round_factor doc) w = (Ok acc', w').
Proof.
  induction others as [|other others IH]; intros prev c w Hall.
  - exists (similaritySum prev, c), w. reflexivity.
  - cbn [for_fold]. rewrite scored_cons in Hall.
    pose proof (compare_pair_run prev c other w) as Hstep.
    destruct (text_comparison env (Document.text doc) (p_text other))
      as [compared|e]; simpl in Hstep.
    + simpl in Hall. unfold exceeds at 1, score in Hall. simpl in Hall.
      destruct (Py.gt (similarity compared) threshold).
      * apply Forall_cons in Hall as [[r Hr] Hall]. rewrite Hr in Hstep.
        erewrite bind_Ok by exact Hstep. apply IH, Hall.
      * erewrite bind_Ok by exact Hstep. apply IH, Hall.
    + erewrite bind_Ok by exact Hstep. apply IH, Hall.
Qed.

End Comparison.

(** ** One document of the batch *)

Section OneDocument.

Context (env : Env) (documents : list Document.t) (threshold : float)
        (similar_count : Z) (round_factor : Z) (doc : Document.t).

Lemma matchCount_app (l1 l2 : list (pairing * comparison)) :
  matchCount threshold (l1 ++ l2) =
  matchCount threshold l1 + matchCount threshold l2.
Proof.
  unfold matchCount. rewrite List.filter_app, length_app. lia.
Qed.

(** Lines 105-163 when they return: the collaborators answered, and the
    value is [average] of the scored pairs. *)
Lemma score_document_Ok (w : world) (avg : number) (w' : world) :
  score_document env documents threshold similar_count round_factor doc w
    = (Ok avg, w') ->
  exists similar_documents user_documents,
    find_similar env (Document.text doc) similar_count = Ok similar_documents /\
    list_remove doc documents = Ok user_documents /\
    average threshold
      (scored env doc (pairings similar_documents user_documents)) = Ok avg /\
    (exists rs,
        db_results w' = db_results w ++ rs /\
        Forall2 (fun pc r => result_of round_factor doc pc = Ok r)
          (List.filter (exceeds threshold)
             (scored env doc (pairings similar_documents user_documents))) rs) /\
    db_documents w' = db_documents w /\
    (exists evs,
        trace w' = trace w ++ evs /\
        saved_documents evs = [] /\
        forall other, other ∈ pairings similar_documents user_documents ->
          CallTextComparison (Document.text doc) (p_text other) ∈ evs).
Proof.
  unfold score_document. intros Hrun.
  apply bind_Ok_inv in Hrun as (similar & w1 & Hfind & Hrun).
  unfold call in Hfind. inversion Hfind as [[Hsim Hw1]]. clear Hfind.
  apply bind_Ok_inv in Hrun as (user & w2 & Hrem & Hrun).
  apply lift_Ok_inv in Hrem as [Hrem ->].
  apply bind_Ok_inv in Hrun as (acc1 & w3 & Hcorpus & Hrun).
  apply bind_Ok_inv in Hrun as ([sum cnt] & w4 & Huploaded & Hrun).
  assert (Hloop :
    for_fold (pairings similar user) (similaritySum [], 0)
      (compare_pair env threshold round_factor doc) w1 = (Ok (sum, cnt), w4)).
  { unfold pairings. rewrite for_fold_app.
    erewrite bind_Ok; [| rewrite for_fold_fmap; exact Hcorpus].
    rewrite for_fold_fmap. exact Huploaded. }
  apply pairs_loop_Ok in Hloop
    as (Hacc & Hres & Hdocs & (evs & Hevs & Hsaved & Hcalls)).
  inversion Hacc; subst sum cnt; clear Hacc.
  rewrite Z.add_0_l in Hrun. simpl app in Hrun.
  exists similar, user.
  split; [exact Hsim |]. split; [exact Hrem |].
  assert (Havg : average threshold (scored env doc (pairings similar user))
                 = Ok avg /\ w' = w4).
  { unfold average.
    destruct (0 <? matchCount threshold (scored env doc (pairings similar user))).
    - apply lift_Ok_inv in Hrun as [H ->]. split; [exact H | reflexivity].
    - unfold ret in Hrun. inversion Hrun. split; reflexivity. }
  destruct Havg as [Havg ->].
  split; [exact Havg |].
  subst w1. simpl in Hres, Hdocs, Hevs.
  split; [exact Hres |]. split; [exact Hdocs |].
  exists (CallFindSimilar (Document.text doc) similar_count :: evs).
  rewrite <- app_assoc in Hevs. split; [exact Hevs |].
  split; [exact Hsaved |].
  intros o Ho. right. apply Hcalls, Ho.
Qed.

(** Lines 100-167 when they return. *)
Lemma compare_document_Ok (w w' : world) :
  compare_document env documents threshold similar_count round_factor doc w
    = (Ok tt, w') ->
  exists similar_documents user_documents avg total,
    find_similar env (Document.text doc) similar_count = Ok similar_documents /\
    list_remove doc documents = Ok user_documents /\
    average threshold
      (scored env doc (pairings similar_documents user_documents)) = Ok avg /\
    round_up round_factor avg = Ok total /\
    (exists rs,
        db_results w' = db_results w ++ rs /\
        Forall2 (fun pc r => result_of round_factor doc pc = Ok r)
          (List.filter (exceeds threshold)
             (scored env doc (pairings similar_documents user_documents))) rs) /\
    db_documents w' =
      <[Document.id doc := Document.with_total_percentage (Some total) doc]>
        (db_documents w) /\
    (exists evs,
        trace w' =
          trace w ++ evs ++
          [SaveDocument (Document.with_total_percentage (Some total) doc)] /\
        saved_documents evs = [] /\
        forall other, other ∈ pairings similar_documents user_documents ->
          CallTextComparison (Document.text doc) (p_text other) ∈ evs).
Proof.
  unfold compare_document. intros Hrun.
  apply bind_Ok_inv in Hrun as (avg & w1 & Hscore & Hrun).
  apply bind_Ok_inv in Hrun as (total & w2 & Hround & Hsave).
  apply lift_Ok_inv in Hround as [Hround ->].
  unfold save_document in Hsave. inversion Hsave as [Hw']. clear Hsave.
  apply score_document_Ok in Hscore
    as (similar & user & Hsim & Hrem & Havg & Hres & Hdocs
        & (evs & Hevs & Hsaved & Hcalls)).
  exists similar, user, avg, total. subst w'.
  do 4 (split; [assumption |]).
  split; [simpl; exact Hres |].
  split; [simpl; rewrite Hdocs; reflexivity |].
  exists evs. simpl. rewrite Hevs, <- app_assoc.
  split; [reflexivity |]. split; assumption.
Qed.

(** Lines 100-167 return whenever the document is [comparable]. *)
Lemma compare_document_returns (w : world) :
  comparable env documents threshold similar_count round_factor doc ->
  exists w',
    compare_document env documents threshold similar_count round_factor doc w
      = (Ok tt, w').
Proof.
  intros (similar & user & avg & total & Hsim & Hrem & Hall & Havg & Hround).
  set (w1 := log (CallFindSimilar (Document.text doc) similar_count) w).
  destruct (pairs_loop_returns env threshold round_factor doc
              (pairings similar user) [] 0 w1 Hall) as ([sum cnt] & w2 & Hloop).
  pose proof Hloop as Hacc. apply pairs_loop_Ok in Hacc as (Hacc & _).
  inversion Hacc; subst sum cnt; clear Hacc.
  unfold pairings in Hloop. rewrite for_fold_app in Hloop.
  apply bind_Ok_inv in Hloop as (acc1 & wm & Hcorpus & Huploaded).
  rewrite for_fold_fmap in Hcorpus. rewrite for_fold_fmap in Huploaded.
  fold (pairings similar user) in *.
  assert (Hscore :
    score_document env documents threshold similar_count round_factor doc w
      = (Ok avg, w2)).
  { unfold score_document.
    erewrite bind_Ok by (unfold call; rewrite Hsim; reflexivity).
    fold w1.
    erewrite bind_Ok by (unfold lift; rewrite Hrem; reflexivity).
    erewrite bind_Ok by exact Hcorpus.
    erewrite bind_Ok by exact Huploaded.
    rewrite Z.add_0_l. simpl app. unfold average in Havg.
    destruct (0 <? matchCount threshold (scored env doc (pairings similar user))).
    - unfold lift. rewrite Havg. reflexivity.
    - unfold ret. inversion Havg. reflexivity. }
  unfold compare_document. erewrite bind_Ok by exact Hscore.
  erewrite bind_Ok by (unfold lift; rewrite Hround; reflexivity).
  eexists. reflexivity.
Qed.

End OneDocument.

(** ** What the comparison step may add to the world *)

Section ComparisonEffects.

Context (allowed : event -> Prop) (good : Result.t -> Prop).
Context (env : Env) (documents : list Document.t) (threshold : float)
        (similar_count : Z) (round_factor : Z).

Lemma bounded_bind_lift {A B} (r : outcome A) (k : A -> M B) :
  (forall a, r = Ok a -> bounded allowed good (k a)) ->
  bounded allowed good (bind (lift r) k).
Proof.
  intros Hk w. unfold bind, lift. destruct r as [a|e].
  - apply Hk. reflexivity.
  - apply within_refl.
Qed.

Lemma bounded_compare_pair doc acc other :
  (forall e, comparison_event e -> allowed e) ->
  (forall r, Result.document r = Document.id doc ->
             Result.match_type r = p_type other ->
             Result.match_id r = p_id other -> good r) ->
  bounded allowed good (compare_pair env threshold round_factor doc acc other).
Proof.
  intros Hev Hgood. unfold compare_pair. destruct acc as [sum cnt].
  apply bounded_bind.
  - apply bounded_attempt, bounded_bind.
    + apply bounded_call, Hev. exact I.
    + intros compared. apply bounded_bind; [apply bounded_lift |].
      intros s. apply bounded_ret.
  - intros [[compared sum']|e]; [| apply bounded_ret].
    destruct (Py.gt (similarity compared) threshold); [| apply bounded_ret].
    apply bounded_bind; [apply bounded_lift |]. intros pct.
    apply bounded_bind; [| intros _; apply bounded_ret].
    apply bounded_results_create.
    + apply Hev. exact I.
    + apply Hgood; reflexivity.
Qed.

Lemma bounded_compare_document doc :
  (forall e, comparison_event e -> allowed e) ->
  (forall r, Result.document r = Document.id doc ->
             Result.match_type r = CORPUS -> good r) ->
  (forall user_documents u r,
      list_remove doc documents = Ok user_documents ->
      u ∈ user_documents ->
      Result.document r = Document.id doc ->
      Result.match_type r = UPLOADED ->
      Result.match_id r = DocumentId (Document.id u) -> good r) ->
  bounded allowed good
    (compare_document env documents threshold similar_count round_factor doc).
Proof.
  intros Hev Hcorpus Huploaded. unfold compare_document.
  apply bounded_bind.
  - unfold score_document. apply bounded_bind.
    + apply bounded_call, Hev. exact I.
    + intros similar. apply bounded_bind_lift. intros user Huser.
      apply bounded_bind.
      * apply bounded_for_fold. intros s c _.
        apply bounded_compare_pair; [exact Hev |].
        intros r Hd Ht _. apply Hcorpus; assumption.
      * intros acc. apply bounded_bind.
        { apply bounded_for_fold. intros s u Hu.
          apply bounded_compare_pair; [exact Hev |].
          intros r Hd Ht Hi. eapply Huploaded; eassumption. }
        { intros [sum cnt]. destruct (0 <? cnt);
            [apply bounded_lift | apply bounded_ret]. }
  - intros avg. apply bounded_bind; [apply bounded_lift |].
    intros total. apply bounded_save_document, Hev. exact I.
Qed.

End ComparisonEffects.

(** ** Removing the document under check from the batch *)

Lemma NoDup_fmap_filter {A B} (f : A -> B) (P : A -> Prop)
    `{!forall x, Decision (P x)} (l : list A) :
  NoDup (f <$> l) -> NoDup (f <$> filter P l).
Proof.
  induction l as [|x l IH]; intros Hnd; [constructor |].
  rewrite fmap_cons in Hnd. apply NoDup_cons in Hnd as [Hx Hnd].
  rewrite filter_cons. destruct (decide (P x)); [| apply IH, Hnd].
  rewrite fmap_cons. apply NoDup_cons. split; [| apply IH, Hnd].
  intros Hin. apply Hx. apply list_elem_of_fmap in Hin as (y & -> & Hy).
  apply list_elem_of_fmap_2. apply list_elem_of_filter in Hy as [_ Hy].
  exact Hy.
Qed.


Lemma list_remove_absent (x : Document.t) (l : list Document.t) :
  Document.id x ∉ (Document.id <$> l) ->
  filter (fun d => Document.id d <> Document.id x) l = l.
Proof.
  induction l as [|y l IH]; intros Hnot; [reflexivity |].
  rewrite fmap_cons in Hnot. apply not_elem_of_cons in Hnot as [Hne Hnot].
  rewrite filter_cons_True by congruence. f_equal. apply IH, Hnot.
Qed.

(** With distinct primary keys, [remove] leaves exactly the documents that
    are not [x]. *)
Lemma list_remove_NoDup (x : Document.t) (l : list Document.t) :
  NoDup (Document.id <$> l) ->
  x ∈ l ->
  list_remove x l = Ok (filter (fun d => Document.id d <> Document.id x) l).
Proof.
  induction l as [|y l IH]; intros Hnd Hx; [inversion Hx |].
  rewrite fmap_cons in Hnd. apply NoDup_cons in Hnd as [Hy Hnd].
  simpl. destruct (Document.id y =? Document.id x) eqn:Heq.
  - apply Z.eqb_eq in Heq.
    rewrite filter_cons_False by (intros H; apply H; exact Heq).
    rewrite list_remove_absent; [reflexivity |]. rewrite <- Heq. exact Hy.
  - apply Z.eqb_neq in Heq.
    apply elem_of_cons in Hx as [-> | Hx]; [congruence |].
    rewrite IH by assumption. simpl.
    rewrite filter_cons_True by exact Heq. reflexivity.
Qed.

Lemma list_remove_elem (x : Document.t) (l user : list Document.t) :
  NoDup (Document.id <$> l) ->
  list_remove x l = Ok user ->
  forall u, u ∈ user <-> u ∈ l /\ Document.id u <> Document.id x.
Proof.
  revert user. induction l as [|y l IH]; intros user Hnd Hrem u.
  - discriminate Hrem.
  - rewrite fmap_cons in Hnd. apply NoDup_cons in Hnd as [Hy Hnd].
    simpl in Hrem. destruct (Document.id y =? Document.id x) eqn:Heq.
    + apply Z.eqb_eq in Heq. inversion Hrem; subst user. split.
      * intros Hu. split; [right; exact Hu |].
        intros Hid. apply Hy. rewrite Heq, <- Hid.
        apply list_elem_of_fmap_2, Hu.
      * intros [Hu Hid]. apply elem_of_cons in Hu as [-> | Hu];
          [congruence | exact Hu].
    + apply Z.eqb_neq in Heq.
      destruct (list_remove x l) as [r|e] eqn:Hr; [| discriminate Hrem].
      simpl in Hrem. inversion Hrem; subst user.
      specialize (IH r Hnd eq_refl u). rewrite !elem_of_cons, IH. split.
      * intros [-> | [Hu Hid]]; [split; [left; reflexivity | exact Heq] |].
        split; [right; exact Hu | exact Hid].
      * intros [[-> | Hu] Hid]; [left; reflexivity | right; split; assumption].
Qed.

(** ** The whole batch *)

Lemma saved_documents_app (l1 l2 : list event) :
  saved_documents (l1 ++ l2) = saved_documents l1 ++ saved_documents l2.
Proof. apply omap_app. Qed.

Lemma foldl_insert_lookup (ds : list Document.t) :
  forall (m : gmap Z Document.t) (d : Document.t),
  NoDup (Document.id <$> ds) ->
  d ∈ ds ->
  foldl (fun m d => <[Document.id d := d]> m) m ds !! Document.id d = Some d.
Proof.
  induction ds as [|x ds IH]; intros m d Hnd Hd; [inversion Hd |].
  rewrite fmap_cons in Hnd. apply NoDup_cons in Hnd as [Hx Hnd].
  simpl. apply elem_of_cons in Hd as [-> | Hd].
  - clear IH Hnd. revert m. induction ds as [|y ds IH]; intros m; simpl.
    + apply lookup_insert_eq.
    + rewrite fmap_cons in Hx. apply not_elem_of_cons in Hx as [Hne Hx].
      rewrite insert_insert_ne by congruence. apply IH, Hx.
  - apply IH; assumption.
Qed.

Lemma foldl_insert_absent (ds : list Document.t) :
  forall (m : gmap Z Document.t) (k : Z),
  k ∉ (Document.id <$> ds) ->
  foldl (fun m d => <[Document.id d := d]> m) m ds !! k = m !! k.
Proof.
  induction ds as [|x ds IH]; intros m k Hk; [reflexivity |].
  rewrite fmap_cons in Hk. apply not_elem_of_cons in Hk as [Hne Hk].
  simpl. rewrite IH by exact Hk. apply lookup_insert_ne. congruence.
Qed.

Lemma filter_id_NoDup (ds : list Document.t) (d : Document.t) :
  NoDup (Document.id <$> ds) ->
  d ∈ ds ->
  filter (fun x => Document.id x = Document.id d) ds = [d].
Proof.
  induction ds as [|x ds IH]; intros Hnd Hd; [inversion Hd |].
  rewrite fmap_cons in Hnd. apply NoDup_cons in Hnd as [Hx Hnd].
  apply elem_of_cons in Hd as [-> | Hd].
  - rewrite filter_cons_True by reflexivity. f_equal.
    clear IH Hnd. induction ds as [|y ds IH]; [reflexivity |].
    rewrite fmap_cons in Hx. apply not_elem_of_cons in Hx as [Hne Hx].
    rewrite filter_cons_False by congruence. apply IH, Hx.
  - rewrite filter_cons_False; [apply IH; assumption |].
    intros Heq. apply Hx. rewrite Heq. apply list_elem_of_fmap_2, Hd.
Qed.

Section Batch.

Context (env : Env) (documents : list Document.t) (threshold : float)
        (similar_count : Z) (round_factor : Z).

Lemma stored_for_id doc stored :
  stored_for env documents threshold similar_count round_factor doc stored ->
  Document.id stored = Document.id doc.
Proof. intros (avg & total & _ & _ & ->). reflexivity. Qed.

(** A returned loop over (part of) the batch saved one document per
    iteration, in order, and nothing else reached the Document table. *)
Lemma batch_loop_Ok (l : list Document.t) :
  forall w w',
  for_each l
    (compare_document env documents threshold similar_count round_factor) w
    = (Ok tt, w') ->
  exists evs,
    trace w' = trace w ++ evs /\
    Forall2 (stored_for env documents threshold similar_count round_factor)
      l (saved_documents evs) /\
    db_documents w' =
      foldl (fun m d => <[Document.id d := d]> m) (db_documents w)
        (saved_documents evs).
Proof.
  induction l as [|doc l IH]; intros w w' Hrun.
  - simpl in Hrun. inversion Hrun; subst. exists [].
    rewrite app_nil_r. repeat split. constructor.
  - cbn [for_each] in Hrun.
    apply bind_Ok_inv in Hrun as ([] & w1 & Hdoc & Hrest).
    apply compare_document_Ok in Hdoc
      as (similar & user & avg & total & Hsim & Hrem & Havg & Hround & _
          & Hdocs & (evs1 & Hevs1 & Hsaved1 & _)).
    apply IH in Hrest as (evs2 & Hevs2 & Hall & Hdb).
    set (stored := Document.with_total_percentage (Some total) doc) in *.
    exists ((evs1 ++ [SaveDocument stored]) ++ evs2).
    split; [rewrite Hevs2, Hevs1, !app_assoc; reflexivity |].
    rewrite !saved_documents_app, Hsaved1. simpl. split.
    + constructor; [| exact Hall].
      exists avg, total. split; [| split; [exact Hround | reflexivity]].
      unfold aggregate. rewrite Hsim, Hrem. simpl. exact Havg.
    + rewrite Hdb, Hdocs. reflexivity.
Qed.

Lemma results_for_document (doc : Document.t) (rs : list Result.t) :
  results_for env documents threshold similar_count round_factor doc rs ->
  Forall (fun r => Result.document r = Document.id doc) rs.
Proof.
  intros (similar & user & _ & _ & Hall).
  induction Hall as [|pc r l k Hres _ IH]; constructor; [| exact IH].
  unfold result_of in Hres.
  destruct (round_up round_factor (Float (score pc))); [| discriminate Hres].
  simpl in Hres. inversion Hres. reflexivity.
Qed.

(** A returned loop over (part of) the batch added to the Result table,
    document after document, the Results of each. *)
Lemma batch_results (l : list Document.t) :
  forall w w',
  for_each l
    (compare_document env documents threshold similar_count round_factor) w
    = (Ok tt, w') ->
  exists rss,
    db_results w' = db_results w ++ concat rss /\
    Forall2 (results_for env documents threshold similar_count round_factor)
      l rss.
Proof.
  induction l as [|doc l IH]; intros w w' Hrun.
  - simpl in Hrun. inversion Hrun; subst. exists []. simpl.
    rewrite app_nil_r. split; [reflexivity | constructor].
  - cbn [for_each] in Hrun.
    apply bind_Ok_inv in Hrun as ([] & w1 & Hdoc & Hrest).
    apply compare_document_Ok in Hdoc
      as (similar & user & avg & total & Hsim & Hrem & _ & _
          & (rs & Hrs & Hall) & _ & _).
    apply IH in Hrest as (rss & Hrss & Hfor).
    exists (rs :: rss). simpl. split.
    + rewrite Hrss, Hrs, app_assoc. reflexivity.
    + constructor; [| exact Hfor]. exists similar, user.
      split; [exact Hsim |]. split; [exact Hrem | exact Hall].
Qed.

Lemma filter_all {A} (P : A -> Prop) `{!forall x, Decision (P x)} (l : list A) :
  Forall P l -> filter P l = l.
Proof.
  induction 1 as [|x l Hx _ IH]; [reflexivity |].
  rewrite filter_cons_True by exact Hx. rewrite IH. reflexivity.
Qed.

Lemma filter_none {A} (P : A -> Prop) `{!forall x, Decision (P x)} (l : list A) :
  Forall (fun x => ~ P x) l -> filter P l = [].
Proof.
  induction 1 as [|x l Hx _ IH]; [reflexivity |].
  rewrite filter_cons_False by exact Hx. exact IH.
Qed.

(** With distinct primary keys, the Results of one document are the rows
    of the batch's Results that belong to it. *)
Lemma batch_results_own (l : list Document.t) (rss : list (list Result.t))
    (doc : Document.t) :
  NoDup (Document.id <$> l) ->
  doc ∈ l ->
  Forall2 (results_for env documents threshold similar_count round_factor)
    l rss ->
  exists rs,
    results_for env documents threshold similar_count round_factor doc rs /\
    filter (fun r => Result.document r = Document.id doc) (concat rss) = rs.
Proof.
  intros Hnd Hdoc Hall. revert Hnd Hdoc.
  induction Hall as [|x rs l rss Hx Hall IH]; intros Hnd Hdoc;
    [inversion Hdoc |].
  rewrite fmap_cons in Hnd. apply NoDup_cons in Hnd as [Hfresh Hnd].
  simpl. rewrite filter_app.
  assert (Hothers : forall y, Document.id y ∉ (Document.id <$> l) ->
            filter (fun r => Result.document r = Document.id y) (concat rss) = []).
  { clear IH Hdoc Hx Hnd Hfresh. intros y Hy.
    induction Hall as [|z rz l rss Hz _ IH]; [reflexivity |].
    rewrite fmap_cons in Hy. apply not_elem_of_cons in Hy as [Hne Hy].
    simpl. rewrite filter_app, (IH Hy), app_nil_r.
    apply filter_none. eapply Forall_impl; [apply results_for_document, Hz |].
    intros r Hr. simpl in Hr. congruence. }
  apply elem_of_cons in Hdoc as [-> | Hdoc].
  - exists rs. split; [exact Hx |].
    rewrite (Hothers x Hfresh), app_nil_r.
    apply filter_all, results_for_document, Hx.
  - destruct (IH Hnd Hdoc) as (rd & Hrd & Heq). exists rd.
    split; [exact Hrd |]. rewrite Heq.
    rewrite filter_none; [reflexivity |].
    eapply Forall_impl; [apply results_for_document, Hx |].
    intros r Hr Hr'. simpl in Hr. apply Hfresh.
    rewrite <- Hr, Hr'. apply list_elem_of_fmap_2, Hdoc.
Qed.

End Batch.

(** * The claims on the comparison step *)

(** C3: when the Similarity Engine raises for a pair, the iteration ends
    normally with the running sum and the match count as they were, the
    Result and Document tables untouched (the history records the call),
    the pair is absent from the pairs the aggregate ranges over, and each
    of the two loops goes on with its next candidate or sibling. *)
Theorem failed_pair_is_skipped (env : Env) (threshold : float)
    (round_factor : Z) (doc : Document.t) (acc : number * Z)
    (other : pairing) (e : exn) (w : world) :
  text_comparison env (Document.text doc) (p_text other) = Raised e ->
  let w1 := log (CallTextComparison (Document.text doc) (p_text other)) w in
  compare_pair env threshold round_factor doc acc other w = (Ok acc, w1) /\
  db_results w1 = db_results w /\
  db_documents w1 = db_documents w /\
  (forall rest, scored env doc (other :: rest) = scored env doc rest) /\
  (forall similar_doc rest, other = corpus_pairing similar_doc ->
     for_fold (similar_doc :: rest) acc
       (compare_corpus env threshold round_factor doc) w =
     for_fold rest acc (compare_corpus env threshold round_factor doc) w1) /\
  (forall user_doc rest, other = uploaded_pairing user_doc ->
     for_fold (user_doc :: rest) acc
       (compare_uploaded env threshold round_factor doc) w =
     for_fold rest acc (compare_uploaded env threshold round_factor doc) w1).
Proof.
  intros Hfail w1.
  assert (Hstep :
    compare_pair env threshold round_factor doc acc other w = (Ok acc, w1)).
  { unfold compare_pair, bind, attempt, call, lift, ret.
    destruct acc as [sum cnt]. rewrite Hfail. reflexivity. }
  split; [exact Hstep |].
  split; [reflexivity |]. split; [reflexivity |].
  split; [intros rest; rewrite scored_cons, Hfail; reflexivity |].
  split.
  - intros similar_doc rest ->. cbn [for_fold]. unfold compare_corpus at 1.
    erewrite bind_Ok by exact Hstep. reflexivity.
  - intros user_doc rest ->. cbn [for_fold]. unfold compare_uploaded at 1.
    erewrite bind_Ok by exact Hstep. reflexivity.
Qed.

Lemma failed_pair_is_skipped_witness :
  compare_pair Scenario.env 0.5 100 Scenario.d1 (Float 0.8, 1)
    (uploaded_pairing Scenario.d3) Scenario.w0
  = (Ok (Float 0.8, 1),
     log (CallTextComparison (Some "alpha") (Some "")) Scenario.w0).
Proof.
  apply (failed_pair_is_skipped Scenario.env 0.5 100 Scenario.d1
           (Float 0.8, 1) (uploaded_pairing Scenario.d3)
           (ExternalError "uncomparable") Scenario.w0).
  reflexivity.
Defined.

(** The Results of a returned comparison step, with distinct primary keys:
    what the run added, and which of it belongs to [doc]. *)
Lemma batch_results_of (env : Env) (documents : list Document.t)
    (threshold : float) (similar_count : Z) (round_decimal_places : N)
    (doc : Document.t) (w w' : world) :
  NoDup (Document.id <$> documents) ->
  doc ∈ documents ->
  compare_documents env documents threshold similar_count
    round_decimal_places w = (Ok tt, w') ->
  exists rs,
    db_results w' = db_results w ++ rs /\
    results_for env documents threshold similar_count
      (10 ^ Z.of_N round_decimal_places) doc
      (filter (fun r => Result.document r = Document.id doc) rs).
Proof.
  intros Hnd Hdoc Hrun. unfold compare_documents in Hrun.
  apply batch_results in Hrun as (rss & Hrss & Hall).
  destruct (batch_results_own _ _ _ _ _ _ _ _ Hnd Hdoc Hall) as (rs & Hrs & <-).
  exists (concat rss). split; assumption.
Qed.

(** The Results of the scenario at threshold 0.5: the corpus hit at 0.8 is
    recorded for the first document, the sibling at 0.3 is not. *)
Example scenario_results :
  db_results
    (compare_documents Scenario.env Scenario.batch 0.5 10 2 Scenario.w0).2
  = [Result.mk 1 CORPUS (ElasticId "e1") (Some "one") 0.8 [(0, 5)]].
Proof. vm_compute. reflexivity. Qed.

(** The scenario of the specification, as the code runs it: threshold 0.5,
    corpus hit at 0.8, sibling at 0.3.  The aggregate is 1.1 and the stored
    total is 1.11, since [1.1 * 100] is 110.00000000000001 in binary64. *)
Example scenario_average_and_total :
  (score_document Scenario.env Scenario.batch 0.5 10 100 Scenario.d1
     Scenario.w0).1 = Ok (Float 1.1) /\
  PrimFloat.mul 1.1 100 = 110.00000000000001%float /\
  Py.ceil (Float (1.1 * 100)) = Ok 111 /\
  db_documents
    (compare_documents Scenario.env Scenario.batch 0.5 10 2 Scenario.w0).2
    !! 1 = Some (Document.with_total_percentage (Some 1.11%float) Scenario.d1).
Proof. vm_compute. repeat split. Qed.

(** C1 as stated fails twice.  The second document has one scored pair, at
    0.4, below the threshold: its match count is 0, yet its aggregate is 0.4
    and not 0, and 0.4 is stored.  The first document is the scenario of the
    claim: the stored total is not 1.10. *)
Lemma aggregate_counterexample :
  let run := compare_documents Scenario.env Scenario.batch 0.5 10 2 Scenario.w0 in
  run.1 = Ok tt /\
  matchCount 0.5
    (scored Scenario.env Scenario.d2
       (pairings [] [Scenario.d1; Scenario.d3])) = 0 /\
  aggregate Scenario.env Scenario.batch 0.5 10 Scenario.d2 = Ok (Float 0.4) /\
  (Document.total_percentage <$> db_documents run.2 !! 2) = Some (Some 0.4%float) /\
  PrimFloat.eqb 0.4 0 = false /\
  (Document.total_percentage <$> db_documents run.2 !! 1) = Some (Some 1.11%float) /\
  PrimFloat.eqb 1.11 1.10 = false.
Proof. vm_compute. repeat split. Qed.

Lemma Forall2_stored_ids env documents threshold similar_count round_factor
    (l saved : list Document.t) :
  Forall2 (stored_for env documents threshold similar_count round_factor) l saved ->
  Document.id <$> saved = Document.id <$> l.
Proof.
  induction 1 as [|doc stored l saved Hs _ IH]; [reflexivity |].
  rewrite !fmap_cons, IH. f_equal. eapply stored_for_id, Hs.
Qed.

Lemma Forall2_partner {A B} (R : A -> B -> Prop) (l : list A) (k : list B) x :
  Forall2 R l k -> x ∈ l -> exists y, y ∈ k /\ R x y.
Proof.
  induction 1 as [|a b l k Hab _ IH]; intros Hx; [inversion Hx |].
  apply elem_of_cons in Hx as [-> | Hx].
  - exists b. split; [left | exact Hab].
  - destruct (IH Hx) as (y & Hy & HR). exists y. split; [right; exact Hy | exact HR].
Qed.

(** A returned comparison step, for one document of a batch with distinct
    primary keys: what was saved for it, and how often. *)
Lemma batch_stored (env : Env) (documents : list Document.t)
    (threshold : float) (similar_count : Z) (round_decimal_places : N)
    (w w' : world) (doc : Document.t) :
  NoDup (Document.id <$> documents) ->
  doc ∈ documents ->
  compare_documents env documents threshold similar_count
    round_decimal_places w = (Ok tt, w') ->
  exists stored evs,
    stored_for env documents threshold similar_count
      (10 ^ Z.of_N round_decimal_places) doc stored /\
    trace w' = trace w ++ evs /\
    filter (fun d => Document.id d = Document.id doc) (saved_documents evs)
      = [stored] /\
    db_documents w' !! Document.id doc = Some stored.
Proof.
  intros Hnd Hdoc Hrun. unfold compare_documents in Hrun.
  apply batch_loop_Ok in Hrun as (evs & Hevs & Hall & Hdb).
  destruct (Forall2_partner _ _ _ _ Hall Hdoc) as (stored & Hin & Hstored).
  pose proof (Forall2_stored_ids _ _ _ _ _ _ _ Hall) as Hids.
  pose proof (stored_for_id _ _ _ _ _ _ _ Hstored) as Hid.
  exists stored, evs. split; [exact Hstored |]. split; [exact Hevs |].
  rewrite <- Hids in Hnd. rewrite <- Hid. split.
  - apply filter_id_NoDup; assumption.
  - rewrite Hdb. apply foldl_insert_lookup; assumption.
Qed.

(** ** The rounding is the claims' formula *)

Lemma float_ceil_is_ceiling (x : float) (c : Z) :
  Py.float_ceil x = Ok c <-> is_ceiling x c.
Proof.
  unfold Py.float_ceil, is_ceiling, dyadic.
  destruct (Prim2SF x) as [s|s| |s m e].
  - split.
    + intros H. inversion H; subst. exists 0, 0. split; [reflexivity | simpl; lia].
    + intros (n & k & H & Hc). inversion H; subst. simpl in Hc. f_equal. lia.
  - split; [intros H; discriminate H | intros (n & k & H & _); discriminate H].
  - split; [intros H; discriminate H | intros (n & k & H & _); discriminate H].
  - set (sm := if s then Z.neg m else Z.pos m).
    destruct (0 <=? e) eqn:He.
    + split.
      * intros H. inversion H; subst. exists (sm * 2 ^ e), 0.
        split; [reflexivity | simpl; lia].
      * intros (n & k & H & Hc). inversion H; subst. simpl in Hc. f_equal. lia.
    + apply Z.leb_gt in He.
      assert (Hd : 0 < 2 ^ (- e)) by (apply Z.pow_pos_nonneg; lia).
      pose proof (Z.mul_div_le (- sm) (2 ^ (- e)) Hd) as Hlo.
      pose proof (Z.mul_succ_div_gt (- sm) (2 ^ (- e)) Hd) as Hhi.
      split.
      * intros H. inversion H; subst. exists sm, (- e).
        split; [reflexivity | nia].
      * intros (n & k & H & Hc). inversion H; subst. f_equal. nia.
Qed.

Lemma round_up_ceil_places (round_factor : Z) (a : number) (rounded : float) :
  round_up round_factor a = Ok rounded <-> ceil_places round_factor a rounded.
Proof.
  unfold round_up, ceil_places, Py.mul, Py.ceil, Py.to_float, obind.
  destruct a as [z|x].
  - reflexivity.
  - destruct (Py.float_of_int round_factor) as [factor|e].
    + split.
      * intros H. destruct (Py.float_ceil (x * factor)) as [c|e] eqn:Hc;
          [| discriminate H].
        exists factor, c. split; [reflexivity |].
        split; [apply float_ceil_is_ceiling, Hc | exact H].
      * intros (f & c & Hf & Hc & H). inversion Hf; subst f.
        apply float_ceil_is_ceiling in Hc. rewrite Hc. exact H.
    + split; [intros H; discriminate H |].
      intros (f & c & Hf & _). discriminate Hf.
Qed.

(** The code stores 0.08 for a score of 0.07: [0.07 * 100] is
    7.000000000000001 in binary64. *)
Example round_up_007 : round_up 100 (Float 0.07) = Ok 0.08%float.
Proof. vm_compute. reflexivity. Qed.

(** ** A comparison step that does not complete *)

Section Progress.

Context (env : Env) (documents : list Document.t) (threshold : float)
        (similar_count : Z) (round_factor : Z).

(** A loop over pairs that raised: it stopped at a scored pair above the
    threshold whose percentage is not defined, with the Results of the
    pairs before it. *)
Lemma pairs_loop_Raised (doc : Document.t) (l : list pairing) :
  forall (prev : list float) (c : Z) (w : world) e w',
  for_fold l (similaritySum prev, c)
    (compare_pair env threshold round_factor doc) w = (Raised e, w') ->
  exists reached other rest,
    l = reached ++ other :: rest /\
    (exists rs,
        db_results w' = db_results w ++ rs /\
        Forall2 (fun pc r => result_of round_factor doc pc = Ok r)
          (List.filter (exceeds threshold) (scored env doc reached)) rs) /\
    db_documents w' = db_documents w /\
    (exists evs, trace w' = trace w ++ evs /\ saved_documents evs = []).
Proof.
  induction l as [|other l IH]; intros prev c w e w' Hrun.
  - discriminate Hrun.
  - cbn [for_fold] in Hrun. unfold bind in Hrun.
    pose proof (compare_pair_run env threshold round_factor doc prev c other w)
      as Hstep.
    destruct (compare_pair env threshold round_factor doc
                (similaritySum prev, c) other w) as [[acc1|e1] w1] eqn:Hpair.
    + assert (Hone : exists prev1 c1 rs1 evs1,
                acc1 = (similaritySum prev1, c1) /\
                db_results w1 = db_results w ++ rs1 /\
                Forall2 (fun pc r => result_of round_factor doc pc = Ok r)
                  (List.filter (exceeds threshold) (scored env doc [other]))
                  rs1 /\
                db_documents w1 = db_documents w /\
                trace w1 = trace w ++ evs1 /\ saved_documents evs1 = []).
      { rewrite (scored_cons env doc other []).
        destruct (text_comparison env (Document.text doc) (p_text other))
          as [compared|e0]; simpl in Hstep.
        - destruct (Py.gt (similarity compared) threshold) eqn:Hgt.
          + destruct (result_of round_factor doc (other, compared))
              as [r|e0] eqn:Hres; [| discriminate Hstep].
            inversion Hstep; subst acc1 w1.
            exists (prev ++ [similarity compared]), (c + 1), [r],
                   [CallTextComparison (Document.text doc) (p_text other);
                    CreateResult r].
            split; [reflexivity |]. split; [reflexivity |].
            split.
            { simpl. unfold exceeds, score. simpl. rewrite Hgt.
              constructor; [exact Hres | constructor]. }
            split; [reflexivity |]. split; [| reflexivity].
            simpl. rewrite <- app_assoc. reflexivity.
          + inversion Hstep; subst acc1 w1.
            exists (prev ++ [similarity compared]), c, [],
                   [CallTextComparison (Document.text doc) (p_text other)].
            split; [reflexivity |]. split; [simpl; rewrite app_nil_r; reflexivity |].
            split.
            { simpl. unfold exceeds, score. simpl. rewrite Hgt. constructor. }
            repeat split.
        - inversion Hstep; subst acc1 w1.
          exists prev, c, [],
                 [CallTextComparison (Document.text doc) (p_text other)].
          split; [reflexivity |]. split; [simpl; rewrite app_nil_r; reflexivity |].
          split; [constructor |]. repeat split. }
      destruct Hone as (prev1 & c1 & rs1 & evs1 & -> & Hrs1 & Hall1 & Hdb1
                        & Hevs1 & Hsaved1).
      destruct (IH prev1 c1 w1 e w' Hrun)
        as (reached & failing & rest & -> & (rs & Hrs & Hall) & Hdb
            & (evs & Hevs & Hsaved)).
      exists (other :: reached), failing, rest.
      split; [reflexivity |]. split.
      { exists (rs1 ++ rs). split; [rewrite Hrs, Hrs1, app_assoc; reflexivity |].
        change (other :: reached) with ([other] ++ reached).
        rewrite scored_app, List.filter_app.
        apply Forall2_app; assumption. }
      split; [congruence |].
      exists (evs1 ++ evs). split; [rewrite Hevs, Hevs1, app_assoc; reflexivity |].
      rewrite saved_documents_app, Hsaved1, Hsaved. reflexivity.
    + inversion Hrun; subst e1 w1. exists [], other, l.
      split; [reflexivity |].
      destruct (text_comparison env (Document.text doc) (p_text other))
        as [compared|e0]; simpl in Hstep; [| discriminate Hstep].
      destruct (Py.gt (similarity compared) threshold);
        [| discriminate Hstep].
      destruct (result_of round_factor doc (other, compared));
        [discriminate Hstep |].
      inversion Hstep; subst w'. split.
      { exists []. simpl. rewrite app_nil_r. split; [reflexivity | constructor]. }
      split; [reflexivity |].
      exists [CallTextComparison (Document.text doc) (p_text other)].
      split; reflexivity.
Qed.

(** Lines 100-167 when they raise: nothing was saved, and the Results
    added are those of the pairs reached. *)
Lemma compare_document_Raised (doc : Document.t) (w w' : world) (e : exn) :
  compare_document env documents threshold similar_count round_factor doc w
    = (Raised e, w') ->
  db_documents w' = db_documents w /\
  (exists evs, trace w' = trace w ++ evs /\ saved_documents evs = []) /\
  exists rs,
    db_results w' = db_results w ++ rs /\
    results_so_far env documents threshold similar_count round_factor doc rs.
Proof.
  unfold compare_document. intros Hrun. unfold bind at 1 in Hrun.
  destruct (score_document env documents threshold similar_count round_factor
              doc w) as [[avg|e1] w1] eqn:Hscore.
  - (* the aggregate was computed; the last rounding raised *)
    unfold bind, lift in Hrun.
    destruct (round_up round_factor avg) as [total|e2]; [discriminate Hrun |].
    inversion Hrun; subst e2 w'.
    apply score_document_Ok in Hscore
      as (similar & user & Hsim & Hrem & _ & (rs & Hrs & Hall) & Hdb
          & (evs & Hevs & Hsaved & _)).
    split; [exact Hdb |]. split; [exists evs; split; assumption |].
    exists rs. split; [exact Hrs |]. right.
    exists similar, user, (pairings similar user), [].
    rewrite app_nil_r. repeat split; assumption.
  - inversion Hrun; subst e1 w1. clear Hrun.
    unfold score_document in Hscore. unfold bind at 1, call in Hscore.
    destruct (find_similar env (Document.text doc) similar_count)
      as [similar|e1] eqn:Hsim.
    2:{ inversion Hscore; subst. split; [reflexivity |].
        split; [eexists [_]; split; reflexivity |].
        exists []. rewrite app_nil_r. split; [reflexivity | left; reflexivity]. }
    set (w1 := log (CallFindSimilar (Document.text doc) similar_count) w) in *.
    unfold bind at 1, lift in Hscore.
    destruct (list_remove doc documents) as [user|e1] eqn:Hrem.
    2:{ inversion Hscore; subst. split; [reflexivity |].
        split; [eexists [_]; split; reflexivity |].
        exists []. rewrite app_nil_r. split; [reflexivity | left; reflexivity]. }
    assert (Hloop_eq :
      for_fold (pairings similar user) (similaritySum [], 0)
        (compare_pair env threshold round_factor doc) w1 =
      match for_fold similar (similaritySum [], 0)
              (compare_corpus env threshold round_factor doc) w1 with
      | (Ok acc1, wm) =>
          for_fold user acc1
            (compare_uploaded env threshold round_factor doc) wm
      | (Raised e1, wm) => (Raised e1, wm)
      end).
    { unfold pairings. rewrite for_fold_app. unfold bind.
      rewrite for_fold_fmap.
      change (fun (s : number * Z) (x : candidate) =>
                compare_pair env threshold round_factor doc s
                  (corpus_pairing x))
        with (compare_corpus env threshold round_factor doc).
      destruct (for_fold similar (similaritySum [], 0)
                  (compare_corpus env threshold round_factor doc) w1)
        as [[acc1|e1] wm]; [| reflexivity].
      rewrite for_fold_fmap. reflexivity. }
    unfold bind in Hscore.
    change (Int 0, 0) with (similaritySum [], 0) in Hscore.
    destruct (for_fold similar (similaritySum [], 0)
                (compare_corpus env threshold round_factor doc) w1)
      as [[acc1|e1] wm].
    + destruct (for_fold user acc1
                  (compare_uploaded env threshold round_factor doc) wm)
        as [[[sum cnt]|e2] wn].
      * (* both loops returned: the division raised *)
        assert (w' = wn).
        { destruct (0 <? cnt); unfold lift, ret in Hscore;
            inversion Hscore; reflexivity. }
        subst w'.
        apply pairs_loop_Ok in Hloop_eq
          as (_ & (rs & Hrs & Hall) & Hdb & (evs & Hevs & Hsaved & _)).
        subst w1. simpl in Hrs, Hdb, Hevs.
        split; [exact Hdb |]. split.
        { exists (CallFindSimilar (Document.text doc) similar_count :: evs).
          rewrite <- app_assoc in Hevs. split; assumption. }
        exists rs. split; [exact Hrs |]. right.
        exists similar, user, (pairings similar user), [].
        rewrite app_nil_r. repeat split; assumption.
      * inversion Hscore; subst e2 wn.
        apply pairs_loop_Raised in Hloop_eq
          as (reached & other & rest & Hsplit & (rs & Hrs & Hall) & Hdb
              & (evs & Hevs & Hsaved)).
        subst w1. simpl in Hrs, Hdb, Hevs.
        split; [exact Hdb |]. split.
        { exists (CallFindSimilar (Document.text doc) similar_count :: evs).
          rewrite <- app_assoc in Hevs. split; assumption. }
        exists rs. split; [exact Hrs |]. right.
        exists similar, user, reached, (other :: rest).
        repeat split; assumption.
    + inversion Hscore; subst e1 wm.
      apply pairs_loop_Raised in Hloop_eq
        as (reached & other & rest & Hsplit & (rs & Hrs & Hall) & Hdb
            & (evs & Hevs & Hsaved)).
      subst w1. simpl in Hrs, Hdb, Hevs.
      split; [exact Hdb |]. split.
      { exists (CallFindSimilar (Document.text doc) similar_count :: evs).
        rewrite <- app_assoc in Hevs. split; assumption. }
      exists rs. split; [exact Hrs |]. right.
      exists similar, user, reached, (other :: rest).
      repeat split; assumption.
Qed.


(** Every run of the loop over the batch: the documents it completed, in
    order, each with its Results and its save, then, when it raised, the
    document at which it stopped, with the Results created for it so far. *)
Lemma batch_progress (l : list Document.t) :
  forall w,
  let run :=
    for_each l
      (compare_document env documents threshold similar_count round_factor) w in
  exists done rest rss partial evs,
    l = done ++ rest /\
    (run.1 = Ok tt <-> rest = []) /\
    Forall2 (results_for env documents threshold similar_count round_factor)
      done rss /\
    Forall2 (stored_for env documents threshold similar_count round_factor)
      done (saved_documents evs) /\
    Forall (fun doc => exists w1 w2,
              compare_document env documents threshold similar_count
                round_factor doc w1 = (Ok tt, w2)) done /\
    db_results run.2 = db_results w ++ concat rss ++ partial /\
    trace run.2 = trace w ++ evs /\
    db_documents run.2 =
      foldl (fun m d => <[Document.id d := d]> m) (db_documents w)
        (saved_documents evs) /\
    match rest with
    | [] => partial = []
    | doc :: _ =>
        results_so_far env documents threshold similar_count round_factor
          doc partial
    end.
Proof.
  induction l as [|doc l IH]; intros w run.
  - exists [], [], [], [], []. subst run. simpl. rewrite !app_nil_r.
    split; [reflexivity |]. split; [split; reflexivity |].
    repeat (split; [constructor || reflexivity |]). reflexivity.
  - subst run. cbn [for_each]. unfold bind.
    destruct (compare_document env documents threshold similar_count
                round_factor doc w) as [[[]|e] w1] eqn:Hdoc.
    + pose proof Hdoc as Hrun.
      apply compare_document_Ok in Hdoc
        as (similar & user & avg & total & Hsim & Hrem & Havg & Hround
            & (rs & Hrs & Hall) & Hdocs & (evs1 & Hevs1 & Hsaved1 & _)).
      destruct (IH w1)
        as (done & rest & rss & partial & evs2 & -> & Hiff & Hres & Hst & Hran
            & Hrss & Hevs2 & Hdb & Hpartial).
      set (stored := Document.with_total_percentage (Some total) doc) in *.
      exists (doc :: done), rest, (rs :: rss), partial,
             ((evs1 ++ [SaveDocument stored]) ++ evs2).
      split; [reflexivity |]. split; [exact Hiff |].
      split.
      { constructor; [| exact Hres]. exists similar, user.
        split; [exact Hsim |]. split; [exact Hrem | exact Hall]. }
      rewrite !saved_documents_app, Hsaved1. simpl.
      split.
      { constructor; [| exact Hst].
        exists avg, total. split; [| split; [exact Hround | reflexivity]].
        unfold aggregate. rewrite Hsim, Hrem. simpl. exact Havg. }
      split; [constructor; [exists w, w1; exact Hrun | exact Hran] |].
      split; [rewrite Hrss, Hrs, <- !app_assoc; reflexivity |].
      split; [rewrite Hevs2, Hevs1, !app_assoc; reflexivity |].
      split; [rewrite Hdb, Hdocs; reflexivity | exact Hpartial].
    + apply compare_document_Raised in Hdoc
        as (Hdb & (evs & Hevs & Hsaved) & (rs & Hrs & Hsofar)).
      exists [], (doc :: l), [], rs, evs. simpl.
      split; [reflexivity |].
      split; [split; intros H; discriminate H |].
      split; [constructor |]. rewrite Hsaved.
      split; [constructor |]. split; [constructor |].
      split; [exact Hrs |]. split; [exact Hevs |].
      split; [exact Hdb | exact Hsofar].
Qed.

End Progress.

(** ** The batch, document by document *)

Section ByDocument.

Context (env : Env) (documents : list Document.t) (threshold : float)
        (similar_count : Z) (round_factor : Z) (w : world).

Let run :=
  for_each documents
    (compare_document env documents threshold similar_count round_factor) w.



(** With distinct primary keys: each completed document was saved once,
    and its row is in the table; the others were not saved. *)
Lemma progress_stored :
  NoDup (Document.id <$> documents) ->
  exists done rest evs,
    documents = done ++ rest /\
    (run.1 = Ok tt <-> rest = []) /\
    trace run.2 = trace w ++ evs /\
    (forall doc, doc ∈ done ->
       exists stored,
         stored_for env documents threshold similar_count round_factor
           doc stored /\
         (exists w1 w2,
             compare_document env documents threshold similar_count
               round_factor doc w1 = (Ok tt, w2)) /\
         db_documents run.2 !! Document.id doc = Some stored /\
         filter (fun d => Document.id d = Document.id doc)
           (saved_documents evs) = [stored]) /\
    (forall doc, doc ∈ rest ->
       filter (fun d => Document.id d = Document.id doc)
         (saved_documents evs) = [] /\
       db_documents run.2 !! Document.id doc
         = db_documents w !! Document.id doc).
Proof.
  intros Hnd.
  destruct (batch_progress env documents threshold similar_count round_factor
              documents w)
    as (done & rest & rss & partial & evs & Hsplit & Hiff & _ & Hst & Hran
        & _ & Hevs & Hdb & _).
  fold run in Hiff, Hevs, Hdb.
  exists done, rest, evs.
  split; [exact Hsplit |]. split; [exact Hiff |]. split; [exact Hevs |].
  rewrite Hsplit, fmap_app in Hnd.
  apply NoDup_app in Hnd as (Hnd_done & Hdisj & _).
  pose proof (Forall2_stored_ids _ _ _ _ _ _ _ Hst) as Hids.
  split.
  - intros doc Hdoc.
    destruct (Forall2_partner _ _ _ _ Hst Hdoc) as (stored & Hin & Hstored).
    pose proof (stored_for_id _ _ _ _ _ _ _ Hstored) as Hid.
    exists stored. split; [exact Hstored |].
    split; [rewrite Forall_forall in Hran; apply Hran, Hdoc |].
    rewrite <- Hids in Hnd_done. rewrite <- Hid. split.
    + rewrite Hdb. apply foldl_insert_lookup; assumption.
    + apply filter_id_NoDup; assumption.
  - intros doc Hdoc.
    assert (Hout : Document.id doc ∉ (Document.id <$> saved_documents evs)).
    { rewrite Hids. intros Hin. apply (Hdisj _ Hin).
      apply list_elem_of_fmap_2, Hdoc. }
    split.
    + apply filter_none, Forall_forall. intros d Hd Heq. apply Hout.
      rewrite <- Heq. apply list_elem_of_fmap_2, Hd.
    + rewrite Hdb. apply foldl_insert_absent, Hout.
Qed.

End ByDocument.

(** ** From the loops' pairs to candidates and siblings *)

Lemma pairings_others (similar : list candidate) (user : list Document.t) :
  pairings similar user = pairing_of <$> others similar user.
Proof.
  unfold pairings, others. rewrite fmap_app, <- !list_fmap_compose.
  reflexivity.
Qed.

Lemma scored_others_cons (env : Env) (doc : Document.t)
    (o : candidate + Document.t) (l : list (candidate + Document.t)) :
  scored_others env doc (o :: l) =
  match text_comparison env (Document.text doc) (other_text o) with
  | Ok compared => (o, compared) :: scored_others env doc l
  | Raised _ => scored_others env doc l
  end.
Proof.
  unfold scored_others. simpl.
  destruct (text_comparison env (Document.text doc) (other_text o));
    reflexivity.
Qed.

Lemma scored_others_app (env : Env) (doc : Document.t)
    (l1 l2 : list (candidate + Document.t)) :
  scored_others env doc (l1 ++ l2) =
  scored_others env doc l1 ++ scored_others env doc l2.
Proof. unfold scored_others. apply omap_app. Qed.

Lemma scored_pairing_of (env : Env) (doc : Document.t)
    (l : list (candidate + Document.t)) :
  scored env doc (pairing_of <$> l) =
  (fun oc => (pairing_of oc.1, oc.2)) <$> scored_others env doc l.
Proof.
  induction l as [|o l IH]; [reflexivity |].
  rewrite fmap_cons, scored_cons, scored_others_cons, IH.
  replace (p_text (pairing_of o)) with (other_text o)
    by (destruct o; reflexivity).
  destruct (text_comparison env (Document.text doc) (other_text o));
    reflexivity.
Qed.

Lemma List_filter_fmap {A B} (f : A -> B) (P : B -> bool) (l : list A) :
  List.filter P (f <$> l) = f <$> List.filter (fun x => P (f x)) l.
Proof.
  induction l as [|x l IH]; [reflexivity |].
  rewrite fmap_cons. simpl. destruct (P (f x));
    [rewrite fmap_cons |]; rewrite IH; reflexivity.
Qed.



Lemma average_explicit (env : Env) (threshold : float) (doc : Document.t)
    (l : list (candidate + Document.t)) (avg : number) :
  average threshold (scored env doc (pairing_of <$> l)) = Ok avg ->
  let pairs := scored_others env doc l in
  let sum := similaritySum (similarity ∘ snd <$> pairs) in
  let count := Z.of_nat (length (List.filter (above threshold) pairs)) in
  (0 < count -> Py.truediv sum (Int count) = Ok avg) /\
  (count = 0 -> avg = sum).
Proof.
  intros Havg pairs sum count. unfold average, matchCount in Havg.
  rewrite scored_pairing_of, List_filter_fmap, length_fmap,
          <- list_fmap_compose in Havg.
  change (similaritySum
            ((score ∘ (fun oc : (candidate + Document.t) * comparison =>
                         (pairing_of oc.1, oc.2))) <$> scored_others env doc l))
    with sum in Havg.
  change (Z.of_nat
            (length
               (List.filter
                  (fun x : (candidate + Document.t) * comparison =>
                     exceeds threshold (pairing_of x.1, x.2))
                  (scored_others env doc l))))
    with count in Havg.
  split.
  - intros Hpos. apply Z.ltb_lt in Hpos. rewrite Hpos in Havg. exact Havg.
  - intros H0. rewrite H0 in Havg. simpl in Havg. congruence.
Qed.

Lemma above_count (threshold : float)
    (pairs : list ((candidate + Document.t) * comparison)) :
  length (List.filter (above threshold) pairs) =
  length (List.filter (PrimFloat.ltb threshold) (similarity ∘ snd <$> pairs)).
Proof.
  induction pairs as [|oc pairs IH]; [reflexivity |].
  rewrite fmap_cons. simpl. unfold above at 1.
  destruct (PrimFloat.ltb threshold (similarity oc.2)); simpl; rewrite IH;
    reflexivity.
Qed.

Lemma stored_carries_total (doc : Document.t) (total : float) :
  carries_total doc total (Document.with_total_percentage (Some total) doc).
Proof. repeat split. Qed.


(** A run that raises: the engine answers NaN for the first text against
    the second, so the first document's total cannot be rounded; its corpus
    Result was created before. *)
Example aborted_run :
  let run :=
    compare_documents Faults.env_nan [Scenario.d2; Scenario.d1] 0.5 10 2
      Scenario.w0 in
  run.1 = Raised ValueError /\
  db_results run.2 =
    [Result.mk 1 CORPUS (ElasticId "e1") (Some "one"%string) 0.8 [(0, 5)]] /\
  (Document.total_percentage <$> db_documents run.2 !! 2)
    = Some (Some 0.4%float) /\
  (Document.total_percentage <$> db_documents run.2 !! 1) = Some None.
Proof. vm_compute. repeat split. Qed.



(** C1 (as the code has it): with distinct primary keys, in every run of
    the comparison step, for every document the step completes (all of
    them when it returns): the value that lines 105-163 leave in
    [result_similarity] is computed from the pairs the engine scored,
    corpus candidates and siblings alike: the numerator is the sum of all
    their scores, the denominator the number of them whose score is above
    the threshold; with a positive count the aggregate is the quotient,
    with count zero it is the sum itself, left undivided.  The document's
    row in the table carries that aggregate, rounded, as its total.  With
    one corpus pair at 0.8 and one sibling pair at 0.3, threshold 0.5 and
    two decimal places, the aggregate is 1.1 and the total 1.11; with no
    scored pair the total is 0. *)
Theorem aggregate_of_document (env : Env) (documents : list Document.t)
    (threshold : float) (similar_count : Z) (round_decimal_places : N)
    (w : world) :
  NoDup (Document.id <$> documents) ->
  let round_factor := 10 ^ Z.of_N round_decimal_places in
  let run :=
    compare_documents env documents threshold similar_count
      round_decimal_places w in
  exists done rest,
    documents = done ++ rest /\
    (run.1 = Ok tt <-> rest = []) /\
    forall doc, doc ∈ done ->
      exists w1 w2 avg total stored similar_documents user_documents,
        score_document env documents threshold similar_count round_factor
          doc w1 = (Ok avg, w2) /\
        find_similar env (Document.text doc) similar_count
          = Ok similar_documents /\
        user_documents
          = filter (fun d => Document.id d <> Document.id doc) documents /\
        let pairs :=
          scored_others env doc (others similar_documents user_documents) in
        let scores := similarity ∘ snd <$> pairs in
        let sum := similaritySum scores in
        let count :=
          Z.of_nat (length (List.filter (PrimFloat.ltb threshold) scores)) in
        (0 < count -> Py.truediv sum (Int count) = Ok avg) /\
        (count = 0 -> avg = sum) /\
        ceil_places round_factor avg total /\
        carries_total doc total stored /\
        db_documents run.2 !! Document.id doc = Some stored /\
        (threshold = 0.5%float -> round_decimal_places = 2%N ->
         scores = [0.8; 0.3]%float ->
         avg = Float 1.1 /\ total = 1.11%float) /\
        (pairs = [] -> avg = Int 0 /\ total = 0%float).
Proof.
  intros Hnd round_factor run.
  destruct (progress_stored env documents threshold similar_count
              round_factor w Hnd)
    as (done & rest & evs & Hsplit & Hiff & _ & Hdone & _).
  exists done, rest. split; [exact Hsplit |]. split; [exact Hiff |].
  intros doc Hdoc.
  destruct (Hdone doc Hdoc)
    as (stored & (avg & total & Hagg & Hround & ->) & (w1 & w3 & Hbody)
        & Hdb & _).
  unfold compare_document in Hbody.
  apply bind_Ok_inv in Hbody as (avg' & w2 & Hscore & _).
  pose proof Hscore as Hscore'.
  apply score_document_Ok in Hscore'
    as (similar & user & Hsim & Hrem & Havg & _).
  assert (avg' = avg) as ->.
  { unfold aggregate in Hagg. rewrite Hsim, Hrem in Hagg. simpl in Hagg.
    congruence. }
  exists w1, w2, avg, total,
         (Document.with_total_percentage (Some total) doc), similar, user.
  do 2 (split; [assumption |]). split.
  { rewrite list_remove_NoDup in Hrem;
      [congruence | exact Hnd |].
    rewrite Hsplit. apply elem_of_app. left. exact Hdoc. }
  intros pairs scores sum count.
  rewrite pairings_others in Havg.
  destruct (average_explicit env threshold doc (others similar user) avg Havg)
    as [Hpos Hzero].
  fold pairs in Hpos, Hzero. rewrite above_count in Hpos, Hzero.
  fold scores sum count in Hpos, Hzero.
  split; [exact Hpos |]. split; [exact Hzero |].
  split; [apply round_up_ceil_places, Hround |].
  split; [apply stored_carries_total |].
  split; [exact Hdb |]. split.
  - intros Hthr Hp Hscores. subst threshold round_decimal_places.
    assert (Havg1 : avg = Float 1.1).
    { subst count sum. rewrite Hscores in Hpos.
      assert (H : Ok (A := number) (Float 1.1) = Ok avg)
        by (apply Hpos; vm_compute; reflexivity).
      congruence. }
    split; [exact Havg1 |]. subst avg round_factor.
    vm_compute in Hround. congruence.
  - intros Hnil.
    assert (Havg0 : avg = Int 0).
    { rewrite Hzero; subst sum count scores; rewrite Hnil; reflexivity. }
    split; [exact Havg0 |].
    rewrite Havg0, round_up_Int_0 in Hround by apply round_factor_pos.
    congruence.
Qed.

(** The scenario through the theorem: aggregate 1.1, and 1.11 in the
    first document's row. *)
Lemma aggregate_of_document_witness :
  exists stored,
    db_documents
      (compare_documents Scenario.env Scenario.batch 0.5 10 2 Scenario.w0).2
      !! 1 = Some stored /\
    Document.total_percentage stored = Some 1.11%float.
Proof.
  destruct (aggregate_of_document Scenario.env Scenario.batch 0.5 10 2
              Scenario.w0)
    as (done & rest & Hsplit & Hiff & Hdone).
  - apply (bool_decide_unpack _). vm_compute. exact I.
  - assert (Hrest : rest = []) by (apply Hiff; vm_compute; reflexivity).
    subst rest. rewrite app_nil_r in Hsplit. subst done.
    destruct (Hdone Scenario.d1)
      as (w1 & w2 & avg & total & stored & similar & user & _ & Hsim & Hrem
          & _ & _ & _ & Hcarries & Hdb & Hscenario & _);
      [left |].
    vm_compute in Hsim. injection Hsim as <-. subst user.
    destruct (Hscenario eq_refl eq_refl) as [_ ->]; [vm_compute; reflexivity |].
    exists stored. split; [exact Hdb | apply Hcarries].
Defined.

(** C7: with distinct primary keys, in every run of the comparison step,
    however it ends.  For each document the step completes (all of them
    exactly when it returns), the value [ceil(average * 10^p) / 10^p],
    with [average] the value lines 105-163 computed for that document, is
    the [total_percentage] of the document's row in the Document table, the
    rest of the row being the document's, and the run saved that document
    exactly once.  The documents it did not complete were not saved. *)
Theorem total_percentage_persisted (env : Env) (documents : list Document.t)
    (threshold : float) (similar_count : Z) (round_decimal_places : N)
    (w : world) :
  NoDup (Document.id <$> documents) ->
  let round_factor := 10 ^ Z.of_N round_decimal_places in
  let run :=
    compare_documents env documents threshold similar_count
      round_decimal_places w in
  exists done rest evs,
    documents = done ++ rest /\
    (run.1 = Ok tt <-> rest = []) /\
    trace run.2 = trace w ++ evs /\
    (forall doc, doc ∈ done ->
       exists w1 w2 average total stored,
         score_document env documents threshold similar_count round_factor
           doc w1 = (Ok average, w2) /\
         aggregate env documents threshold similar_count doc = Ok average /\
         ceil_places round_factor average total /\
         carries_total doc total stored /\
         db_documents run.2 !! Document.id doc = Some stored /\
         filter (fun d => Document.id d = Document.id doc)
           (saved_documents evs) = [stored]) /\
    (forall doc, doc ∈ rest ->
       filter (fun d => Document.id d = Document.id doc)
         (saved_documents evs) = [] /\
       db_documents run.2 !! Document.id doc
         = db_documents w !! Document.id doc).
Proof.
  intros Hnd round_factor run.
  destruct (progress_stored env documents threshold similar_count
              round_factor w Hnd)
    as (done & rest & evs & Hsplit & Hiff & Hevs & Hdone & Hrest).
  exists done, rest, evs.
  split; [exact Hsplit |]. split; [exact Hiff |]. split; [exact Hevs |].
  split; [| exact Hrest].
  intros doc Hdoc.
  destruct (Hdone doc Hdoc)
    as (stored & (avg & total & Hagg & Hround & ->) & (w1 & w3 & Hbody)
        & Hdb & Honce).
  unfold compare_document in Hbody.
  apply bind_Ok_inv in Hbody as (avg' & w2 & Hscore & _).
  pose proof Hscore as Hscore'.
  apply score_document_Ok in Hscore'
    as (similar & user & Hsim & Hrem & Havg & _).
  assert (avg' = avg) as ->.
  { unfold aggregate in Hagg. rewrite Hsim, Hrem in Hagg. simpl in Hagg.
    congruence. }
  exists w1, w2, avg, total, (Document.with_total_percentage (Some total) doc).
  split; [exact Hscore |]. split; [exact Hagg |].
  split; [apply round_up_ceil_places, Hround |].
  split; [apply stored_carries_total |]. split; assumption.
Qed.

(** The run that raises at the second document: the first was saved once,
    with total 0.4, and the second was not saved. *)
Lemma total_percentage_persisted_witness :
  let run :=
    compare_documents Faults.env_nan [Scenario.d2; Scenario.d1] 0.5 10 2
      Scenario.w0 in
  exists evs stored,
    trace run.2 = trace Scenario.w0 ++ evs /\
    db_documents run.2 !! 2 = Some stored /\
    Document.total_percentage stored = Some 0.4%float /\
    filter (fun d => Document.id d = 2) (saved_documents evs) = [stored] /\
    filter (fun d => Document.id d = 1) (saved_documents evs) = [] /\
    db_documents run.2 !! 1 = db_documents Scenario.w0 !! 1.
Proof.
  intros run.
  destruct (total_percentage_persisted Faults.env_nan
              [Scenario.d2; Scenario.d1] 0.5 10 2 Scenario.w0)
    as (done & rest & evs & Hsplit & Hiff & Hevs & Hdone & Hrest).
  - apply (bool_decide_unpack _). vm_compute. exact I.
  - fold run in Hiff, Hevs, Hdone, Hrest.
    assert (Hwhich : done = [Scenario.d2] /\ rest = [Scenario.d1]).
    { destruct done as [|x [|y done]].
      - exfalso. simpl in Hsplit. subst rest.
        destruct (Hrest Scenario.d2) as [_ Hkeep]; [left |].
        vm_compute in Hkeep. discriminate Hkeep.
      - injection Hsplit as <- <-. split; reflexivity.
      - exfalso. injection Hsplit as <- <- Hnil.
        destruct done; [| discriminate Hnil]. destruct rest; [| discriminate Hnil].
        destruct Hiff as [_ Hret]. specialize (Hret eq_refl).
        vm_compute in Hret. discriminate Hret. }
    destruct Hwhich as [-> ->].
    destruct (Hdone Scenario.d2)
      as (w1 & w2 & avg & total & stored & _ & Hagg & Hround & Hcarries
          & Hdb & Honce); [left |].
    destruct (Hrest Scenario.d1) as [Hnone Hkeep]; [left |].
    vm_compute in Hagg. injection Hagg as <-.
    apply round_up_ceil_places in Hround. vm_compute in Hround.
    injection Hround as <-.
    exists evs, stored. split; [exact Hevs |]. split; [exact Hdb |].
    split; [apply Hcarries |]. split; [exact Honce |].
    split; [exact Hnone | exact Hkeep].
Defined.

(** With distinct primary keys, the comparison step adds no Result that
    matches a document against itself, however it ends. *)
Lemma compare_documents_no_self_match (env : Env)
    (documents : list Document.t) (threshold : float) (similar_count : Z)
    (round_decimal_places : N) :
  NoDup (Document.id <$> documents) ->
  bounded (fun _ => True) no_self_match
    (compare_documents env documents threshold similar_count
       round_decimal_places).
Proof.
  intros Hnd. unfold compare_documents. apply bounded_for_each.
  intros doc Hdoc. apply bounded_compare_document.
  - intros e _. exact I.
  - intros r _ Htype Hup. rewrite Htype in Hup. discriminate Hup.
  - intros user u r Hrem Hu Hd _ Hid _. rewrite Hid, Hd.
    apply (list_remove_elem _ _ _ Hnd Hrem) in Hu as [_ Hne].
    congruence.
Qed.

(** C8: in a batch with distinct primary keys the sibling pool of a document
    is the batch without that document, whatever the texts are; and every
    Result the comparison step adds, however the step ends, satisfies
    [no_self_match]: an UPLOADED Result never carries the id of the document
    it belongs to. *)
Theorem sibling_pool_excludes_self (env : Env) (documents : list Document.t)
    (threshold : float) (similar_count : Z) (round_decimal_places : N) :
  NoDup (Document.id <$> documents) ->
  (forall doc, doc ∈ documents ->
     list_remove doc documents =
       Ok (filter (fun d => Document.id d <> Document.id doc) documents)) /\
  (forall w, exists rs,
     db_results
       (compare_documents env documents threshold similar_count
          round_decimal_places w).2 = db_results w ++ rs /\
     Forall no_self_match rs).
Proof.
  intros Hnd. split.
  - intros doc Hdoc. apply list_remove_NoDup; assumption.
  - intros w.
    destruct (compare_documents_no_self_match env documents threshold
                similar_count round_decimal_places Hnd w) as (_ & Hres & _).
    exact Hres.
Qed.

Lemma sibling_pool_excludes_self_witness :
  (forall doc, doc ∈ Scenario.batch ->
     list_remove doc Scenario.batch =
       Ok (filter (fun d => Document.id d <> Document.id doc) Scenario.batch)) /\
  (forall w, exists rs,
     db_results
       (compare_documents Scenario.env Scenario.batch 0.25 10 2 w).2
       = db_results w ++ rs /\
     Forall no_self_match rs).
Proof.
  apply (sibling_pool_excludes_self Scenario.env Scenario.batch 0.25 10 2).
  apply (bool_decide_unpack _). vm_compute. exact I.
Defined.

Lemma scored_elem env doc (others : list pairing) other compared :
  other ∈ others ->
  text_comparison env (Document.text doc) (p_text other) = Ok compared ->
  (other, compared) ∈ scored env doc others.
Proof.
  intros Hin Hcmp. unfold scored. apply list_elem_of_omap.
  exists other. split; [exact Hin |]. rewrite Hcmp. reflexivity.
Qed.

(** The aggregate of a document only reads the engine with that document's
    text as the first argument. *)
Lemma aggregate_own_direction (env env' : Env) documents threshold
    similar_count (doc : Document.t) :
  (forall t, text_comparison env' (Document.text doc) t =
             text_comparison env (Document.text doc) t) ->
  find_similar env' (Document.text doc) similar_count =
    find_similar env (Document.text doc) similar_count ->
  aggregate env' documents threshold similar_count doc =
  aggregate env documents threshold similar_count doc.
Proof.
  intros Hcmp Hfind. unfold aggregate. rewrite Hfind.
  destruct (find_similar env (Document.text doc) similar_count) as [similar|e];
    [| reflexivity].
  simpl. destruct (list_remove doc documents) as [user|e]; [| reflexivity].
  simpl. f_equal. unfold scored. apply list_omap_ext.
  apply Forall2_same_length_lookup_2; [reflexivity |].
  intros i x y Hx Hy. rewrite Hx in Hy. inversion Hy; subst y.
  rewrite Hcmp. reflexivity.
Qed.

Lemma scored_filter (env : Env) (doc : Document.t) (threshold : float)
    (P : pairing -> Prop) `{!forall p, Decision (P p)} (others : list pairing) :
  filter (fun pc => P pc.1)
    (List.filter (exceeds threshold) (scored env doc others)) =
  List.filter (exceeds threshold) (scored env doc (filter P others)).
Proof.
  induction others as [|other others IH]; [reflexivity |].
  rewrite filter_cons, scored_cons.
  destruct (decide (P other)) as [Hp | Hp].
  - rewrite scored_cons.
    destruct (text_comparison env (Document.text doc) (p_text other))
      as [compared|e]; [| exact IH].
    simpl. destruct (exceeds threshold (other, compared)); [| exact IH].
    rewrite filter_cons_True by exact Hp. rewrite IH. reflexivity.
  - destruct (text_comparison env (Document.text doc) (p_text other))
      as [compared|e]; [| exact IH].
    simpl. destruct (exceeds threshold (other, compared)); [| exact IH].
    rewrite filter_cons_False by exact Hp. exact IH.
Qed.

(** In the sibling pool of [a], the document [b] is there once. *)
Lemma sibling_once (documents user : list Document.t) (a b : Document.t) :
  NoDup (Document.id <$> documents) ->
  a ∈ documents -> b ∈ documents ->
  Document.id b <> Document.id a ->
  list_remove a documents = Ok user ->
  filter (fun d => Document.id d = Document.id b) user = [b].
Proof.
  intros Hnd Ha Hb Hne Hrem.
  apply filter_id_NoDup.
  - rewrite (list_remove_NoDup a documents Hnd Ha) in Hrem.
    inversion Hrem. apply NoDup_fmap_filter, Hnd.
  - apply (list_remove_elem _ _ _ Hnd Hrem). split; assumption.
Qed.

Lemma filter_fmap {A B} (f : A -> B) (P : B -> Prop)
    `{!forall y, Decision (P y)} (l : list A) :
  filter P (f <$> l) = f <$> filter (fun x => P (f x)) l.
Proof.
  induction l as [|x l IH]; [reflexivity |].
  rewrite fmap_cons, !filter_cons.
  destruct (decide (P (f x))); [rewrite fmap_cons |]; rewrite IH; reflexivity.
Qed.

(** Among the pairs of [a], the one with sibling [b]. *)
Lemma pairings_of_sibling (similar : list candidate) (user : list Document.t)
    (b : Document.t) :
  filter (fun d => Document.id d = Document.id b) user = [b] ->
  filter (fun p => p_id p = DocumentId (Document.id b)) (pairings similar user)
  = [uploaded_pairing b].
Proof.
  intros Honce. unfold pairings. rewrite filter_app.
  rewrite filter_none, app_nil_l.
  - rewrite filter_fmap.
    rewrite (list_filter_iff _ (fun d => Document.id d = Document.id b)).
    + rewrite Honce. reflexivity.
    + intros d. simpl. split; [intros H; inversion H; reflexivity | congruence].
  - apply Forall_fmap, Forall_forall. intros c _ H. discriminate H.
Qed.

(** One direction of a sibling pair, in a returned comparison step. *)
Lemma sibling_direction (env : Env) (documents : list Document.t)
    (threshold : float) (similar_count : Z) (round_decimal_places : N)
    (a b : Document.t) (w w' : world) (evs : list event) (rs : list Result.t) :
  NoDup (Document.id <$> documents) ->
  a ∈ documents -> b ∈ documents ->
  Document.id b <> Document.id a ->
  compare_documents env documents threshold similar_count
    round_decimal_places w = (Ok tt, w') ->
  trace w' = trace w ++ evs ->
  db_results w' = db_results w ++ rs ->
  (exists user_documents,
     list_remove a documents = Ok user_documents /\
     filter (fun d => Document.id d = Document.id b) user_documents = [b]) /\
  CallTextComparison (Document.text a) (Document.text b) ∈ evs /\
  (forall compared,
     text_comparison env (Document.text a) (Document.text b) = Ok compared ->
     Py.gt (similarity compared) threshold = true ->
     exists percentage,
       round_up (10 ^ Z.of_N round_decimal_places)
         (Float (similarity compared)) = Ok percentage /\
       filter (fun r => Result.document r = Document.id a /\
                        Result.match_id r = DocumentId (Document.id b)) rs
       = [Result.mk (Document.id a) UPLOADED (DocumentId (Document.id b))
            (Document.name b) percentage (intervals compared)]).
Proof.
  intros Hnd Ha Hb Hne Hrun Hevs Hrs.
  destruct (batch_results_of _ _ _ _ _ _ _ _ Hnd Ha Hrun)
    as (rs' & Hrs' & (similar' & user' & _ & Hrem' & Hown)).
  assert (rs' = rs) as ->.
  { apply (app_inv_head (db_results w)). congruence. }
  pose proof (sibling_once _ _ _ _ Hnd Ha Hb Hne Hrem') as Honce.
  unfold compare_documents in Hrun.
  destruct (for_each_Ok_elem (fun _ => True) (fun _ => True) _ _ a _ _
              (fun doc _ =>
                 bounded_compare_document _ _ env documents threshold
                   similar_count _ doc (fun _ _ => I) (fun _ _ _ => I)
                   (fun _ _ _ _ _ _ _ _ => I))
              Hrun Ha)
    as (w1 & w2 & Hpre & Hdoc & Hpost).
  apply compare_document_Ok in Hdoc
    as (similar & user & avg & total & _ & Hrem & _ & _
        & _ & _ & (evsa & Hevsa & _ & Hcalls)).
  assert (user' = user) as -> by congruence.
  destruct Hpre as ((e0 & He0 & _) & _).
  destruct Hpost as ((e3 & He3 & _) & _).
  assert (Hevs' :
    evs = e0 ++ (evsa ++ [SaveDocument
                            (Document.with_total_percentage (Some total) a)])
             ++ e3).
  { apply (app_inv_head (trace w)).
    rewrite <- Hevs, He3, Hevsa, He0, <- !app_assoc. reflexivity. }
  assert (Hpair : uploaded_pairing b ∈ pairings similar user).
  { unfold pairings. apply elem_of_app. right.
    apply list_elem_of_fmap_2.
    apply (list_remove_elem _ _ _ Hnd Hrem). split; assumption. }
  split; [exists user; split; assumption |].
  split.
  - rewrite Hevs'. apply elem_of_app. right. apply elem_of_app. left.
    apply elem_of_app. left. apply (Hcalls _ Hpair).
  - intros compared Hcmp Hgt.
    assert (Hsplit :
      filter (fun r => Result.document r = Document.id a /\
                       Result.match_id r = DocumentId (Document.id b)) rs =
      filter (fun r => Result.match_id r = DocumentId (Document.id b))
        (filter (fun r => Result.document r = Document.id a) rs)).
    { rewrite list_filter_filter. apply list_filter_iff.
      intros r; split; intros [H1 H2]; split; assumption. }
    rewrite Hsplit. clear Hsplit.
    assert (Hfilter :
      Forall2
        (fun pc r =>
           result_of (10 ^ Z.of_N round_decimal_places) a pc = Ok r)
        (filter
           (fun pc : pairing * comparison =>
              p_id pc.1 = DocumentId (Document.id b))
           (List.filter (exceeds threshold)
              (scored env a (pairings similar' user))))
        (filter (fun r => Result.match_id r = DocumentId (Document.id b))
           (filter (fun r => Result.document r = Document.id a) rs))).
    { apply Forall2_filter; [| exact Hown].
      intros pc r H. unfold result_of in H.
      destruct (round_up (10 ^ Z.of_N round_decimal_places) (Float (score pc)));
        [simpl in H; inversion H; reflexivity | discriminate H]. }
    pose proof (scored_filter env a threshold
                  (fun p => p_id p = DocumentId (Document.id b))
                  (pairings similar' user)) as Hsf.
    cbv beta in Hsf. rewrite Hsf in Hfilter. clear Hsf.
    rewrite (pairings_of_sibling similar' user b Honce) in Hfilter.
    rewrite scored_cons in Hfilter.
    change (p_text (uploaded_pairing b)) with (Document.text b) in Hfilter.
    rewrite Hcmp in Hfilter. simpl in Hfilter.
    unfold exceeds, score in Hfilter. simpl in Hfilter. rewrite Hgt in Hfilter.
    inversion Hfilter as [|pc r l k Hres Hnil Hl Hk]; subst.
    inversion Hnil; subst.
    unfold result_of, score in Hres. simpl in Hres.
    destruct (round_up (10 ^ Z.of_N round_decimal_places)
                (Float (similarity compared))) as [pct|e];
      [| discriminate Hres].
    simpl in Hres. inversion Hres. exists pct. split; reflexivity.
Qed.

(** C10: in a returned comparison step on a batch with distinct primary
    keys, two distinct documents [a] and [b] are compared in both
    directions: [b] is once in the sibling pool of [a] and [a] once in that
    of [b], and the history holds the call with [a]'s text first and the
    call with [b]'s text first.  When both scores exceed the threshold, the
    Results of [a] pointing at [b] are exactly one UPLOADED Result, and
    likewise for [b] pointing at [a].  The aggregate stored for each of the
    two is its own: it does not change when the engine answers differently
    for first arguments other than that document's text. *)
Theorem sibling_pair_scored_in_both_directions (env : Env)
    (documents : list Document.t) (threshold : float) (similar_count : Z)
    (round_decimal_places : N) (a b : Document.t) (w w' : world) :
  NoDup (Document.id <$> documents) ->
  a ∈ documents -> b ∈ documents ->
  Document.id a <> Document.id b ->
  compare_documents env documents threshold similar_count
    round_decimal_places w = (Ok tt, w') ->
  exists evs rs pool_a pool_b,
    trace w' = trace w ++ evs /\
    db_results w' = db_results w ++ rs /\
    list_remove a documents = Ok pool_a /\
    list_remove b documents = Ok pool_b /\
    filter (fun d => Document.id d = Document.id b) pool_a = [b] /\
    filter (fun d => Document.id d = Document.id a) pool_b = [a] /\
    CallTextComparison (Document.text a) (Document.text b) ∈ evs /\
    CallTextComparison (Document.text b) (Document.text a) ∈ evs /\
    (forall ab ba,
       text_comparison env (Document.text a) (Document.text b) = Ok ab ->
       text_comparison env (Document.text b) (Document.text a) = Ok ba ->
       Py.gt (similarity ab) threshold = true ->
       Py.gt (similarity ba) threshold = true ->
       exists pa pb,
         round_up (10 ^ Z.of_N round_decimal_places) (Float (similarity ab))
           = Ok pa /\
         round_up (10 ^ Z.of_N round_decimal_places) (Float (similarity ba))
           = Ok pb /\
         filter (fun r => Result.document r = Document.id a /\
                          Result.match_id r = DocumentId (Document.id b)) rs
         = [Result.mk (Document.id a) UPLOADED (DocumentId (Document.id b))
              (Document.name b) pa (intervals ab)] /\
         filter (fun r => Result.document r = Document.id b /\
                          Result.match_id r = DocumentId (Document.id a)) rs
         = [Result.mk (Document.id b) UPLOADED (DocumentId (Document.id a))
              (Document.name a) pb (intervals ba)]) /\
    (forall doc, doc = a \/ doc = b ->
       exists stored,
         db_documents w' !! Document.id doc = Some stored /\
         stored_for env documents threshold similar_count
           (10 ^ Z.of_N round_decimal_places) doc stored /\
         forall env',
           (forall t, text_comparison env' (Document.text doc) t =
                      text_comparison env (Document.text doc) t) ->
           find_similar env' (Document.text doc) similar_count =
             find_similar env (Document.text doc) similar_count ->
           aggregate env' documents threshold similar_count doc =
           aggregate env documents threshold similar_count doc).
Proof.
  intros Hnd Ha Hb Hne Hrun.
  assert (Hall : bounded (fun _ => True) (fun _ => True)
                   (compare_documents env documents threshold similar_count
                      round_decimal_places)).
  { unfold compare_documents. apply bounded_for_each. intros doc _.
    apply bounded_compare_document; intros; exact I. }
  specialize (Hall w). rewrite Hrun in Hall.
  destruct Hall as ((evs & Hevs & _) & (rs & Hrs & _) & _).
  simpl in Hevs, Hrs.
  destruct (sibling_direction _ _ _ _ _ a b _ _ _ _ Hnd Ha Hb
              (not_eq_sym Hne) Hrun Hevs Hrs)
    as [(pool_a & Hpool_a & Honce_a) [Hcall_ab Hres_ab]].
  destruct (sibling_direction _ _ _ _ _ b a _ _ _ _ Hnd Hb Ha
              Hne Hrun Hevs Hrs)
    as [(pool_b & Hpool_b & Honce_b) [Hcall_ba Hres_ba]].
  exists evs, rs, pool_a, pool_b.
  do 8 (split; [assumption |]). split.
  - intros ab ba Hab Hba Hgt_ab Hgt_ba.
    destruct (Hres_ab ab Hab Hgt_ab) as (pa & Hpa & Hra).
    destruct (Hres_ba ba Hba Hgt_ba) as (pb & Hpb & Hrb).
    exists pa, pb. repeat split; assumption.
  - intros doc Hdoc.
    assert (Hin : doc ∈ documents) by (destruct Hdoc; subst; assumption).
    destruct (batch_stored _ _ _ _ _ _ _ _ Hnd Hin Hrun)
      as (stored & _ & Hstored & _ & _ & Hdb).
    exists stored. split; [exact Hdb |]. split; [exact Hstored |].
    intros env'. apply aggregate_own_direction.
Qed.

(** * The ingestion loop *)

Section Ingestion.

Context (env : Env).

Lemma bounded_downgrade (e : exn) (document : Document.t) :
  bounded ingestion_event (fun _ => False) (downgrade e document).
Proof.
  unfold downgrade. apply bounded_bind.
  - apply bounded_call. exact I.
  - intros _. apply bounded_bind; [| intros _; apply bounded_ret].
    apply bounded_save_document. exact I.
Qed.

(** The ingestion of a document causes ingestion events only: it creates no
    Result, sends no mail and leaves the Submission table alone. *)
Lemma bounded_ingest (document : Document.t) :
  bounded ingestion_event (fun _ => False) (ingest env document).
Proof.
  unfold ingest. apply bounded_bind.
  - apply bounded_attempt. destruct (Document.type document).
    + apply bounded_bind; [| intros t; apply bounded_ret].
      unfold process_file. destruct (Document.file document);
        [apply bounded_call; exact I | apply bounded_lift].
    + apply bounded_ret.
  - intros [d|e]; [| apply bounded_downgrade].
    apply bounded_bind.
    + apply bounded_attempt. unfold detect_language.
      apply bounded_call. exact I.
    + intros [l|e]; [| apply bounded_downgrade].
      apply bounded_bind.
      * apply bounded_attempt. unfold process_raw_text.
        apply bounded_call. exact I.
      * intros [t|e]; [| apply bounded_downgrade].
        apply bounded_bind; [| intros _; apply bounded_ret].
        apply bounded_save_document. exact I.
Qed.

#[local] Ltac ingest_case :=
  eexists _, _; split; [reflexivity |];
  do 3 (split; [reflexivity |]);
  split;
  [ let H := fresh "H" in
    intros ? H; first [discriminate H | inversion H; reflexivity]
  | let H := fresh "H" in
    intros ? H; first [discriminate H | repeat split] ].

(** Every way through lines 32-50: the body always ends normally, with the
    document saved; the document keeps what the try block assigned when
    nothing raised, and is downgraded otherwise. *)
Lemma ingest_run (document : Document.t) (w : world) :
  exists document' w',
    ingest env document w = (Ok document', w') /\
    Document.id document' = Document.id document /\
    Document.submission document' = Document.submission document /\
    db_documents w' = <[Document.id document := document']> (db_documents w) /\
    (forall d, ingestion env document = Ok d -> document' = d) /\
    (forall e, ingestion env document = Raised e ->
       Document.text_raw document' =
         match Document.type document with
         | FILE => Some ""
         | TEXT => Document.text_raw document
         end /\
       Document.text document' = Document.text_raw document' /\
       Document.type document' = Document.type document).
Proof.
  unfold ingest, ingestion, process_file, detect_language, process_raw_text,
    downgrade, save_document, bind, attempt, call, lift, ret, obind.
  destruct document as [k file name sub txt raw ty lang total].
  destruct ty; cbn [Document.type Document.file Document.text_raw].
  - destruct file as [path|];
      [destruct (extract_text_from_file env path) as [t|e] |];
      cbn [Document.text_raw Document.with_text_raw Document.with_language
           Document.language];
      [| ingest_case | ingest_case].
    destruct (detect env (Some t)) as [l|e]; [| ingest_case].
    cbn [Document.text_raw Document.with_text_raw Document.with_language
         Document.language].
    destruct (preprocess_text env (Some t) (Some l) _) as [r|e];
      [| ingest_case].
    destruct (r !! 1%nat) as [t'|]; ingest_case.
  - destruct (detect env raw) as [l|e]; [| ingest_case].
    cbn [Document.text_raw Document.with_text_raw Document.with_language
         Document.language].
    destruct (preprocess_text env raw (Some l) _) as [r|e]; [| ingest_case].
    destruct (r !! 1%nat) as [t'|]; ingest_case.
Qed.

End Ingestion.

Lemma Forall_False_nil {A} (l : list A) : Forall (fun _ => False) l -> l = [].
Proof. destruct 1 as [|x l H _]; [reflexivity | destruct H]. Qed.

(** The rows of the Document table have distinct primary keys. *)
Lemma rows_NoDup (w : world) : NoDup (Document.id <$> rows w).
Proof.
  unfold rows. rewrite <- list_fmap_compose.
  rewrite (list_fmap_ext _ fst) by (intros i [k d] _; reflexivity).
  rewrite merge_sort_Permutation. apply NoDup_fst_map_to_list.
Qed.

Lemma rows_sorted (w : world) : Sorted Z.le (Document.id <$> rows w).
Proof.
  unfold rows. rewrite <- list_fmap_compose.
  rewrite (list_fmap_ext _ fst) by (intros i [k d] _; reflexivity).
  apply (Sorted_fmap fst by_key Z.le); [intros a b H; exact H |].
  apply Sorted_merge_sort. apply _.
Qed.

(** The ingestion loop never raises, whatever the collaborators do, and
    hands on the same documents (by primary key). *)
Lemma ingestion_loop_returns (env : Env) (l : list Document.t) :
  forall w, exists l' w',
    for_map l (ingest env) w = (Ok l', w') /\
    Document.id <$> l' = Document.id <$> l /\
    within ingestion_event (fun _ => False) w w'.
Proof.
  induction l as [|d l IH]; intros w.
  - exists [], w. split; [reflexivity |]. split; [reflexivity |].
    apply within_refl.
  - destruct (ingest_run env d w) as (d' & w1 & Hd & Hid & _).
    destruct (IH w1) as (l' & w2 & Hl & Hids & Hin).
    exists (d' :: l'), w2. cbn [for_map].
    erewrite bind_Ok by exact Hd. erewrite bind_Ok by exact Hl.
    split; [reflexivity |]. split; [rewrite !fmap_cons, Hid, Hids; reflexivity |].
    eapply within_trans; [| exact Hin].
    pose proof (bounded_ingest env d w) as Hb. rewrite Hd in Hb. exact Hb.
Qed.

(** C5: when extraction, language detection or normalization raises for a
    document, the loop body still ends normally: a FILE document's raw text
    is the empty string, a TEXT document's raw text is what it was, the
    normalized text equals the raw text, the document is in the Document
    table in that state, and the loop goes on with the documents after it
    (and, like every run of the loop, ends normally). *)
Theorem ingestion_failure_downgrades (env : Env) (document : Document.t)
    (e : exn) (w : world) :
  ingestion env document = Raised e ->
  exists document' w',
    ingest env document w = (Ok document', w') /\
    Document.id document' = Document.id document /\
    Document.type document' = Document.type document /\
    Document.text_raw document' =
      match Document.type document with
      | FILE => Some ""
      | TEXT => Document.text_raw document
      end /\
    Document.text document' = Document.text_raw document' /\
    db_documents w' !! Document.id document = Some document' /\
    (forall rest,
       for_map (document :: rest) (ingest env) w =
       bind (for_map rest (ingest env)) (fun l => ret (document' :: l)) w') /\
    (forall rest, exists l' w'',
       for_map (document :: rest) (ingest env) w = (Ok (document' :: l'), w'')).
Proof.
  intros Hraised.
  destruct (ingest_run env document w)
    as (document' & w' & Hrun & Hid & _ & Hdb & _ & Hdown).
  destruct (Hdown e Hraised) as (Hraw & Htext & Htype).
  exists document', w'.
  do 5 (split; [assumption |]).
  split; [rewrite Hdb; apply lookup_insert_eq |].
  split.
  - intros rest. cbn [for_map]. erewrite bind_Ok by exact Hrun. reflexivity.
  - intros rest. destruct (ingestion_loop_returns env rest w')
      as (l' & w'' & Hrest & _).
    exists l', w''. cbn [for_map]. erewrite bind_Ok by exact Hrun.
    erewrite bind_Ok by exact Hrest. reflexivity.
Qed.

Lemma ingestion_failure_downgrades_witness :
  exists document' w',
    ingest Scenario.env Scenario.r3 Scenario.w0 = (Ok document', w') /\
    Document.id document' = 3 /\
    Document.type document' = FILE /\
    Document.text_raw document' = Some "" /\
    Document.text document' = Document.text_raw document' /\
    db_documents w' !! 3 = Some document' /\
    (forall rest,
       for_map (Scenario.r3 :: rest) (ingest Scenario.env) Scenario.w0 =
       bind (for_map rest (ingest Scenario.env))
         (fun l => ret (document' :: l)) w') /\
    (forall rest, exists l' w'',
       for_map (Scenario.r3 :: rest) (ingest Scenario.env) Scenario.w0
       = (Ok (document' :: l'), w'')).
Proof.
  apply (ingestion_failure_downgrades Scenario.env Scenario.r3
           (ExternalError "unreadable") Scenario.w0).
  reflexivity.
Defined.

(** * The task *)

Lemma saved_statuses_work (evs : list event) :
  Forall work_event evs -> saved_statuses evs = [] /\ sent_mails evs = [].
Proof.
  induction 1 as [|e evs He _ [IH1 IH2]]; [split; reflexivity |].
  unfold saved_statuses, sent_mails in *.
  destruct e; simpl; try (split; assumption);
    destruct He as [He | He]; destruct He.
Qed.

Lemma bounded_compare_documents (env : Env) (documents : list Document.t)
    (threshold : float) (similar_count : Z) (round_decimal_places : N) :
  bounded comparison_event (fun _ => True)
    (compare_documents env documents threshold similar_count
       round_decimal_places).
Proof.
  unfold compare_documents. apply bounded_for_each. intros doc _.
  apply bounded_compare_document; intros; first [assumption | exact I].
Qed.

Section Task.

Context (env : Env) (submission_id : Z) (w : world) (s0 : Submission.t).
Context (Hfound : db_submissions w !! submission_id = Some s0).

Let s1 := Submission.mk submission_id PROCESSING (Submission.email s0).
Let s2 := Submission.mk submission_id PROCESSED (Submission.email s0).
Let w1 := log (SaveSubmission s1) (put_submission s1 w).

(** The run of the task on a submission that exists, cut at the comparison
    step: the status write, the ingestion (which always returns), then the
    comparison step and, if it returns, the second status write and the
    notification. *)
Lemma process_documents_run :
  exists documents wi,
    for_map
      (filter (fun d => Document.submission d = Some submission_id) (rows w))
      (ingest env) w1 = (Ok documents, wi) /\
    NoDup (Document.id <$> documents) /\
    within ingestion_event (fun _ => False) w1 wi /\
    process_documents env submission_id w =
      match compare_documents env documents (SIMILARITY_THRESHOLD env) 10 2 wi with
      | (Ok _, wc) =>
          notify env s2 (log (SaveSubmission s2) (put_submission s2 wc))
      | (Raised e, wc) => (Raised e, wc)
      end.
Proof.
  destruct (ingestion_loop_returns env
              (filter (fun d => Document.submission d = Some submission_id)
                 (rows w)) w1)
    as (documents & wi & Hloop & Hids & Hin).
  exists documents, wi. split; [exact Hloop |]. split.
  { rewrite Hids. apply NoDup_fmap_filter, rows_NoDup. }
  split; [exact Hin |].
  unfold process_documents, bind at 1, attempt, objects_get.
  rewrite Hfound. cbn [Submission.status Submission.email Submission.with_status
                       Submission.id].
  unfold bind at 1, save_submission. fold s1. fold w1.
  unfold bind at 1, documents_all. cbn [Submission.id]. fold s1.
  change (rows w1) with (rows w).
  erewrite bind_Ok by exact Hloop.
  unfold bind at 1.
  destruct (compare_documents env documents (SIMILARITY_THRESHOLD env) 10 2 wi)
    as [[[]|e] wc]; reflexivity.
Qed.

End Task.

(** C6: when the identifier resolves to no Submission, [process_documents]
    returns normally and leaves the whole world as it was: no status is
    written, no document or Result is touched, no mail is sent and no
    collaborator is called. *)
Theorem process_documents_unknown_submission (env : Env) (submission_id : Z) (w : world) :
  db_submissions w !! submission_id = None ->
  process_documents env submission_id w = (Ok tt, w).
Proof.
  intros Hnone.
  unfold process_documents, bind, attempt, objects_get.
  rewrite Hnone. reflexivity.
Qed.

Lemma process_documents_unknown_submission_witness :
  db_submissions Scenario.w0 !! 99 = None /\
  process_documents Scenario.env 99 Scenario.w0 = (Ok tt, Scenario.w0).
Proof.
  split; [reflexivity |].
  apply (process_documents_unknown_submission Scenario.env 99 Scenario.w0).
  reflexivity.
Defined.

(** C4 (as the code has it): in a run of the task on a submission that
    exists, the first effect is the write of status PROCESSING; the
    ingestion then runs to its end with that status in the table; when the
    comparison step returns, the next effect is the write of status
    PROCESSED, followed by notification only, and when it raises the run
    ends there with the status still PROCESSING.  The statuses the run
    writes never step back, and neither does the status of a submission
    that was not PROCESSED when the run started. *)
Theorem status_transitions (env : Env) (submission_id : Z) (w : world)
    (s0 : Submission.t) :
  db_submissions w !! submission_id = Some s0 ->
  let s1 := Submission.mk submission_id PROCESSING (Submission.email s0) in
  let s2 := Submission.mk submission_id PROCESSED (Submission.email s0) in
  let w1 := log (SaveSubmission s1) (put_submission s1 w) in
  let run := process_documents env submission_id w in
  exists documents wi ingestion_events,
    db_submissions w1 !! submission_id = Some s1 /\
    for_map
      (filter (fun d => Document.submission d = Some submission_id) (rows w))
      (ingest env) w1 = (Ok documents, wi) /\
    trace wi = trace w ++ SaveSubmission s1 :: ingestion_events /\
    Forall ingestion_event ingestion_events /\
    db_submissions wi = db_submissions w1 /\
    (forall r wc,
       compare_documents env documents (SIMILARITY_THRESHOLD env) 10 2 wi
         = (r, wc) ->
       exists comparison_events,
         trace wc = trace wi ++ comparison_events /\
         Forall comparison_event comparison_events /\
         db_submissions wc = db_submissions w1 /\
         match r with
         | Ok _ =>
             exists mails,
               trace run.2 =
                 trace wc ++ SaveSubmission s2 :: (SendMail <$> mails) /\
               db_submissions run.2 !! submission_id = Some s2
         | Raised e => run = (Raised e, wc)
         end) /\
    (forall evs,
       trace run.2 = trace w ++ evs ->
       never_backwards (saved_statuses evs) = true /\
       (Submission.status s0 <> PROCESSED ->
        never_backwards (Submission.status s0 :: saved_statuses evs) = true)).
Proof.
  intros Hfound s1 s2 w1 run.
  destruct (process_documents_run env submission_id w s0 Hfound)
    as (documents & wi & Hloop & _ & Hin & Hrun).
  fold s1 s2 w1 in Hloop, Hin, Hrun. fold run in Hrun.
  destruct Hin as ((ievs & Hievs & Hiall) & _ & Hisub & _).
  assert (Hcmp : forall r wc,
    compare_documents env documents (SIMILARITY_THRESHOLD env) 10 2 wi
      = (r, wc) ->
    exists cevs,
      trace wc = trace wi ++ cevs /\ Forall comparison_event cevs /\
      db_submissions wc = db_submissions w1 /\
      match r with
      | Ok _ =>
          exists mails,
            trace run.2 = trace wc ++ SaveSubmission s2 :: (SendMail <$> mails) /\
            db_submissions run.2 !! submission_id = Some s2
      | Raised e => run = (Raised e, wc)
      end).
  { intros r wc Hc.
    pose proof (bounded_compare_documents env documents
                  (SIMILARITY_THRESHOLD env) 10 2 wi) as Hb.
    rewrite Hc in Hb. destruct Hb as ((cevs & Hcevs & Hcall) & _ & Hcsub & _).
    simpl in Hcevs, Hcsub.
    exists cevs. split; [exact Hcevs |]. split; [exact Hcall |].
    split; [congruence |].
    rewrite Hc in Hrun. destruct r as [[]|e]; [| exact Hrun].
    rewrite Hrun. unfold notify, send_mail.
    cbn [Submission.email s2].
    destruct (Submission.email s0) as [address|].
    - match goal with
      | |- context [deliver env ?m] =>
          exists [m]; destruct (deliver env m)
      end; simpl; rewrite <- app_assoc;
        (split; [reflexivity | apply lookup_insert_eq]).
    - exists []. simpl. split; [reflexivity | apply lookup_insert_eq]. }
  exists documents, wi, ievs.
  split; [apply lookup_insert_eq |]. split; [exact Hloop |].
  split; [rewrite Hievs; simpl; rewrite <- app_assoc; reflexivity |].
  split; [exact Hiall |]. split; [exact Hisub |]. split; [exact Hcmp |].
  intros evs Hevs.
  destruct (compare_documents env documents (SIMILARITY_THRESHOLD env) 10 2 wi)
    as [r wc] eqn:Hc.
  destruct (Hcmp r wc eq_refl) as (cevs & Hcevs & Hcall & _ & Hend).
  assert (Hi : saved_statuses ievs = []).
  { apply saved_statuses_work. eapply Forall_impl; [exact Hiall |].
    intros x Hx. left. exact Hx. }
  assert (Hcs : saved_statuses cevs = []).
  { apply saved_statuses_work. eapply Forall_impl; [exact Hcall |].
    intros x Hx. right. exact Hx. }
  assert (Hm : forall mails, saved_statuses (SendMail <$> mails) = []).
  { induction mails as [|m mails IH]; [reflexivity | exact IH]. }
  assert (Hst : saved_statuses evs = [PROCESSING]
                \/ saved_statuses evs = [PROCESSING; PROCESSED]).
  { destruct r as [[]|e].
    - destruct Hend as (mails & Hend & _). right.
      assert (evs = [SaveSubmission s1] ++ ievs ++ cevs
                    ++ [SaveSubmission s2] ++ (SendMail <$> mails)) as ->.
      { apply (app_inv_head (trace w)). rewrite <- Hevs, Hend, Hcevs, Hievs.
        simpl. rewrite <- !app_assoc. reflexivity. }
      unfold saved_statuses in *. rewrite !omap_app, Hi, Hcs, Hm. reflexivity.
    - left.
      assert (evs = [SaveSubmission s1] ++ ievs ++ cevs) as ->.
      { apply (app_inv_head (trace w)). rewrite <- Hevs, Hend. simpl.
        rewrite Hcevs, Hievs. simpl. rewrite <- !app_assoc. reflexivity. }
      unfold saved_statuses in *. rewrite !omap_app, Hi, Hcs. reflexivity. }
  destruct Hst as [-> | ->]; (split; [reflexivity |]);
    intros Hne; destruct (Submission.status s0); try reflexivity;
    contradiction Hne; reflexivity.
Qed.

Lemma status_transitions_witness :
  never_backwards
    (saved_statuses (trace (process_documents Scenario.env 7 Scenario.w0).2))
    = true /\
  never_backwards
    (PENDING ::
     saved_statuses (trace (process_documents Scenario.env 7 Scenario.w0).2))
    = true.
Proof.
  destruct (status_transitions Scenario.env 7 Scenario.w0
              (Submission.mk 7 PENDING (Some "a@b.c")) eq_refl)
    as (documents & wi & ievs & _ & _ & _ & _ & _ & _ & Hhistory).
  destruct (Hhistory (trace (process_documents Scenario.env 7 Scenario.w0).2)
              eq_refl) as [Hwritten Hfrom].
  split; [exact Hwritten |]. apply Hfrom. intros H. discriminate H.
Defined.

(** C4 as stated fails on a submission that is already PROCESSED: the run
    first writes PROCESSING over it, a step back in the order, and then
    PROCESSED again. *)
Lemma status_moves_backwards_counterexample :
  (Submission.status <$> db_submissions Scenario.w_done !! 8) = Some PROCESSED /\
  (process_documents Scenario.env 8 Scenario.w_done).1 = Ok tt /\
  saved_statuses (trace (process_documents Scenario.env 8 Scenario.w_done).2)
    = [PROCESSING; PROCESSED] /\
  never_backwards
    (PROCESSED ::
     saved_statuses (trace (process_documents Scenario.env 8 Scenario.w_done).2))
    = false.
Proof. vm_compute. repeat split. Qed.

(** C9: in a run in which the comparison step returned, the status
    PROCESSED is written with no mail sent before it; after that write a
    submission without address causes nothing more, and a submission with an
    address causes exactly one call of [send_mail], to that address, with the
    submission identifier formatted into the body; the outbox receives the
    message when the delivery succeeds, and when it raises the run ends with
    that exception; either way the Submission table still holds status
    PROCESSED when the run has ended. *)
Theorem completion_notification (env : Env) (submission_id : Z) (w : world)
    (s0 : Submission.t) :
  db_submissions w !! submission_id = Some s0 ->
  let s1 := Submission.mk submission_id PROCESSING (Submission.email s0) in
  let s2 := Submission.mk submission_id PROCESSED (Submission.email s0) in
  let w1 := log (SaveSubmission s1) (put_submission s1 w) in
  let run := process_documents env submission_id w in
  exists documents wi,
    for_map
      (filter (fun d => Document.submission d = Some submission_id) (rows w))
      (ingest env) w1 = (Ok documents, wi) /\
    forall wc,
      compare_documents env documents (SIMILARITY_THRESHOLD env) 10 2 wi
        = (Ok tt, wc) ->
      let w2 := log (SaveSubmission s2) (put_submission s2 wc) in
      (exists evs, trace w2 = trace w ++ evs /\ sent_mails evs = []) /\
      outbox w2 = outbox w /\
      db_submissions run.2 !! submission_id = Some s2 /\
      match Submission.email s0 with
      | None => run = (Ok tt, w2)
      | Some address =>
          let m :=
            {| subject := ugettext env "Antiplag - Your check has finished!";
               message :=
                 str_mod env
                   (ugettext env
                      "Check the results of your check at https://antiplag.sk/submission/%s/")
                   submission_id;
               from_email := EMAIL_SENDER env;
               recipient_list := [address] |} in
          trace run.2 = trace w2 ++ [SendMail m] /\
          match deliver env m with
          | Ok _ => run.1 = Ok tt /\ outbox run.2 = outbox w2 ++ [m]
          | Raised e => run.1 = Raised e /\ outbox run.2 = outbox w2
          end
      end.
Proof.
  intros Hfound s1 s2 w1 run.
  destruct (process_documents_run env submission_id w s0 Hfound)
    as (documents & wi & Hloop & _ & Hin & Hrun).
  fold s1 s2 w1 in Hloop, Hin, Hrun. fold run in Hrun.
  exists documents, wi. split; [exact Hloop |].
  intros wc Hc w2. rewrite Hc in Hrun. fold w2 in Hrun.
  destruct Hin as ((ievs & Hievs & Hiall) & _ & _ & Hiout).
  pose proof (bounded_compare_documents env documents
                (SIMILARITY_THRESHOLD env) 10 2 wi) as Hb.
  rewrite Hc in Hb. destruct Hb as ((cevs & Hcevs & Hcall) & _ & _ & Hcout).
  simpl in Hcevs, Hcout.
  split.
  { exists ([SaveSubmission s1] ++ ievs ++ cevs ++ [SaveSubmission s2]).
    split.
    - unfold w2. simpl. rewrite Hcevs, Hievs. simpl.
      rewrite <- !app_assoc. reflexivity.
    - unfold sent_mails. rewrite !omap_app. simpl.
      assert (Hi : sent_mails ievs = []).
      { apply saved_statuses_work. eapply Forall_impl; [exact Hiall |].
        intros x Hx. left. exact Hx. }
      assert (Hcs : sent_mails cevs = []).
      { apply saved_statuses_work. eapply Forall_impl; [exact Hcall |].
        intros x Hx. right. exact Hx. }
      unfold sent_mails in Hi, Hcs. rewrite Hi, Hcs. reflexivity. }
  split; [unfold w2; simpl; rewrite Hcout, Hiout; reflexivity |].
  rewrite Hrun. unfold notify, send_mail. cbn [Submission.email Submission.id s2].
  destruct (Submission.email s0) as [address|].
  - match goal with
    | |- context [deliver env ?m] => destruct (deliver env m)
    end; simpl;
      (split; [apply lookup_insert_eq |]); repeat split.
  - simpl. split; [apply lookup_insert_eq | reflexivity].
Qed.

Lemma completion_notification_witness :
  (process_documents Scenario.env_mail_down 7 Scenario.w0).1
    = Raised (ExternalError "connection refused") /\
  db_submissions (process_documents Scenario.env_mail_down 7 Scenario.w0).2
    !! 7 = Some (Submission.mk 7 PROCESSED (Some "a@b.c")).
Proof.
  destruct (completion_notification Scenario.env_mail_down 7 Scenario.w0
              (Submission.mk 7 PENDING (Some "a@b.c")) eq_refl)
    as (documents & wi & Hloop & Hrest).
  vm_compute in Hloop. inversion Hloop; subst documents wi; clear Hloop.
  match type of Hrest with
  | forall wc, ?c = _ -> _ =>
      destruct (Hrest (snd c)) as (_ & _ & Hstatus & _ & Hmail);
        [vm_compute; reflexivity |]
  end.
  split; [exact (proj1 Hmail) | exact Hstatus].
Defined.

(** The run of the scenario: the mail that reaches the outbox carries the
    identifier of the submission in its body. *)
Example scenario_notification :
  outbox (process_documents Scenario.env 7 Scenario.w0).2 =
  [ {| subject := "Antiplag - Your check has finished!";
       message :=
         "Check the results of your check at https://antiplag.sk/submission/7/";
       from_email := "noreply@antiplag.sk";
       recipient_list := ["a@b.c"] |} ].
Proof. vm_compute. reflexivity. Qed.

(** The batch of a task run is a queryset, so its primary keys are distinct:
    no run of the task, however it ends, adds a Result that matches a
    document against itself. *)
Lemma process_documents_no_self_match (env : Env) (submission_id : Z)
    (w : world) :
  exists rs,
    db_results (process_documents env submission_id w).2 = db_results w ++ rs /\
    Forall no_self_match rs.
Proof.
  destruct (db_submissions w !! submission_id) as [s0|] eqn:Hfound.
  - destruct (process_documents_run env submission_id w s0 Hfound)
      as (documents & wi & _ & Hnd & Hin & Hrun).
    destruct Hin as (_ & (ri & Hri & Hnone) & _).
    apply Forall_False_nil in Hnone. subst ri.
    rewrite app_nil_r in Hri. simpl in Hri.
    destruct (compare_documents_no_self_match env documents
                (SIMILARITY_THRESHOLD env) 10 2 Hnd wi) as (_ & (rs & Hrs & Hall) & _).
    exists rs. split; [| exact Hall]. rewrite Hrun.
    destruct (compare_documents env documents (SIMILARITY_THRESHOLD env) 10 2 wi)
      as [[[]|e] wc]; simpl in Hrs; [| simpl; congruence].
    unfold notify, send_mail.
    destruct (Submission.email _) as [address|]; [| simpl; congruence].
    match goal with
    | |- context [deliver env ?m] => destruct (deliver env m)
    end; simpl; congruence.
  - unfold process_documents, bind, attempt, objects_get. rewrite Hfound.
    exists []. rewrite app_nil_r. split; [reflexivity | constructor].
Qed.

(** Two documents with the same text and different primary keys stay in
    each other's sibling pool: the exclusion is by key, not by content. *)
Example same_text_siblings_are_compared :
  let t1 :=
    Document.mk 11 None None (Some 9) (Some "same") (Some "same") TEXT
      None None in
  let t2 :=
    Document.mk 12 None None (Some 9) (Some "same") (Some "same") TEXT
      None None in
  list_remove t1 [t1; t2] = Ok [t2] /\ list_remove t2 [t1; t2] = Ok [t1].
Proof. split; reflexivity. Qed.

Lemma sibling_pair_scored_in_both_directions_witness :
  exists evs rs,
    trace (compare_documents Scenario.env Scenario.batch 0.25 10 2 Scenario.w0).2
      = [] ++ evs /\
    db_results
      (compare_documents Scenario.env Scenario.batch 0.25 10 2 Scenario.w0).2
      = [] ++ rs /\
    CallTextComparison (Some "alpha") (Some "beta") ∈ evs /\
    CallTextComparison (Some "beta") (Some "alpha") ∈ evs /\
    filter (fun r => Result.document r = 1 /\ Result.match_id r = DocumentId 2)
      rs = [Result.mk 1 UPLOADED (DocumentId 2) (Some "b.txt") 0.3 [(2, 4)]] /\
    filter (fun r => Result.document r = 2 /\ Result.match_id r = DocumentId 1)
      rs = [Result.mk 2 UPLOADED (DocumentId 1) (Some "a.txt") 0.4 [(1, 3)]].
Proof.
  destruct (sibling_pair_scored_in_both_directions Scenario.env Scenario.batch
              0.25 10 2 Scenario.d1 Scenario.d2 Scenario.w0
              (compare_documents Scenario.env Scenario.batch 0.25 10 2
                 Scenario.w0).2)
    as (evs & rs & pool_a & pool_b & Hevs & Hrs & _ & _ & _ & _
        & Hab & Hba & Hres & _).
  - apply (bool_decide_unpack _). vm_compute. exact I.
  - left.
  - right. left.
  - intros H. discriminate H.
  - vm_compute. reflexivity.
  - exists evs, rs.
    destruct (Hres {| similarity := 0.3; intervals := [(2, 4)] |}
                   {| similarity := 0.4; intervals := [(1, 3)] |}
                   eq_refl eq_refl eq_refl eq_refl)
      as (pa & pb & Hpa & Hpb & Hra & Hrb).
    vm_compute in Hpa. vm_compute in Hpb.
    inversion Hpa; subst pa. inversion Hpb; subst pb.
    repeat split; assumption.
Defined.

(** ** When the comparison step returns *)

(** The comparison step returns exactly when every document of the batch is
    [comparable]: the corpus search answers for it and the roundings of
    lines 131-134, 155-158 and 166 are defined. *)
Lemma compare_documents_returns_iff (env : Env) (documents : list Document.t)
    (threshold : float) (similar_count : Z) (round_decimal_places : N)
    (w : world) :
  (exists w',
     compare_documents env documents threshold similar_count
       round_decimal_places w = (Ok tt, w')) <->
  (forall doc, doc ∈ documents ->
     comparable env documents threshold similar_count
       (10 ^ Z.of_N round_decimal_places) doc).
Proof.
  unfold compare_documents. split.
  - intros (w' & Hrun) doc Hdoc.
    destruct (for_each_Ok_elem (fun _ => True) (fun _ => True) _ _ doc _ _
                (fun d _ =>
                   bounded_compare_document _ _ env documents threshold
                     similar_count _ d (fun _ _ => I) (fun _ _ _ => I)
                     (fun _ _ _ _ _ _ _ _ => I))
                Hrun Hdoc)
      as (w1 & w2 & _ & Hbody & _).
    apply compare_document_Ok in Hbody
      as (similar & user & avg & total & Hsim & Hrem & Havg & Hround
          & (rs & _ & Hall) & _ & _).
    exists similar, user, avg, total.
    do 2 (split; [assumption |]). split; [| split; assumption].
    clear -Hall. induction Hall as [|pc r l k Hr _ IH]; constructor;
      [exists r; exact Hr | exact IH].
  - intros Hall. revert w.
    assert (Hsub : forall l, (forall d, d ∈ l -> d ∈ documents) ->
              forall w, exists w',
                for_each l
                  (compare_document env documents threshold similar_count
                     (10 ^ Z.of_N round_decimal_places)) w = (Ok tt, w')).
    { induction l as [|d l IH]; intros Hl w.
      - exists w. reflexivity.
      - destruct (compare_document_returns env documents threshold
                    similar_count _ d w (Hall d (Hl d (list_elem_of_here _ _))))
          as (w1 & Hd).
        destruct (IH (fun x Hx => Hl x (list_elem_of_further _ _ _ Hx)) w1)
          as (w' & Hrest).
        exists w'. cbn [for_each]. erewrite bind_Ok by exact Hd. exact Hrest. }
    apply Hsub. intros d Hd. exact Hd.
Qed.

(** * Further properties of the task *)

(** ** The ingestion loop, on every path *)

#[local] Ltac ingest_path :=
  eexists _, _; split; [reflexivity |];
  do 6 (split; [reflexivity |]);
  split; [first [reflexivity | intros H; discriminate H] |];
  split; [apply lookup_insert_eq |];
  unfold events_since; cbn [trace log put_document];
  rewrite <- ?app_assoc, drop_app_length; reflexivity.

(** Whatever the collaborators do, the loop body returns, keeps the id, the
    file, the name, the submission, the type and the total of the document,
    keeps the raw text of a TEXT document, and saves the document once, as
    it returns it. *)
Lemma ingest_facts (env : Env) (document : Document.t) (w : world) :
  exists document' w',
    ingest env document w = (Ok document', w') /\
    Document.id document' = Document.id document /\
    Document.file document' = Document.file document /\
    Document.name document' = Document.name document /\
    Document.submission document' = Document.submission document /\
    Document.type document' = Document.type document /\
    Document.total_percentage document' = Document.total_percentage document /\
    (Document.type document = TEXT ->
     Document.text_raw document' = Document.text_raw document) /\
    db_documents w' !! Document.id document = Some document' /\
    saved_documents (events_since w w') = [document'].
Proof.
  unfold ingest, process_file, detect_language, process_raw_text,
    downgrade, save_document, bind, attempt, call, lift, ret, obind.
  destruct document as [k file name sub txt raw ty lang total].
  destruct ty; cbn [Document.type Document.file Document.text_raw].
  - destruct file as [path|];
      [destruct (extract_text_from_file env path) as [t|e] |];
      cbn [Document.text_raw Document.with_text_raw Document.with_language
           Document.language];
      [| ingest_path | ingest_path].
    destruct (detect env (Some t)) as [l|e]; [| ingest_path].
    cbn [Document.text_raw Document.with_text_raw Document.with_language
         Document.language].
    destruct (preprocess_text env (Some t) (Some l) _) as [r|e];
      [| ingest_path].
    destruct (r !! 1%nat) as [t'|]; ingest_path.
  - destruct (detect env raw) as [l|e]; [| ingest_path].
    cbn [Document.text_raw Document.with_text_raw Document.with_language
         Document.language].
    destruct (preprocess_text env raw (Some l) _) as [r|e]; [| ingest_path].
    destruct (r !! 1%nat) as [t'|]; ingest_path.
Qed.

Lemma events_since_app (w w' : world) (evs : list event) :
  trace w' = trace w ++ evs -> events_since w w' = evs.
Proof. intros H. unfold events_since. rewrite H. apply drop_app_length. Qed.

Lemma events_since_within allowed good (w w' : world) :
  within allowed good w w' ->
  trace w' = trace w ++ events_since w w' /\
  Forall allowed (events_since w w').
Proof.
  intros ((evs & Hevs & Hall) & _).
  rewrite (events_since_app _ _ _ Hevs). split; assumption.
Qed.

Lemma events_since_trans (w w1 w2 : world) :
  trace w1 = trace w ++ events_since w w1 ->
  trace w2 = trace w1 ++ events_since w1 w2 ->
  events_since w w2 = events_since w w1 ++ events_since w1 w2.
Proof.
  intros H1 H2. apply events_since_app. rewrite H2, H1 at 1.
  rewrite <- app_assoc. reflexivity.
Qed.

(** *** Rows of the Document table that a computation leaves alone *)

Section KeepsDocument.

Context (k : Z).

Lemma keeps_ret {A} (a : A) : keeps_document k (ret a).
Proof. intros w. reflexivity. Qed.

Lemma keeps_lift {A} (r : outcome A) : keeps_document k (lift r).
Proof. intros w. reflexivity. Qed.

Lemma keeps_call {A} e (r : outcome A) : keeps_document k (call e r).
Proof. intros w. reflexivity. Qed.

Lemma keeps_bind {A B} (m : M A) (f : A -> M B) :
  keeps_document k m -> (forall a, keeps_document k (f a)) ->
  keeps_document k (bind m f).
Proof.
  intros Hm Hf w. unfold bind. specialize (Hm w).
  destruct (m w) as [[a|e] w1]; simpl in Hm.
  - rewrite Hf. exact Hm.
  - exact Hm.
Qed.

Lemma keeps_attempt {A} (m : M A) :
  keeps_document k m -> keeps_document k (attempt m).
Proof.
  intros Hm w. unfold attempt. specialize (Hm w).
  destruct (m w) as [r w1]. exact Hm.
Qed.

Lemma keeps_save_document d :
  Document.id d <> k -> keeps_document k (save_document d).
Proof. intros Hne w. simpl. apply lookup_insert_ne, Hne. Qed.

Lemma keeps_results_create r : keeps_document k (results_create r).
Proof. intros w. reflexivity. Qed.

Lemma keeps_for_fold {A S} (l : list A) (body : S -> A -> M S) :
  (forall s x, x ∈ l -> keeps_document k (body s x)) ->
  forall s, keeps_document k (for_fold l s body).
Proof.
  induction l as [|x l IH]; intros Hb s; cbn [for_fold].
  - apply keeps_ret.
  - apply keeps_bind.
    + apply Hb. left.
    + intros s'. apply IH. intros s'' y Hy. apply Hb. right. exact Hy.
Qed.

Lemma keeps_for_each {A} (l : list A) (body : A -> M unit) :
  (forall x, x ∈ l -> keeps_document k (body x)) ->
  keeps_document k (for_each l body).
Proof.
  induction l as [|x l IH]; intros Hb; cbn [for_each].
  - apply keeps_ret.
  - apply keeps_bind.
    + apply Hb. left.
    + intros _. apply IH. intros y Hy. apply Hb. right. exact Hy.
Qed.

Lemma keeps_for_map {A} (l : list A) (body : A -> M A) :
  (forall x, x ∈ l -> keeps_document k (body x)) ->
  keeps_document k (for_map l body).
Proof.
  induction l as [|x l IH]; intros Hb; cbn [for_map].
  - apply keeps_ret.
  - apply keeps_bind.
    + apply Hb. left.
    + intros x'. apply keeps_bind.
      * apply IH. intros y Hy. apply Hb. right. exact Hy.
      * intros l'. apply keeps_ret.
Qed.

Lemma keeps_ingest (env : Env) (document : Document.t) :
  Document.id document <> k -> keeps_document k (ingest env document).
Proof.
  intros Hne w.
  destruct (ingest_run env document w) as (d' & w' & Hrun & _ & _ & Hdb & _).
  rewrite Hrun. simpl. rewrite Hdb. apply lookup_insert_ne, Hne.
Qed.

Lemma keeps_compare_document (env : Env) documents threshold similar_count
    round_factor (doc : Document.t) :
  Document.id doc <> k ->
  keeps_document k
    (compare_document env documents threshold similar_count round_factor doc).
Proof.
  intros Hne. unfold compare_document. apply keeps_bind.
  - unfold score_document. apply keeps_bind; [apply keeps_call |].
    intros similar. apply keeps_bind; [apply keeps_lift |]. intros user.
    assert (Hpair : forall acc other,
              keeps_document k
                (compare_pair env threshold round_factor doc acc other)).
    { intros [sum cnt] other. unfold compare_pair. apply keeps_bind.
      - apply keeps_attempt, keeps_bind; [apply keeps_call |].
        intros c. apply keeps_bind; [apply keeps_lift |].
        intros s. apply keeps_ret.
      - intros [[c s]|e]; [| apply keeps_ret].
        destruct (Py.gt (similarity c) threshold); [| apply keeps_ret].
        apply keeps_bind; [apply keeps_lift |]. intros pct.
        apply keeps_bind; [apply keeps_results_create |].
        intros _. apply keeps_ret. }
    apply keeps_bind.
    + apply keeps_for_fold. intros s c _. apply Hpair.
    + intros acc. apply keeps_bind.
      * apply keeps_for_fold. intros s u _. apply Hpair.
      * intros [sum cnt]. destruct (0 <? cnt);
          [apply keeps_lift | apply keeps_ret].
  - intros avg. apply keeps_bind; [apply keeps_lift |].
    intros total. apply keeps_save_document. exact Hne.
Qed.

End KeepsDocument.

Lemma ingestion_loop_facts (env : Env) (l : list Document.t) :
  forall w, exists l' w',
    for_map l (ingest env) w = (Ok l', w') /\
    Forall2 ingestion_keeps l l' /\
    trace w' = trace w ++ events_since w w' /\
    saved_documents (events_since w w') = l' /\
    (NoDup (Document.id <$> l) ->
     forall d', d' ∈ l' -> db_documents w' !! Document.id d' = Some d').
Proof.
  induction l as [|d l IH]; intros w.
  - exists [], w. split; [reflexivity |]. split; [constructor |].
    unfold events_since. rewrite drop_all, app_nil_r.
    split; [reflexivity |]. split; [reflexivity |].
    intros _ d' Hd'. inversion Hd'.
  - destruct (ingest_facts env d w)
      as (d' & w1 & Hd & Hid & Hfile & Hname & Hsub & Hty & Htot & Hraw
          & Hdb & Hsaved).
    destruct (IH w1) as (l' & w2 & Hl & Hall & Htrace & Hsaved' & Htable).
    pose proof (bounded_ingest env d w) as Hb. rewrite Hd in Hb.
    apply events_since_within in Hb as [Htrace1 _]. simpl in Htrace1.
    exists (d' :: l'), w2. cbn [for_map].
    erewrite bind_Ok by exact Hd. erewrite bind_Ok by exact Hl.
    split; [reflexivity |].
    split; [constructor; [repeat split; assumption | exact Hall] |].
    pose proof (events_since_trans w w1 w2 Htrace1 Htrace) as Htrans.
    split; [rewrite Htrans, app_assoc, <- Htrace1; exact Htrace |].
    split; [rewrite Htrans, saved_documents_app, Hsaved, Hsaved'; reflexivity |].
    intros Hnd d'' Hd''. rewrite fmap_cons in Hnd.
    apply NoDup_cons in Hnd as [Hfresh Hnd].
    apply elem_of_cons in Hd'' as [-> | Hd''].
    + assert (Hkeep : keeps_document (Document.id d') (for_map l (ingest env))).
      { apply keeps_for_map. intros x Hx. apply keeps_ingest.
        intros Heq. apply Hfresh. rewrite <- Hid, <- Heq.
        apply list_elem_of_fmap_2, Hx. }
      specialize (Hkeep w1). rewrite Hl in Hkeep. simpl in Hkeep.
      rewrite Hkeep, Hid. exact Hdb.
    + apply Htable; assumption.
Qed.

(** X1: the ingestion loop returns on every batch, whatever the
    collaborators do, and hands on the documents one for one, in order, each
    with the id, file, name, submission, type and total it had; the raw text
    of a TEXT document is what it was. *)
Theorem ingestion_loop_keeps_identity (env : Env) (l : list Document.t)
    (w : world) :
  exists l' w',
    for_map l (ingest env) w = (Ok l', w') /\
    Forall2 ingestion_keeps l l'.
Proof.
  destruct (ingestion_loop_facts env l w) as (l' & w' & Hrun & Hall & _).
  exists l', w'. split; assumption.
Qed.

(** X2: the ingestion loop saves each document once, in batch order, as it
    hands it on; it adds no Result, sends no mail and leaves the Submission
    table alone; rows of documents outside the batch are as they were, and,
    with distinct primary keys, the Document table ends with the row of each
    document as handed on. *)
Theorem ingestion_loop_effects (env : Env) (l : list Document.t) (w : world) :
  exists l' w',
    for_map l (ingest env) w = (Ok l', w') /\
    saved_documents (events_since w w') = l' /\
    db_results w' = db_results w /\
    db_submissions w' = db_submissions w /\
    outbox w' = outbox w /\
    (forall k, k ∉ (Document.id <$> l) ->
       db_documents w' !! k = db_documents w !! k) /\
    (NoDup (Document.id <$> l) ->
     forall d', d' ∈ l' -> db_documents w' !! Document.id d' = Some d').
Proof.
  destruct (ingestion_loop_facts env l w)
    as (l' & w' & Hrun & _ & _ & Hsaved & Htable).
  exists l', w'. split; [exact Hrun |]. split; [exact Hsaved |].
  pose proof (bounded_for_map ingestion_event (fun _ => False) l (ingest env)
                (fun d _ => bounded_ingest env d) w) as Hb.
  rewrite Hrun in Hb. destruct Hb as (_ & (rs & Hrs & Hnone) & Hsub & Hout).
  apply Forall_False_nil in Hnone. subst rs. rewrite app_nil_r in Hrs.
  do 3 (split; [assumption |]). split; [| exact Htable].
  intros k Hk.
  assert (Hkeep : keeps_document k (for_map l (ingest env))).
  { apply keeps_for_map. intros x Hx. apply keeps_ingest.
    intros Heq. apply Hk. rewrite <- Heq. apply list_elem_of_fmap_2, Hx. }
  specialize (Hkeep w). rewrite Hrun in Hkeep. exact Hkeep.
Qed.

(** ** The task and the tables *)

Lemma rows_elem (w : world) (x : Document.t) :
  x ∈ rows w ->
  exists d, db_documents w !! Document.id x = Some d /\
            x = Document.with_id (Document.id x) d.
Proof.
  unfold rows. intros Hx. apply list_elem_of_fmap in Hx as ([k d] & -> & Hkd).
  rewrite merge_sort_Permutation in Hkd.
  apply elem_of_map_to_list in Hkd. exists d. split; [exact Hkd | reflexivity].
Qed.

(** The batch of a run: the rows of the submission's documents. *)
Lemma batch_elem (w : world) (submission_id : Z) (k : Z) :
  k ∈ (Document.id <$>
         filter (fun d => Document.submission d = Some submission_id) (rows w)) ->
  exists d, db_documents w !! k = Some d /\
            Document.submission d = Some submission_id.
Proof.
  intros Hk. apply list_elem_of_fmap in Hk as (x & -> & Hx).
  apply list_elem_of_filter in Hx as [Hsub Hx].
  destruct (rows_elem w x Hx) as (d & Hd & Heq).
  exists d. split; [exact Hd |]. rewrite Heq in Hsub. exact Hsub.
Qed.

(** The cut of [process_documents_run], with the keys of the batch. *)
Lemma process_documents_cut (env : Env) (submission_id : Z) (w : world)
    (s0 : Submission.t) :
  db_submissions w !! submission_id = Some s0 ->
  let s1 := Submission.mk submission_id PROCESSING (Submission.email s0) in
  let s2 := Submission.mk submission_id PROCESSED (Submission.email s0) in
  let w1 := log (SaveSubmission s1) (put_submission s1 w) in
  let batch :=
    filter (fun d => Document.submission d = Some submission_id) (rows w) in
  exists documents wi,
    for_map batch (ingest env) w1 = (Ok documents, wi) /\
    Document.id <$> documents = Document.id <$> batch /\
    process_documents env submission_id w =
      match compare_documents env documents (SIMILARITY_THRESHOLD env) 10 2 wi with
      | (Ok _, wc) =>
          notify env s2 (log (SaveSubmission s2) (put_submission s2 wc))
      | (Raised e, wc) => (Raised e, wc)
      end.
Proof.
  intros Hfound s1 s2 w1 batch.
  destruct (process_documents_run env submission_id w s0 Hfound)
    as (documents & wi & Hloop & _ & _ & Hrun).
  destruct (ingestion_loop_returns env batch w1) as (l' & w' & Hl & Hids & _).
  fold s1 w1 batch in Hloop. rewrite Hloop in Hl. inversion Hl; subst l' w'.
  exists documents, wi. split; [exact Hloop |]. split; [exact Hids | exact Hrun].
Qed.

Lemma notify_tables (env : Env) (s : Submission.t) (w : world) :
  db_submissions (notify env s w).2 = db_submissions w /\
  db_documents (notify env s w).2 = db_documents w /\
  db_results (notify env s w).2 = db_results w /\
  exists mails,
    trace (notify env s w).2 = trace w ++ (SendMail <$> mails) /\
    length mails =
      match Submission.email s with Some _ => 1%nat | None => 0%nat end.
Proof.
  unfold notify, send_mail. destruct (Submission.email s) as [address|].
  - match goal with
    | |- context [deliver env ?m] => destruct (deliver env m); simpl;
        repeat split; exists [m]; split; reflexivity
    end.
  - simpl. repeat split. exists []. rewrite app_nil_r. split; reflexivity.
Qed.

(** X3: on a submission that has no document, the task writes PROCESSING,
    then PROCESSED, then notifies: it calls no collaborator before the
    notification and leaves the Document and Result tables as they were. *)
Theorem submission_without_documents (env : Env) (submission_id : Z)
    (w : world) (s0 : Submission.t) :
  db_submissions w !! submission_id = Some s0 ->
  (forall d, d ∈ rows w -> Document.submission d <> Some submission_id) ->
  let s1 := Submission.mk submission_id PROCESSING (Submission.email s0) in
  let s2 := Submission.mk submission_id PROCESSED (Submission.email s0) in
  let run := process_documents env submission_id w in
  run =
    notify env s2
      (log (SaveSubmission s2)
         (put_submission s2 (log (SaveSubmission s1) (put_submission s1 w)))) /\
  db_documents run.2 = db_documents w /\
  db_results run.2 = db_results w /\
  exists mails,
    events_since w run.2 =
      SaveSubmission s1 :: SaveSubmission s2 :: (SendMail <$> mails).
Proof.
  intros Hfound Hnone s1 s2 run.
  destruct (process_documents_cut env submission_id w s0 Hfound)
    as (documents & wi & Hloop & _ & Hrun).
  rewrite filter_none in Hloop
    by (apply Forall_forall; intros d Hd; apply Hnone, Hd).
  simpl in Hloop. inversion Hloop; subst documents wi; clear Hloop.
  simpl in Hrun. fold s1 s2 in Hrun. fold run in Hrun.
  split; [exact Hrun |]. rewrite Hrun.
  match goal with
  | |- context [notify env s2 ?w2] =>
      destruct (notify_tables env s2 w2) as (_ & Hd & Hr & (mails & Ht & _))
  end.
  split; [rewrite Hd; reflexivity |]. split; [rewrite Hr; reflexivity |].
  exists mails. apply events_since_app. rewrite Ht. simpl.
  rewrite <- !app_assoc. reflexivity.
Qed.

Lemma submission_without_documents_witness :
  db_documents (process_documents Scenario.env 8 Scenario.w_done).2
    = db_documents Scenario.w_done /\
  db_results (process_documents Scenario.env 8 Scenario.w_done).2
    = db_results Scenario.w_done.
Proof.
  destruct (submission_without_documents Scenario.env 8 Scenario.w_done
              (Submission.mk 8 PROCESSED None) eq_refl)
    as (_ & Hd & Hr & _).
  - intros d Hd. vm_compute in Hd. inversion Hd.
  - split; assumption.
Defined.

(** X4: the corpus search is called outside any [try].  In a run on an
    existing submission, when [Elastic.find_similar] raises for a document
    of the (ingested) batch, the task ends with an exception, the
    Submission table holds status PROCESSING at the end, and no mail was
    sent. *)
Theorem corpus_search_failure_aborts (env : Env) (submission_id : Z)
    (w : world) (s0 : Submission.t) :
  db_submissions w !! submission_id = Some s0 ->
  let s1 := Submission.mk submission_id PROCESSING (Submission.email s0) in
  let w1 := log (SaveSubmission s1) (put_submission s1 w) in
  let run := process_documents env submission_id w in
  exists documents wi,
    for_map
      (filter (fun d => Document.submission d = Some submission_id) (rows w))
      (ingest env) w1 = (Ok documents, wi) /\
    forall doc e,
      doc ∈ documents ->
      find_similar env (Document.text doc) 10 = Raised e ->
      (exists e', run.1 = Raised e') /\
      db_submissions run.2 !! submission_id = Some s1 /\
      outbox run.2 = outbox w /\
      sent_mails (events_since w run.2) = [].
Proof.
  intros Hfound s1 w1 run.
  destruct (process_documents_run env submission_id w s0 Hfound)
    as (documents & wi & Hloop & _ & Hin & Hrun).
  fold s1 w1 in Hloop, Hin, Hrun. fold run in Hrun.
  exists documents, wi. split; [exact Hloop |].
  intros doc e Hdoc Hdown.
  pose proof (bounded_compare_documents env documents
                (SIMILARITY_THRESHOLD env) 10 2 wi) as Hb.
  destruct (compare_documents env documents (SIMILARITY_THRESHOLD env) 10 2 wi)
    as [[[]|e'] wc] eqn:Hc.
  - exfalso.
    assert (Hcomp : comparable env documents (SIMILARITY_THRESHOLD env) 10
                      (10 ^ Z.of_N 2) doc).
    { apply (proj1 (compare_documents_returns_iff env documents _ 10 2 wi));
        [exists wc; exact Hc | exact Hdoc]. }
    destruct Hcomp as (similar & _ & _ & _ & Hsim & _). congruence.
  - rewrite Hrun. simpl.
    destruct Hin as ((ievs & Hievs & Hiall) & _ & Hisub & Hiout).
    destruct Hb as ((cevs & Hcevs & Hcall) & _ & Hcsub & Hcout).
    simpl in Hcevs, Hcsub, Hcout.
    split; [exists e'; reflexivity |].
    split; [rewrite Hcsub, Hisub; apply lookup_insert_eq |].
    split; [rewrite Hcout, Hiout; reflexivity |].
    rewrite (events_since_app w wc ([SaveSubmission s1] ++ ievs ++ cevs)).
    + unfold sent_mails. rewrite !omap_app. simpl.
      assert (Hi : sent_mails ievs = []).
      { apply saved_statuses_work. eapply Forall_impl; [exact Hiall |].
        intros x Hx. left. exact Hx. }
      assert (Hcs : sent_mails cevs = []).
      { apply saved_statuses_work. eapply Forall_impl; [exact Hcall |].
        intros x Hx. right. exact Hx. }
      unfold sent_mails in Hi, Hcs. rewrite Hi, Hcs. reflexivity.
    + rewrite Hcevs, Hievs. simpl. rewrite <- !app_assoc. reflexivity.
Qed.

Lemma corpus_search_failure_aborts_witness :
  (exists e',
     (process_documents Faults.env_search_down 7 Scenario.w0).1 = Raised e') /\
  db_submissions (process_documents Faults.env_search_down 7 Scenario.w0).2
    !! 7 = Some (Submission.mk 7 PROCESSING (Some "a@b.c")) /\
  outbox (process_documents Faults.env_search_down 7 Scenario.w0).2 = [] /\
  sent_mails
    (events_since Scenario.w0
       (process_documents Faults.env_search_down 7 Scenario.w0).2) = [].
Proof.
  destruct (corpus_search_failure_aborts Faults.env_search_down 7 Scenario.w0
              (Submission.mk 7 PENDING (Some "a@b.c")) eq_refl)
    as (documents & wi & Hloop & Hrest).
  vm_compute in Hloop. inversion Hloop; subst documents wi; clear Hloop.
  eapply (Hrest _ (ExternalError "connection refused")).
  - left.
  - reflexivity.
Defined.

(** X5: every Result a run of the task adds belongs to a document of the
    submission it was started for, and the Results that were there before
    are still there, in place, however the run ends. *)
Theorem results_belong_to_submission (env : Env) (submission_id : Z)
    (w : world) :
  exists rs,
    db_results (process_documents env submission_id w).2 = db_results w ++ rs /\
    Forall
      (fun r => exists d,
         db_documents w !! Result.document r = Some d /\
         Document.submission d = Some submission_id) rs.
Proof.
  destruct (db_submissions w !! submission_id) as [s0|] eqn:Hfound.
  - destruct (process_documents_cut env submission_id w s0 Hfound)
      as (documents & wi & Hloop & Hids & Hrun).
    match type of Hloop with
    | for_map ?l _ ?w1 = _ =>
        pose proof (bounded_for_map ingestion_event (fun _ => False) l
                      (ingest env) (fun d _ => bounded_ingest env d) w1) as Hin
    end.
    rewrite Hloop in Hin. destruct Hin as (_ & (ri & Hri & Hnone) & _).
    apply Forall_False_nil in Hnone. subst ri.
    rewrite app_nil_r in Hri. simpl in Hri.
    set (good := fun r : Result.t =>
           exists d, db_documents w !! Result.document r = Some d /\
                     Document.submission d = Some submission_id).
    assert (Hb : bounded (fun _ => True) good
                   (compare_documents env documents
                      (SIMILARITY_THRESHOLD env) 10 2)).
    { assert (Hdoc : forall doc r, doc ∈ documents ->
                Result.document r = Document.id doc -> good r).
      { intros doc r Hdoc Hr. unfold good. rewrite Hr.
        apply (batch_elem w submission_id). rewrite <- Hids.
        apply list_elem_of_fmap_2, Hdoc. }
      unfold compare_documents. apply bounded_for_each. intros doc Hin.
      apply bounded_compare_document.
      - intros e _. exact I.
      - intros r Hr _. eapply Hdoc; eassumption.
      - intros user u r _ _ Hr _ _. eapply Hdoc; eassumption. }
    destruct (Hb wi) as (_ & (rs & Hrs & Hall) & _).
    exists rs. split; [| exact Hall]. rewrite Hrun.
    destruct (compare_documents env documents (SIMILARITY_THRESHOLD env) 10 2 wi)
      as [[[]|e] wc]; simpl in Hrs; [| simpl; congruence].
    match goal with
    | |- context [notify env ?s ?w2] =>
        destruct (notify_tables env s w2) as (_ & _ & Hr & _)
    end.
    rewrite Hr. simpl. congruence.
  - unfold process_documents, bind, attempt, objects_get. rewrite Hfound.
    exists []. rewrite app_nil_r. split; [reflexivity | constructor].
Qed.

(** X6: a run of the task never writes the row of a document that is not
    one of its submission's, and never adds a row to the Document table:
    every key whose row is absent or belongs elsewhere reads the same
    before and after, however the run ends. *)
Theorem other_documents_untouched (env : Env) (submission_id : Z)
    (w : world) (k : Z) :
  (forall d, db_documents w !! k = Some d ->
             Document.submission d <> Some submission_id) ->
  db_documents (process_documents env submission_id w).2 !! k =
  db_documents w !! k.
Proof.
  intros Hother.
  destruct (db_submissions w !! submission_id) as [s0|] eqn:Hfound.
  - destruct (process_documents_cut env submission_id w s0 Hfound)
      as (documents & wi & Hloop & Hids & Hrun).
    assert (Hk : k ∉ (Document.id <$> documents)).
    { rewrite Hids. intros Hin.
      destruct (batch_elem w submission_id k Hin) as (d & Hd & Hsub).
      exact (Hother d Hd Hsub). }
    assert (Hi : db_documents wi !! k = db_documents w !! k).
    { assert (Hkeep : keeps_document k
                (for_map
                   (filter (fun d => Document.submission d = Some submission_id)
                      (rows w)) (ingest env))).
      { apply keeps_for_map. intros x Hx. apply keeps_ingest.
        intros Heq. apply Hk. rewrite Hids, <- Heq.
        apply list_elem_of_fmap_2, Hx. }
      match type of Hloop with
      | for_map _ _ ?w1 = _ => specialize (Hkeep w1)
      end.
      rewrite Hloop in Hkeep. exact Hkeep. }
    assert (Hc : keeps_document k
              (compare_documents env documents (SIMILARITY_THRESHOLD env) 10 2)).
    { unfold compare_documents. apply keeps_for_each. intros doc Hdoc.
      apply keeps_compare_document. intros Heq. apply Hk. rewrite <- Heq.
      apply list_elem_of_fmap_2, Hdoc. }
    specialize (Hc wi). rewrite Hrun.
    destruct (compare_documents env documents (SIMILARITY_THRESHOLD env) 10 2 wi)
      as [[[]|e] wc]; simpl in Hc; [| simpl; congruence].
    match goal with
    | |- context [notify env ?s ?w2] =>
        destruct (notify_tables env s w2) as (_ & Hd & _)
    end.
    rewrite Hd. simpl. congruence.
  - unfold process_documents, bind, attempt, objects_get. rewrite Hfound.
    reflexivity.
Qed.

Lemma other_documents_untouched_witness :
  db_documents (process_documents Scenario.env 7 Shared.w_two).2 !! 9 =
  db_documents Shared.w_two !! 9.
Proof.
  apply (other_documents_untouched Scenario.env 7 Shared.w_two 9).
  intros d Hd. vm_compute in Hd. inversion Hd. intros H. discriminate H.
Defined.

(** X7: a run of the task on an existing submission writes that
    submission's row only, and only its status: the other rows of the
    Submission table are as they were; the row of the submission keeps its
    key and its email, with status PROCESSING or PROCESSED, and PROCESSED
    whenever the run returns normally. *)
Theorem only_the_status_changes (env : Env) (submission_id : Z) (w : world)
    (s0 : Submission.t) :
  db_submissions w !! submission_id = Some s0 ->
  let run := process_documents env submission_id w in
  (forall k, k <> submission_id ->
     db_submissions run.2 !! k = db_submissions w !! k) /\
  exists status,
    db_submissions run.2 !! submission_id =
      Some (Submission.mk submission_id status (Submission.email s0)) /\
    (status = PROCESSING \/ status = PROCESSED) /\
    (run.1 = Ok tt -> status = PROCESSED).
Proof.
  intros Hfound run.
  destruct (process_documents_run env submission_id w s0 Hfound)
    as (documents & wi & _ & _ & Hin & Hrun).
  fold run in Hrun.
  destruct Hin as (_ & _ & Hisub & _).
  pose proof (bounded_compare_documents env documents
                (SIMILARITY_THRESHOLD env) 10 2 wi) as Hb.
  destruct (compare_documents env documents (SIMILARITY_THRESHOLD env) 10 2 wi)
    as [[[]|e] wc]; destruct Hb as (_ & _ & Hcsub & _);
    simpl in Hcsub, Hisub; rewrite Hrun.
  - match goal with
    | |- context [notify env ?s ?w2] =>
        destruct (notify_tables env s w2) as (Hs & _)
    end.
    rewrite Hs. simpl. rewrite Hcsub, Hisub. split.
    + intros k Hk. rewrite !lookup_insert_ne by congruence. reflexivity.
    + exists PROCESSED. split; [apply lookup_insert_eq |].
      split; [right; reflexivity | reflexivity].
  - simpl. rewrite Hcsub, Hisub. split.
    + intros k Hk. rewrite lookup_insert_ne by congruence. reflexivity.
    + exists PROCESSING. split; [apply lookup_insert_eq |].
      split; [left; reflexivity | intros H; discriminate H].
Qed.

Lemma only_the_status_changes_witness :
  exists status,
    db_submissions (process_documents Scenario.env 7 Scenario.w0).2 !! 7 =
      Some (Submission.mk 7 status (Some "a@b.c")) /\
    (status = PROCESSING \/ status = PROCESSED) /\
    ((process_documents Scenario.env 7 Scenario.w0).1 = Ok tt ->
     status = PROCESSED).
Proof.
  apply (only_the_status_changes Scenario.env 7 Scenario.w0
           (Submission.mk 7 PENDING (Some "a@b.c")) eq_refl).
Defined.

(** ** Scores that are not numbers *)

Lemma Prim2SF_nan (x : float) : Prim2SF x = S754_nan -> x = nan.
Proof. intros H. rewrite <- (SF2Prim_Prim2SF x), H. reflexivity. Qed.

Lemma is_nan_nan (x : float) : PrimFloat.is_nan x = true -> x = nan.
Proof.
  intros H. apply Prim2SF_nan. unfold Prim2SF. rewrite H. reflexivity.
Qed.

Lemma add_nan_l (y : float) : (nan + y)%float = nan.
Proof.
  apply Prim2SF_nan. rewrite add_spec.
  change (Prim2SF nan) with S754_nan. reflexivity.
Qed.

Lemma add_nan_r (x : float) : (x + nan)%float = nan.
Proof.
  apply Prim2SF_nan. rewrite add_spec.
  change (Prim2SF nan) with S754_nan. destruct (Prim2SF x); reflexivity.
Qed.

Lemma mul_nan_l (y : float) : (nan * y)%float = nan.
Proof.
  apply Prim2SF_nan. rewrite mul_spec.
  change (Prim2SF nan) with S754_nan. reflexivity.
Qed.

Lemma div_nan_l (y : float) : (nan / y)%float = nan.
Proof.
  apply Prim2SF_nan. rewrite div_spec.
  change (Prim2SF nan) with S754_nan. reflexivity.
Qed.

Lemma fold_add_nan (l : list float) : fold_left PrimFloat.add l nan = nan.
Proof.
  induction l as [|x l IH]; [reflexivity |]. simpl. rewrite add_nan_l. exact IH.
Qed.

Lemma fold_add_In_nan (l : list float) (a : float) :
  In nan l -> fold_left PrimFloat.add l a = nan.
Proof.
  revert a. induction l as [|x l IH]; intros a Hin; [destruct Hin |].
  simpl. destruct Hin as [-> | Hin].
  - rewrite add_nan_r. apply fold_add_nan.
  - apply IH, Hin.
Qed.

Lemma round_up_nan (round_factor : Z) (total : float) :
  round_up round_factor (Float nan) <> Ok total.
Proof.
  unfold round_up, Py.mul, Py.to_float, obind.
  destruct (Py.float_of_int round_factor) as [y|e]; [| discriminate].
  rewrite mul_nan_l. discriminate.
Qed.

(** X8: a score that is NaN is added to the sum like any other, and the
    sum is then NaN: whenever the engine answers NaN for a pair of a
    document of the batch, the comparison step does not return; it ends
    with an exception. *)
Theorem nan_score_aborts (env : Env) (documents : list Document.t)
    (threshold : float) (similar_count : Z) (round_decimal_places : N)
    (doc : Document.t) (similar_documents : list candidate)
    (user_documents : list Document.t) (pc : pairing * comparison)
    (w : world) :
  doc ∈ documents ->
  find_similar env (Document.text doc) similar_count = Ok similar_documents ->
  list_remove doc documents = Ok user_documents ->
  In pc (scored env doc (pairings similar_documents user_documents)) ->
  PrimFloat.is_nan (similarity pc.2) = true ->
  exists e w',
    compare_documents env documents threshold similar_count
      round_decimal_places w = (Raised e, w').
Proof.
  intros Hdoc Hsim Hrem Hpc Hnan.
  destruct (compare_documents env documents threshold similar_count
              round_decimal_places w) as [[[]|e] w'] eqn:Hrun;
    [exfalso | exists e, w'; reflexivity].
  assert (Hcomp : comparable env documents threshold similar_count
                    (10 ^ Z.of_N round_decimal_places) doc).
  { apply (proj1 (compare_documents_returns_iff env documents threshold
                    similar_count round_decimal_places w));
      [exists w'; exact Hrun | exact Hdoc]. }
  destruct Hcomp as (similar & user & avg & total & Hsim' & Hrem' & _
                     & Havg & Hround).
  assert (similar = similar_documents) by congruence.
  assert (user = user_documents) by congruence. subst similar user.
  set (l := scored env doc (pairings similar_documents user_documents)) in *.
  assert (Hsum : similaritySum (score <$> l) = Float nan).
  { assert (Hin : In nan (score <$> l)).
    { apply list_elem_of_In, list_elem_of_fmap. exists pc.
      split; [symmetry; apply is_nan_nan, Hnan | apply list_elem_of_In, Hpc]. }
    unfold similaritySum. destruct (score <$> l) as [|x xs] eqn:Hl;
      [destruct Hin |].
    rewrite fold_add_In_nan by exact Hin. reflexivity. }
  assert (Hnanavg : avg = Float nan).
  { unfold average in Havg. rewrite Hsum in Havg.
    destruct (0 <? matchCount threshold l); [| congruence].
    unfold Py.truediv, Py.to_float, obind in Havg.
    destruct (Py.float_of_int (matchCount threshold l)) as [y|e];
      [| discriminate Havg].
    destruct (PrimFloat.is_zero y); [discriminate Havg |].
    rewrite div_nan_l in Havg. congruence. }
  subst avg. exact (round_up_nan _ _ Hround).
Qed.

Lemma nan_score_aborts_witness :
  exists e w',
    compare_documents Faults.env_nan [Scenario.d1; Scenario.d2] 0.5 10 2
      Scenario.w0 = (Raised e, w').
Proof.
  apply (nan_score_aborts Faults.env_nan [Scenario.d1; Scenario.d2] 0.5 10 2
           Scenario.d1
           [ {| elastic_id := "e1"%string; cand_name := "one"%string;
                text_preprocessed := Some "corpus one"%string |} ]
           [Scenario.d2]
           (uploaded_pairing Scenario.d2,
            {| similarity := nan; intervals := [] |})).
  - left.
  - reflexivity.
  - vm_compute. reflexivity.
  - vm_compute. right. left. reflexivity.
  - reflexivity.
Defined.

(** ** Scoring again *)

Lemma list_remove_forget (doc : Document.t) (l : list Document.t) :
  list_remove (forget_total doc) (forget_total <$> l) =
  match list_remove doc l with
  | Ok r => Ok (forget_total <$> r)
  | Raised e => Raised e
  end.
Proof.
  induction l as [|y l IH]; [reflexivity |].
  rewrite fmap_cons. cbn [list_remove].
  change (Document.id (forget_total y)) with (Document.id y).
  change (Document.id (forget_total doc)) with (Document.id doc).
  destruct (Document.id y =? Document.id doc); [reflexivity |].
  rewrite IH. destruct (list_remove doc l); reflexivity.
Qed.

Lemma for_each_fmap {A B} (f : A -> B) (l : list A) (body : B -> M unit) w :
  for_each (f <$> l) body w = for_each l (fun x => body (f x)) w.
Proof.
  revert w. induction l as [|x l IH]; intros w; [reflexivity |].
  rewrite fmap_cons. cbn [for_each]. unfold bind.
  destruct (body (f x) w) as [[[]|e] w1]; [apply IH | reflexivity].
Qed.

Lemma for_each_ext {A} (l : list A) (f g : A -> M unit) :
  (forall x w, f x w = g x w) ->
  forall w, for_each l f w = for_each l g w.
Proof.
  intros Hfg. induction l as [|x l IH]; intros w; [reflexivity |].
  cbn [for_each]. unfold bind. rewrite Hfg.
  destruct (g x w) as [[[]|e] w1]; [apply IH | reflexivity].
Qed.

Section Forget.

Context (env : Env) (threshold : float) (similar_count : Z) (round_factor : Z).

Lemma score_document_forget (documents : list Document.t) (doc : Document.t)
    (w : world) :
  score_document env (forget_total <$> documents) threshold similar_count
    round_factor (forget_total doc) w =
  score_document env documents threshold similar_count round_factor doc w.
Proof.
  unfold score_document.
  change (Document.text (forget_total doc)) with (Document.text doc).
  change (compare_corpus env threshold round_factor (forget_total doc))
    with (compare_corpus env threshold round_factor doc).
  unfold bind.
  destruct (call (CallFindSimilar (Document.text doc) similar_count)
              (find_similar env (Document.text doc) similar_count) w)
    as [[similar|e] w1]; [| reflexivity].
  unfold lift. rewrite list_remove_forget.
  destruct (list_remove doc documents) as [user|e]; [| reflexivity].
  destruct (for_fold similar (Int 0, 0)
              (compare_corpus env threshold round_factor doc) w1)
    as [[acc|e] w2]; [| reflexivity].
  rewrite for_fold_fmap.
  change (fun (s : number * Z) (x : Document.t) =>
            compare_uploaded env threshold round_factor (forget_total doc) s
              (forget_total x))
    with (compare_uploaded env threshold round_factor doc).
  reflexivity.
Qed.

Lemma compare_document_forget (documents : list Document.t)
    (doc : Document.t) (w : world) :
  compare_document env (forget_total <$> documents) threshold similar_count
    round_factor (forget_total doc) w =
  compare_document env documents threshold similar_count round_factor doc w.
Proof.
  unfold compare_document, bind. rewrite score_document_forget.
  reflexivity.
Qed.

End Forget.

Lemma compare_documents_forget (env : Env) (documents : list Document.t)
    (threshold : float) (similar_count : Z) (round_decimal_places : N)
    (w : world) :
  compare_documents env (forget_total <$> documents) threshold similar_count
    round_decimal_places w =
  compare_documents env documents threshold similar_count
    round_decimal_places w.
Proof.
  unfold compare_documents. rewrite for_each_fmap.
  apply for_each_ext. intros doc w1. apply compare_document_forget.
Qed.

(** X9: the comparison step never reads the total a document carries: on
    two batches that differ in the [total_percentage] of their documents
    only, it ends the same way, with the same tables and the same
    history. *)
Theorem total_percentage_is_not_read (env : Env)
    (documents documents' : list Document.t) (threshold : float)
    (similar_count : Z) (round_decimal_places : N) (w : world) :
  forget_total <$> documents' = forget_total <$> documents ->
  compare_documents env documents' threshold similar_count
    round_decimal_places w =
  compare_documents env documents threshold similar_count
    round_decimal_places w.
Proof.
  intros Hsame.
  rewrite <- (compare_documents_forget env documents').
  rewrite <- (compare_documents_forget env documents).
  rewrite Hsame. reflexivity.
Qed.

Lemma total_percentage_is_not_read_witness :
  compare_documents Scenario.env
    [Document.with_total_percentage (Some 0.75%float) Scenario.d1; Scenario.d2]
    0.5 10 2 Scenario.w0 =
  compare_documents Scenario.env [Scenario.d1; Scenario.d2] 0.5 10 2
    Scenario.w0.
Proof.
  apply (total_percentage_is_not_read Scenario.env
           [Scenario.d1; Scenario.d2]
           [Document.with_total_percentage (Some 0.75%float) Scenario.d1;
            Scenario.d2] 0.5 10 2 Scenario.w0).
  reflexivity.
Defined.

Lemma foldl_insert_present (ds : list Document.t) :
  forall (m m' : gmap Z Document.t) (k : Z),
  k ∈ (Document.id <$> ds) ->
  foldl (fun m d => <[Document.id d := d]> m) m ds !! k =
  foldl (fun m d => <[Document.id d := d]> m) m' ds !! k.
Proof.
  induction ds as [|x ds IH]; intros m m' k Hk; [inversion Hk |].
  simpl. destruct (decide (k ∈ (Document.id <$> ds))) as [Hin | Hout].
  - apply IH, Hin.
  - rewrite fmap_cons in Hk. apply elem_of_cons in Hk as [-> | Hk];
      [| contradiction].
    rewrite !foldl_insert_absent by exact Hout.
    rewrite !lookup_insert_eq. reflexivity.
Qed.

Lemma foldl_insert_twice (ds : list Document.t) (m : gmap Z Document.t) :
  foldl (fun m d => <[Document.id d := d]> m)
    (foldl (fun m d => <[Document.id d := d]> m) m ds) ds =
  foldl (fun m d => <[Document.id d := d]> m) m ds.
Proof.
  apply map_eq. intros k.
  destruct (decide (k ∈ (Document.id <$> ds))) as [Hin | Hout].
  - apply foldl_insert_present, Hin.
  - apply foldl_insert_absent, Hout.
Qed.

Lemma results_for_unique (env : Env) (documents : list Document.t)
    (threshold : float) (similar_count : Z) (round_factor : Z)
    (doc : Document.t) (rs rs' : list Result.t) :
  results_for env documents threshold similar_count round_factor doc rs ->
  results_for env documents threshold similar_count round_factor doc rs' ->
  rs = rs'.
Proof.
  intros (similar & user & Hsim & Hrem & Hall)
         (similar' & user' & Hsim' & Hrem' & Hall').
  assert (similar' = similar) by congruence.
  assert (user' = user) by congruence. subst similar' user'.
  eapply Forall2_unique; [exact Hall | exact Hall' |].
  intros pc r r' Hr Hr'. simpl in Hr, Hr'. congruence.
Qed.

Lemma stored_for_unique (env : Env) (documents : list Document.t)
    (threshold : float) (similar_count : Z) (round_factor : Z)
    (doc d d' : Document.t) :
  stored_for env documents threshold similar_count round_factor doc d ->
  stored_for env documents threshold similar_count round_factor doc d' ->
  d = d'.
Proof.
  intros (avg & total & Havg & Htotal & ->) (avg' & total' & Havg' & Htotal' & ->).
  assert (avg' = avg) by congruence. subst avg'.
  assert (total' = total) by congruence. subst total'. reflexivity.
Qed.

(** X10: the comparison step does not look at the Results that exist.
    When it has returned and is run again, on the same documents (with the
    totals they now carry, or any other), it returns again, adds the same
    Results a second time, behind the first ones, and leaves the Document
    table as the first run left it. *)
Theorem rescoring_duplicates_results (env : Env)
    (documents documents' : list Document.t) (threshold : float)
    (similar_count : Z) (round_decimal_places : N) (w w1 : world) :
  compare_documents env documents threshold similar_count
    round_decimal_places w = (Ok tt, w1) ->
  forget_total <$> documents' = forget_total <$> documents ->
  exists w2 rs,
    compare_documents env documents' threshold similar_count
      round_decimal_places w1 = (Ok tt, w2) /\
    db_results w1 = db_results w ++ rs /\
    db_results w2 = db_results w1 ++ rs /\
    db_documents w2 = db_documents w1.
Proof.
  intros Hfirst Hsame.
  rewrite <- (compare_documents_forget env documents'), Hsame,
          (compare_documents_forget env documents).
  assert (Hagain : exists w2,
            compare_documents env documents threshold similar_count
              round_decimal_places w1 = (Ok tt, w2)).
  { apply compare_documents_returns_iff.
    apply (proj1 (compare_documents_returns_iff env documents threshold
                    similar_count round_decimal_places w)).
    exists w1. exact Hfirst. }
  destruct Hagain as (w2 & Hsecond). exists w2.
  unfold compare_documents in Hfirst, Hsecond.
  destruct (batch_results _ _ _ _ _ _ _ _ Hfirst) as (rss & Hrss & Hall).
  destruct (batch_results _ _ _ _ _ _ _ _ Hsecond) as (rss' & Hrss' & Hall').
  assert (rss' = rss).
  { eapply Forall2_unique; [exact Hall' | exact Hall |].
    intros doc rs rs'. apply results_for_unique. }
  subst rss'.
  destruct (batch_loop_Ok _ _ _ _ _ _ _ _ Hfirst) as (evs & _ & Hst & Hdb).
  destruct (batch_loop_Ok _ _ _ _ _ _ _ _ Hsecond) as (evs' & _ & Hst' & Hdb').
  assert (Hsaved : saved_documents evs' = saved_documents evs).
  { eapply Forall2_unique; [exact Hst' | exact Hst |].
    intros doc d d'. apply stored_for_unique. }
  exists (concat rss). unfold compare_documents.
  split; [exact Hsecond |]. split; [exact Hrss |]. split; [exact Hrss' |].
  rewrite Hdb', Hsaved, Hdb. apply foldl_insert_twice.
Qed.

Lemma rescoring_duplicates_results_witness :
  let w1 :=
    (compare_documents Scenario.env Scenario.batch 0.5 10 2 Scenario.w0).2 in
  exists w2 rs,
    compare_documents Scenario.env Scenario.batch 0.5 10 2 w1 = (Ok tt, w2) /\
    db_results w1 = db_results Scenario.w0 ++ rs /\
    db_results w2 = db_results w1 ++ rs /\
    db_documents w2 = db_documents w1.
Proof.
  apply (rescoring_duplicates_results Scenario.env Scenario.batch
           Scenario.batch 0.5 10 2 Scenario.w0).
  - vm_compute. reflexivity.
  - reflexivity.
Defined.

(** ** The Results of one document *)

Lemma list_remove_length (x : Document.t) (l user : list Document.t) :
  list_remove x l = Ok user -> length l = S (length user).
Proof.
  revert user. induction l as [|y l IH]; intros user Hrem; [discriminate Hrem |].
  simpl in Hrem. destruct (Document.id y =? Document.id x).
  - inversion Hrem; subst. reflexivity.
  - destruct (list_remove x l) as [r|e]; [| discriminate Hrem].
    simpl in Hrem. inversion Hrem; subst. simpl. f_equal. apply IH. reflexivity.
Qed.

Lemma scored_kind (env : Env) (doc : Document.t) (kind : MatchType)
    (others : list pairing) :
  Forall (fun o => p_type o = kind) others ->
  Forall (fun pc => p_type pc.1 = kind) (scored env doc others) /\
  (length (scored env doc others) <= length others)%nat.
Proof.
  induction 1 as [|o others Ho _ [IHk IHl]]; [split; [constructor | reflexivity] |].
  unfold scored in *. cbn [omap list_omap].
  destruct (text_comparison env (Document.text doc) (p_text o)) as [c|e].
  - split; [constructor; [exact Ho | exact IHk] | simpl; lia].
  - split; [exact IHk | simpl; lia].
Qed.

Lemma results_of_kind (round_factor : Z) (doc : Document.t) (kind : MatchType)
    (threshold : float) (l : list (pairing * comparison)) (rs : list Result.t) :
  Forall (fun pc => p_type pc.1 = kind) l ->
  Forall2 (fun pc r => result_of round_factor doc pc = Ok r)
    (List.filter (exceeds threshold) l) rs ->
  Forall (fun r => Result.match_type r = kind) rs /\
  (length rs <= length l)%nat.
Proof.
  intros Hkind. revert rs.
  induction Hkind as [|pc l Hpc _ IH]; intros rs Hall; simpl in Hall.
  - inversion Hall; subst. split; [constructor | reflexivity].
  - destruct (exceeds threshold pc).
    + apply Forall2_cons_inv_l in Hall as (r & rs' & Hr & Hrest & ->).
      destruct (IH rs' Hrest) as [Hk Hl].
      split; [| simpl; lia]. constructor; [| exact Hk].
      unfold result_of, obind in Hr.
      destruct (round_up round_factor (Float (score pc))); [| discriminate Hr].
      injection Hr as <-. exact Hpc.
    + destruct (IH rs Hall) as [Hk Hl]. split; [exact Hk | simpl; lia].
Qed.

(** X11: in a returned comparison step on a batch with distinct primary
    keys, the Results added for a document are its CORPUS Results followed
    by its UPLOADED Results; there are at most as many CORPUS Results as the
    corpus search returned candidates, and fewer UPLOADED Results than the
    batch has documents. *)
Theorem results_order_and_bounds (env : Env) (documents : list Document.t)
    (threshold : float) (similar_count : Z) (round_decimal_places : N)
    (doc : Document.t) (w w' : world) :
  NoDup (Document.id <$> documents) ->
  doc ∈ documents ->
  compare_documents env documents threshold similar_count
    round_decimal_places w = (Ok tt, w') ->
  exists rs similar_documents from_corpus from_batch,
    db_results w' = db_results w ++ rs /\
    find_similar env (Document.text doc) similar_count = Ok similar_documents /\
    filter (fun r => Result.document r = Document.id doc) rs =
      from_corpus ++ from_batch /\
    Forall (fun r => Result.match_type r = CORPUS) from_corpus /\
    Forall (fun r => Result.match_type r = UPLOADED) from_batch /\
    (length from_corpus <= length similar_documents)%nat /\
    (length from_batch < length documents)%nat.
Proof.
  intros Hnd Hdoc Hrun.
  destruct (batch_results_of env documents threshold similar_count
              round_decimal_places doc w w' Hnd Hdoc Hrun)
    as (rs & Hrs & similar & user & Hsim & Hrem & Hall).
  unfold pairings in Hall. rewrite scored_app, List.filter_app in Hall.
  apply Forall2_app_inv_l in Hall as (rc & ru & Hc & Hu & Heq).
  destruct (scored_kind env doc CORPUS (corpus_pairing <$> similar))
    as [Hck Hcl].
  { apply Forall_fmap, Forall_forall. intros c _. reflexivity. }
  destruct (scored_kind env doc UPLOADED (uploaded_pairing <$> user))
    as [Huk Hul].
  { apply Forall_fmap, Forall_forall. intros u _. reflexivity. }
  destruct (results_of_kind _ _ _ _ _ _ Hck Hc) as [Hrc Hrcl].
  destruct (results_of_kind _ _ _ _ _ _ Huk Hu) as [Hru Hrul].
  rewrite length_fmap in Hcl. rewrite length_fmap in Hul.
  apply list_remove_length in Hrem.
  exists rs, similar, rc, ru.
  do 5 (split; [assumption |]). split; lia.
Qed.

Lemma results_order_and_bounds_witness :
  exists rs similar_documents from_corpus from_batch,
    db_results
      (compare_documents Scenario.env Scenario.batch 0.25 10 2 Scenario.w0).2
      = db_results Scenario.w0 ++ rs /\
    find_similar Scenario.env (Document.text Scenario.d1) 10
      = Ok similar_documents /\
    filter (fun r => Result.document r = Document.id Scenario.d1) rs =
      from_corpus ++ from_batch /\
    Forall (fun r => Result.match_type r = CORPUS) from_corpus /\
    Forall (fun r => Result.match_type r = UPLOADED) from_batch /\
    (length from_corpus <= length similar_documents)%nat /\
    (length from_batch < length Scenario.batch)%nat.
Proof.
  apply (results_order_and_bounds Scenario.env Scenario.batch 0.25 10 2
           Scenario.d1 Scenario.w0
           (compare_documents Scenario.env Scenario.batch 0.25 10 2
              Scenario.w0).2).
  - apply (bool_decide_unpack _). vm_compute. exact I.
  - left.
  - vm_compute. reflexivity.
Defined.

(** ** Documents are never lost or relabelled *)

Section Preserves.

Context (m0 : gmap Z Document.t).

Lemma preserves_keeps {A} (m : M A) :
  (forall w, db_documents (m w).2 = db_documents w) -> preserves m0 m.
Proof. intros Hm w Hw k d Hk. rewrite Hm. apply Hw, Hk. Qed.

Lemma preserves_ret {A} (a : A) : preserves m0 (ret a).
Proof. apply preserves_keeps. reflexivity. Qed.

Lemma preserves_lift {A} (r : outcome A) : preserves m0 (lift r).
Proof. apply preserves_keeps. reflexivity. Qed.

Lemma preserves_call {A} e (r : outcome A) : preserves m0 (call e r).
Proof. apply preserves_keeps. reflexivity. Qed.

Lemma preserves_results_create r : preserves m0 (results_create r).
Proof. apply preserves_keeps. reflexivity. Qed.

Lemma preserves_bind {A B} (m : M A) (f : A -> M B) :
  preserves m0 m -> (forall a, preserves m0 (f a)) -> preserves m0 (bind m f).
Proof.
  intros Hm Hf w Hw. unfold bind. specialize (Hm w Hw).
  destruct (m w) as [[a|e] w1]; simpl in Hm.
  - apply Hf, Hm.
  - exact Hm.
Qed.

Lemma preserves_attempt {A} (m : M A) :
  preserves m0 m -> preserves m0 (attempt m).
Proof.
  intros Hm w Hw. unfold attempt. specialize (Hm w Hw).
  destruct (m w) as [r w1]. exact Hm.
Qed.

Lemma preserves_save_document d :
  known m0 d -> preserves m0 (save_document d).
Proof.
  intros Hd w Hw k d0 Hk. simpl.
  destruct (decide (Document.id d = k)) as [<- | Hne].
  - exists d. split; [apply lookup_insert_eq | apply Hd, Hk].
  - rewrite lookup_insert_ne by exact Hne. apply Hw, Hk.
Qed.

Lemma preserves_for_fold {A S} (l : list A) (body : S -> A -> M S) :
  (forall s x, x ∈ l -> preserves m0 (body s x)) ->
  forall s, preserves m0 (for_fold l s body).
Proof.
  induction l as [|x l IH]; intros Hb s; cbn [for_fold].
  - apply preserves_ret.
  - apply preserves_bind.
    + apply Hb. left.
    + intros s'. apply IH. intros s'' y Hy. apply Hb. right. exact Hy.
Qed.

Lemma preserves_for_each {A} (l : list A) (body : A -> M unit) :
  (forall x, x ∈ l -> preserves m0 (body x)) ->
  preserves m0 (for_each l body).
Proof.
  induction l as [|x l IH]; intros Hb; cbn [for_each].
  - apply preserves_ret.
  - apply preserves_bind.
    + apply Hb. left.
    + intros _. apply IH. intros y Hy. apply Hb. right. exact Hy.
Qed.

Lemma preserves_for_map {A} (l : list A) (body : A -> M A) :
  (forall x, x ∈ l -> preserves m0 (body x)) ->
  preserves m0 (for_map l body).
Proof.
  induction l as [|x l IH]; intros Hb; cbn [for_map].
  - apply preserves_ret.
  - apply preserves_bind.
    + apply Hb. left.
    + intros x'. apply preserves_bind.
      * apply IH. intros y Hy. apply Hb. right. exact Hy.
      * intros l'. apply preserves_ret.
Qed.

Lemma preserves_ingest (env : Env) (document : Document.t) :
  known m0 document -> preserves m0 (ingest env document).
Proof.
  intros Hd w Hw k d0 Hk.
  destruct (ingest_run env document w) as (d' & w' & Hrun & _ & _ & Hdb & _).
  destruct (ingest_facts env document w)
    as (d'' & w'' & Hrun' & Hid & Hfile & Hname & Hsub & Hty & _).
  rewrite Hrun in Hrun'. inversion Hrun'; subst d'' w''; clear Hrun'.
  rewrite Hrun. simpl. rewrite Hdb.
  destruct (decide (Document.id document = k)) as [<- | Hne].
  - exists d'. split; [apply lookup_insert_eq |].
    destruct (Hd d0 Hk) as (H1 & H2 & H3 & H4).
    unfold same_document. rewrite Hfile, Hname, Hsub, Hty.
    repeat split; assumption.
  - rewrite lookup_insert_ne by exact Hne. apply Hw, Hk.
Qed.

Lemma preserves_compare_document (env : Env) documents threshold
    similar_count round_factor (doc : Document.t) :
  known m0 doc ->
  preserves m0
    (compare_document env documents threshold similar_count round_factor doc).
Proof.
  intros Hdoc. unfold compare_document. apply preserves_bind.
  - unfold score_document. apply preserves_bind; [apply preserves_call |].
    intros similar. apply preserves_bind; [apply preserves_lift |]. intros user.
    assert (Hpair : forall acc other,
              preserves m0
                (compare_pair env threshold round_factor doc acc other)).
    { intros [sum cnt] other. unfold compare_pair. apply preserves_bind.
      - apply preserves_attempt, preserves_bind; [apply preserves_call |].
        intros c. apply preserves_bind; [apply preserves_lift |].
        intros s. apply preserves_ret.
      - intros [[c s]|e]; [| apply preserves_ret].
        destruct (Py.gt (similarity c) threshold); [| apply preserves_ret].
        apply preserves_bind; [apply preserves_lift |]. intros pct.
        apply preserves_bind; [apply preserves_results_create |].
        intros _. apply preserves_ret. }
    apply preserves_bind.
    + apply preserves_for_fold. intros s c _. apply Hpair.
    + intros acc. apply preserves_bind.
      * apply preserves_for_fold. intros s u _. apply Hpair.
      * intros [sum cnt]. destruct (0 <? cnt);
          [apply preserves_lift | apply preserves_ret].
  - intros avg. apply preserves_bind; [apply preserves_lift |].
    intros total. apply preserves_save_document.
    intros d0 Hd0. exact (Hdoc d0 Hd0).
Qed.

End Preserves.

(** X18: a run of the task never deletes a document and never relabels
    one: every row the Document table held before the run is there after
    it, under the same key, with the same file, name, submission and type,
    however the run ends. *)
Theorem documents_keep_identity (env : Env) (submission_id : Z) (w : world)
    (k : Z) (d : Document.t) :
  db_documents w !! k = Some d ->
  exists d',
    db_documents (process_documents env submission_id w).2 !! k = Some d' /\
    same_document d d'.
Proof.
  revert k d. change (agrees (db_documents w)
                        (process_documents env submission_id w).2).
  set (m0 := db_documents w).
  assert (Hstart : agrees m0 w).
  { intros k d Hk. exists d. split; [exact Hk | repeat split]. }
  destruct (db_submissions w !! submission_id) as [s0|] eqn:Hfound.
  - destruct (process_documents_cut env submission_id w s0 Hfound)
      as (documents & wi & Hloop & _ & Hrun).
    set (batch := filter (fun d => Document.submission d = Some submission_id)
                    (rows w)) in *.
    assert (Hbatch : forall x, x ∈ batch -> known m0 x).
    { intros x Hx. apply list_elem_of_filter in Hx as [_ Hx].
      destruct (rows_elem w x Hx) as (dx & Hdx & Heq).
      intros d0 Hd0. unfold m0 in Hd0. rewrite Hdx in Hd0.
      inversion Hd0; subst d0. rewrite Heq. repeat split. }
    assert (Hi : agrees m0 wi).
    { pose proof (preserves_for_map m0 batch (ingest env)
                    (fun x Hx => preserves_ingest m0 env x (Hbatch x Hx))) as Hp.
      match type of Hloop with
      | for_map _ _ ?w1 = _ => specialize (Hp w1 Hstart)
      end.
      rewrite Hloop in Hp. exact Hp. }
    assert (Hdocs : forall doc, doc ∈ documents -> known m0 doc).
    { match type of Hloop with
      | for_map _ _ ?w1 = _ =>
          destruct (ingestion_loop_facts env batch w1)
            as (l' & w' & Hl & Hall & _)
      end.
      rewrite Hloop in Hl. inversion Hl; subst l' w'; clear Hl.
      intros doc Hdoc. apply list_elem_of_lookup in Hdoc as [i Hi'].
      destruct (Forall2_lookup_r _ _ _ _ _ Hall Hi')
        as (x & Hx & Hid & Hfile & Hname & Hsub & Hty & _).
      apply list_elem_of_lookup_2 in Hx.
      intros d0 Hd0. rewrite Hid in Hd0.
      destruct (Hbatch x Hx d0 Hd0) as (H1 & H2 & H3 & H4).
      unfold same_document. rewrite Hfile, Hname, Hsub, Hty.
      repeat split; assumption. }
    assert (Hc : preserves m0
              (compare_documents env documents (SIMILARITY_THRESHOLD env) 10 2)).
    { unfold compare_documents. apply preserves_for_each. intros doc Hdoc.
      apply preserves_compare_document, Hdocs, Hdoc. }
    specialize (Hc wi Hi). rewrite Hrun.
    destruct (compare_documents env documents (SIMILARITY_THRESHOLD env) 10 2 wi)
      as [[[]|e] wc]; simpl in Hc; [| exact Hc].
    match goal with
    | |- context [notify env ?s ?w2] =>
        destruct (notify_tables env s w2) as (_ & Hd & _)
    end.
    intros k d Hk. rewrite Hd. simpl. apply Hc, Hk.
  - unfold process_documents, bind, attempt, objects_get. rewrite Hfound.
    exact Hstart.
Qed.

Lemma documents_keep_identity_witness :
  exists d',
    db_documents (process_documents Scenario.env 7 Scenario.w0).2 !! 3
      = Some d' /\
    same_document Scenario.r3 d'.
Proof.
  apply (documents_keep_identity Scenario.env 7 Scenario.w0 3 Scenario.r3).
  reflexivity.
Defined.

(** ** Raising the threshold *)

Lemma SFcompare_le_lt_trans (a b c : spec_float) :
  SFcompare a b = Some Lt \/ SFcompare a b = Some Eq ->
  SFcompare b c = Some Lt ->
  SFcompare a c = Some Lt.
Proof.
  destruct a as [sa|sa| |sa ma ea], b as [sb|sb| |sb mb eb],
           c as [sc|sc| |sc mc ec];
    try destruct sa; try destruct sb; try destruct sc; simpl;
    intros [Hab | Hab] Hbc; try discriminate Hab; try discriminate Hbc;
    try reflexivity;
    injection Hab as Hab; injection Hbc as Hbc; f_equal;
    change (Pos.compare_cont Eq) with Pos.compare in *;
    destruct (Z.compare_spec ea eb), (Z.compare_spec eb ec),
             (Z.compare_spec ea ec);
    try discriminate Hab; try discriminate Hbc; try reflexivity; try lia;
    subst;
    destruct (Pos.compare_spec ma mb), (Pos.compare_spec mb mc),
             (Pos.compare_spec ma mc);
    try discriminate Hab; try discriminate Hbc; try reflexivity; lia.
Qed.

Lemma exceeds_mono (low high : float) (pc : pairing * comparison) :
  PrimFloat.leb low high = true ->
  exceeds high pc = true -> exceeds low pc = true.
Proof.
  unfold exceeds, Py.gt. rewrite leb_spec, !ltb_spec. unfold SFleb, SFltb.
  intros Hle Hlt.
  rewrite (SFcompare_le_lt_trans (Prim2SF low) (Prim2SF high)
             (Prim2SF (score pc))); [reflexivity | |].
  - destruct (SFcompare (Prim2SF low) (Prim2SF high)) as [[]|];
      try discriminate Hle; [right | left]; reflexivity.
  - destruct (SFcompare (Prim2SF high) (Prim2SF (score pc))) as [[]|];
      try discriminate Hlt; reflexivity.
Qed.

Lemma results_sublist (round_factor : Z) (doc : Document.t)
    (low high : float) (l : list (pairing * comparison)) :
  PrimFloat.leb low high = true ->
  forall rs rs',
  Forall2 (fun pc r => result_of round_factor doc pc = Ok r)
    (List.filter (exceeds low) l) rs ->
  Forall2 (fun pc r => result_of round_factor doc pc = Ok r)
    (List.filter (exceeds high) l) rs' ->
  sublist rs' rs.
Proof.
  intros Hle. induction l as [|pc l IH]; intros rs rs' Hlow Hhigh; simpl in *.
  - inversion Hhigh; subst. apply sublist_nil_l.
  - destruct (exceeds high pc) eqn:Hh.
    + rewrite (exceeds_mono low high pc Hle Hh) in Hlow.
      apply Forall2_cons_inv_l in Hlow as (r & rs1 & Hr & Hlow & ->).
      apply Forall2_cons_inv_l in Hhigh as (r' & rs1' & Hr' & Hhigh & ->).
      assert (r' = r) by congruence. subst r'.
      apply sublist_skip, IH; assumption.
    + destruct (exceeds low pc).
      * apply Forall2_cons_inv_l in Hlow as (r & rs1 & Hr & Hlow & ->).
        apply sublist_cons, IH; assumption.
      * apply IH; assumption.
Qed.

Lemma concat_sublist {A} (ls ls' : list (list A)) :
  Forall2 sublist ls' ls -> sublist (concat ls') (concat ls).
Proof.
  induction 1 as [|l' l ls' ls Hl _ IH]; simpl.
  - constructor.
  - apply sublist_app; assumption.
Qed.

Lemma batch_results_sublist (env : Env) (documents : list Document.t)
    (low high : float) (similar_count : Z) (round_factor : Z)
    (l : list Document.t) :
  PrimFloat.leb low high = true ->
  forall rss rss',
  Forall2 (results_for env documents low similar_count round_factor) l rss ->
  Forall2 (results_for env documents high similar_count round_factor) l rss' ->
  Forall2 sublist rss' rss.
Proof.
  intros Hle. induction l as [|doc l IH]; intros rss rss' Hall Hall'.
  - inversion Hall; inversion Hall'; subst. constructor.
  - apply Forall2_cons_inv_l in Hall as (rs & rss1 & Hdoc & Hall & ->).
    apply Forall2_cons_inv_l in Hall' as (rs' & rss1' & Hdoc' & Hall' & ->).
    constructor; [| apply IH; assumption].
    destruct Hdoc as (similar & user & Hsim & Hrem & Hrs).
    destruct Hdoc' as (similar' & user' & Hsim' & Hrem' & Hrs').
    assert (similar' = similar) by congruence.
    assert (user' = user) by congruence. subst similar' user'.
    eapply results_sublist; eassumption.
Qed.

(** X20: raising the threshold only removes Results.  When the comparison
    step returns for a threshold and for a higher one, the Results of the
    run with the higher threshold are, in order, among the Results of the
    run with the lower one. *)
Theorem raising_threshold_removes_results (env : Env)
    (documents : list Document.t) (low high : float) (similar_count : Z)
    (round_decimal_places : N) (w w1 v v1 : world) :
  PrimFloat.leb low high = true ->
  compare_documents env documents low similar_count round_decimal_places w
    = (Ok tt, w1) ->
  compare_documents env documents high similar_count round_decimal_places v
    = (Ok tt, v1) ->
  exists rs rs',
    db_results w1 = db_results w ++ rs /\
    db_results v1 = db_results v ++ rs' /\
    sublist rs' rs.
Proof.
  intros Hle Hlow Hhigh. unfold compare_documents in Hlow, Hhigh.
  destruct (batch_results _ _ _ _ _ _ _ _ Hlow) as (rss & Hrss & Hall).
  destruct (batch_results _ _ _ _ _ _ _ _ Hhigh) as (rss' & Hrss' & Hall').
  exists (concat rss), (concat rss').
  split; [exact Hrss |]. split; [exact Hrss' |].
  apply concat_sublist.
  exact (batch_results_sublist _ _ _ _ _ _ _ Hle _ _ Hall Hall').
Qed.

Lemma raising_threshold_removes_results_witness :
  exists rs rs',
    db_results
      (compare_documents Scenario.env Scenario.batch 0.25 10 2 Scenario.w0).2
      = db_results Scenario.w0 ++ rs /\
    db_results
      (compare_documents Scenario.env Scenario.batch 0.5 10 2 Scenario.w0).2
      = db_results Scenario.w0 ++ rs' /\
    sublist rs' rs.
Proof.
  apply (raising_threshold_removes_results Scenario.env Scenario.batch
           0.25 0.5 10 2 Scenario.w0 _ Scenario.w0 _).
  - reflexivity.
  - vm_compute. reflexivity.
  - vm_compute. reflexivity.
Defined.

(** ** A document that is ingested without a failure *)

(** X19: the ingestion of a document for which nothing raises.  The
    language is detected on the raw text (for a FILE document: on what the
    extraction returned from the stored file), the preprocessing gets that
    raw text and the detected language, and its second element becomes the
    text; the document is saved once, after the calls, with the three
    attributes assigned. *)
Theorem ingestion_success (env : Env) (document : Document.t) (w : world)
    (raw : textfield) (l : string) (r : list string) (t : string) :
  match Document.type document with
  | FILE =>
      exists path extracted,
        Document.file document = Some path /\
        extract_text_from_file env path = Ok extracted /\
        raw = Some extracted
  | TEXT => raw = Document.text_raw document
  end ->
  detect env raw = Ok l ->
  preprocess_text env raw (Some l)
    {| words_to_numbers := true; remove_numbers := false;
       tokenize_words := false; lemmatize := false;
       remove_stopwords := true |} = Ok r ->
  r !! 1%nat = Some t ->
  let document' :=
    Document.with_text (Some t)
      (Document.with_language (Some l)
         (Document.with_text_raw raw document)) in
  exists w',
    ingest env document w = (Ok document', w') /\
    db_documents w' = <[Document.id document := document']> (db_documents w) /\
    events_since w w' =
      match Document.type document with
      | FILE => [CallExtract (Document.file document)]
      | TEXT => []
      end ++
      [CallDetect raw; CallPreprocess raw (Some l); SaveDocument document'].
Proof.
  intros Hraw Hdetect Hpre Hsecond document'. subst document'.
  destruct document as [k file name sub txt raw0 ty lang total].
  unfold ingest, process_file, detect_language, process_raw_text,
    save_document, bind, attempt, call, lift, ret, obind.
  destruct ty; cbn [Document.type Document.file Document.text_raw] in *.
  - destruct Hraw as (path & extracted & -> & Hextract & ->).
    rewrite Hextract.
    cbn [Document.text_raw Document.with_text_raw Document.with_language
         Document.language].
    rewrite Hdetect.
    cbn [Document.text_raw Document.with_text_raw Document.with_language
         Document.language].
    rewrite Hpre, Hsecond. eexists. split; [reflexivity |].
    split; [reflexivity |].
    unfold events_since; cbn [trace log put_document].
    rewrite <- ?app_assoc, drop_app_length. reflexivity.
  - subst raw. rewrite Hdetect.
    cbn [Document.text_raw Document.with_text_raw Document.with_language
         Document.language].
    rewrite Hpre, Hsecond. eexists. split; [reflexivity |].
    split; [reflexivity |].
    unfold events_since; cbn [trace log put_document].
    rewrite <- ?app_assoc, drop_app_length. reflexivity.
Qed.

Lemma ingestion_success_witness :
  exists w',
    ingest Scenario.env Scenario.d1 Scenario.w0 = (Ok (Document.with_language (Some "en"%string) Scenario.d1), w') /\
    events_since Scenario.w0 w' =
      [CallDetect (Some "alpha"%string);
       CallPreprocess (Some "alpha"%string) (Some "en"%string);
       SaveDocument (Document.with_language (Some "en"%string) Scenario.d1)].
Proof.
  destruct (ingestion_success Scenario.env Scenario.d1 Scenario.w0
              (Some "alpha"%string) "en"%string
              [""%string; "alpha"%string] "alpha"%string
              eq_refl eq_refl eq_refl eq_refl) as (w' & Hrun & _ & Hev).
  exists w'. split; [exact Hrun | exact Hev].
Defined.

(** * The Document model *)

Lemma foldr_max_ge (l : list Z) (x : Z) : x ∈ l -> x <= foldr Z.max 0 l.
Proof.
  induction l as [|y l IH]; intros Hx; [inversion Hx |].
  simpl. apply elem_of_cons in Hx as [-> | Hx]; [lia |].
  specialize (IH Hx). lia.
Qed.

Lemma next_id_fresh {A} (m : gmap Z A) : m !! next_id m = None.
Proof.
  destruct (m !! next_id m) as [v|] eqn:Hm; [exfalso | reflexivity].
  apply elem_of_map_to_list in Hm.
  assert (Hk : next_id m ∈ (map_to_list m).*1).
  { apply list_elem_of_fmap. exists (next_id m, v). split; [reflexivity | exact Hm]. }
  apply foldr_max_ge in Hk. unfold next_id in Hk. lia.
Qed.

(** ** Creating a document *)

Ltac create_cases file text_raw :=
  unfold Models.create_and_process_text, Models.detect_language,
    detect_language, Models.process_file, process_file,
    Models.process_raw_text, objects_create, save_document, bind, lift, call,
    ret, file_bool;
  destruct file as [[[|c name]]|]; destruct text_raw as [[|c' t]|];
  cbn -[insert next_id];
  repeat match goal with
         | |- context [detect ?env ?t] =>
             let Hd := fresh "Hdetect" in
             destruct (detect env t) eqn:Hd; cbn -[insert next_id]
         | |- context [extract_text_from_file ?env ?p] =>
             let He := fresh "Hextract" in
             destruct (extract_text_from_file env p) eqn:He;
             cbn -[insert next_id]
         end.

Section DocumentModel.

Context (env : Env) (upload_to : string -> string).

(** X12: [create_and_process_text] returns exactly when it is given a file,
    the language detection answers (it is asked only for a raw text that is
    not empty) and the text extraction answers (it is asked only for a file
    whose name is not empty).  Called with a raw text and no file, as the
    view does for pasted text, it never returns. *)
Theorem create_and_process_text_returns_iff (submission : option Z)
    (text_raw : textfield) (file : option UploadedFile.t) (w : world) :
  (exists w',
     Models.create_and_process_text env upload_to submission text_raw file w
       = (Ok tt, w')) <->
  (exists f,
     file = Some f /\
     (truthy text_raw = true -> exists l, detect env text_raw = Ok l) /\
     (file_bool file = true ->
      exists t,
        extract_text_from_file env (upload_to (UploadedFile.name f)) = Ok t)).
Proof.
  create_cases file text_raw;
    (split;
     [ intros (w' & H); try discriminate H;
       eexists; (split; [reflexivity |]);
       split; intros Ht; try discriminate Ht; eauto
     | intros (f & Hf & Hdet & Hext); try discriminate Hf;
       injection Hf as <-; cbn in Hdet, Hext;
       try (destruct (Hdet eq_refl) as (? & Hd); congruence);
       try (destruct (Hext eq_refl) as (? & He); congruence);
       eexists; reflexivity ]).
Qed.

Lemma create_row (submission : option Z) (text_raw : textfield)
    (file : option UploadedFile.t) (w w' : world) :
  Models.create_and_process_text env upload_to submission text_raw file w
    = (Ok tt, w') ->
  exists f row,
    file = Some f /\
    db_documents w' = <[next_id (db_documents w) := row]> (db_documents w) /\
    Document.id row = next_id (db_documents w) /\
    created env upload_to submission text_raw f row /\
    db_results w' = db_results w /\
    db_submissions w' = db_submissions w /\
    outbox w' = outbox w.
Proof.
  unfold created. revert w'.
  create_cases file text_raw; intros w' Hrun; try discriminate Hrun;
    injection Hrun as <-; eexists; eexists;
    (split; [reflexivity |]);
    (split; [cbn -[insert next_id]; rewrite ?insert_insert_eq; reflexivity |]);
    cbn; repeat split; eauto; discriminate.
Qed.

(** X13: when [create_and_process_text] returns, the Document table has
    gained one row, under a key that was not in use, and no other table has
    changed.  The row carries the file's name and the given submission; its
    preprocessed text is the placeholder ['text'] whatever was uploaded;
    for a file with a name its type is FILE and its raw text what the
    extraction returned from the stored path, in place of the raw text
    passed in. *)
Theorem create_and_process_text_row (submission : option Z)
    (text_raw : textfield) (file : option UploadedFile.t) (w w' : world) :
  Models.create_and_process_text env upload_to submission text_raw file w
    = (Ok tt, w') ->
  let k := next_id (db_documents w) in
  db_documents w !! k = None /\
  exists f row,
    file = Some f /\
    db_documents w' = <[k := row]> (db_documents w) /\
    Document.id row = k /\
    created env upload_to submission text_raw f row /\
    db_results w' = db_results w /\
    db_submissions w' = db_submissions w /\
    outbox w' = outbox w.
Proof.
  intros Hrun k. split; [apply next_id_fresh | exact (create_row _ _ _ _ _ Hrun)].
Qed.

(** X14: when [create_and_process_text] raises, either nothing was written
    (no file was given, or the language detection raised), or the text
    extraction raised and the row inserted before it stays in the table,
    without a preprocessed text and with the raw text as passed in. *)
Theorem create_and_process_text_failure (submission : option Z)
    (text_raw : textfield) (file : option UploadedFile.t) (w : world)
    (e : exn) :
  let run :=
    Models.create_and_process_text env upload_to submission text_raw file w in
  run.1 = Raised e ->
  (db_documents run.2 = db_documents w /\
   ((file = None /\ e = AttributeError) \/ detect env text_raw = Raised e)) \/
  (exists f row,
     file = Some f /\
     extract_text_from_file env (upload_to (UploadedFile.name f)) = Raised e /\
     db_documents run.2 = <[next_id (db_documents w) := row]> (db_documents w) /\
     Document.id row = next_id (db_documents w) /\
     Document.name row = Some (UploadedFile.name f) /\
     Document.submission row = submission /\
     Document.type row = FILE /\
     Document.text row = None /\
     Document.text_raw row = text_raw).
Proof.
  intros run. subst run.
  create_cases file text_raw; intros Hrun; try discriminate Hrun;
    injection Hrun as <-;
    first
      [ left; split; [reflexivity |]; first [right; assumption | right; reflexivity | left; split; reflexivity]
      | right; eexists; eexists; split; [reflexivity |];
        split; [eassumption |];
        split; [cbn -[insert next_id]; rewrite ?insert_insert_eq; reflexivity |];
        cbn; repeat split ].
Qed.

End DocumentModel.

Lemma create_and_process_text_row_witness :
  exists row,
    db_documents
      (Models.create_and_process_text Upload.env Upload.upload_to (Some 7)
         None (Some Upload.c_pdf) Scenario.w0).2
      = <[4 := row]> (db_documents Scenario.w0) /\
    Document.text row = Some "text"%string /\
    Document.text_raw row = Some "gamma"%string.
Proof.
  destruct (create_and_process_text_row Upload.env Upload.upload_to (Some 7)
              None (Some Upload.c_pdf) Scenario.w0
              (Models.create_and_process_text Upload.env Upload.upload_to
                 (Some 7) None (Some Upload.c_pdf) Scenario.w0).2 eq_refl)
    as (_ & f & row & Hf & Hdb & _ & (_ & _ & Htext & Hfile & _) & _).
  injection Hf as <-. exists row.
  split; [exact Hdb |]. split; [exact Htext |].
  destruct Hfile as (_ & _ & Hex & Hsome).
  destruct (Document.text_raw row) as [t|]; [| contradiction].
  vm_compute in Hex. injection Hex as <-. reflexivity.
Defined.

Lemma create_and_process_text_failure_witness :
  exists row,
    db_documents
      (Models.create_and_process_text Upload.env Upload.upload_to (Some 7)
         None (Some Upload.d_doc) Scenario.w0).2
      = <[4 := row]> (db_documents Scenario.w0) /\
    Document.text row = None.
Proof.
  destruct (create_and_process_text_failure Upload.env Upload.upload_to
              (Some 7) None (Some Upload.d_doc) Scenario.w0
              (ExternalError "unreadable") eq_refl)
    as [(_ & [(Hf & _) | Hd]) | (f & row & _ & _ & Hdb & _ & _ & _ & _ & Htext & _)].
  - discriminate Hf.
  - discriminate Hd.
  - exists row. split; [exact Hdb | exact Htext].
Defined.

(** * The upload view *)

Section UploadView.

Context (env : Env) (upload_to : string -> string)
        (CONTENT_TYPE_FILE CONTENT_TYPE_TEXT : string)
        (is_valid : bool) (serializer_save : M Submission.t).

(** The loop of lines 36-40, when it returns: one new row per file. *)
Lemma upload_loop (submission : option Z) (files : list UploadedFile.t) :
  forall w w',
  for_each files
    (fun file =>
       Models.create_and_process_text env upload_to submission None
         (Some file)) w = (Ok tt, w') ->
  exists ds,
    Forall2 (created env upload_to submission None) files ds /\
    Forall (fun d => db_documents w !! Document.id d = None /\
                     db_documents w' !! Document.id d = Some d) ds /\
    NoDup (Document.id <$> ds) /\
    (forall k, k ∉ (Document.id <$> ds) ->
       db_documents w' !! k = db_documents w !! k) /\
    db_submissions w' = db_submissions w /\
    db_results w' = db_results w /\
    outbox w' = outbox w.
Proof.
  induction files as [|f files IH]; intros w w' Hrun.
  - simpl in Hrun. inversion Hrun; subst. exists [].
    split; [constructor |]. split; [constructor |].
    split; [constructor |]. repeat split.
  - cbn [for_each] in Hrun.
    apply bind_Ok_inv in Hrun as ([] & w1 & Hfirst & Hrest).
    destruct (create_row _ _ _ _ _ _ _ Hfirst)
      as (f' & row & Hf & Hdb & Hid & Hrow & Hres & Hsub & Hout).
    injection Hf as <-.
    destruct (IH _ _ Hrest)
      as (ds & Hall & Hrows & Hnd & Hframe & Hsub' & Hres' & Hout').
    pose proof (next_id_fresh (db_documents w)) as Hfresh.
    assert (Hnew : Document.id row ∉ (Document.id <$> ds)).
    { intros Hin. apply list_elem_of_fmap in Hin as (d & Heq & Hd).
      rewrite Forall_forall in Hrows. destruct (Hrows d Hd) as [Hnone _].
      rewrite Hdb, <- Heq, Hid, lookup_insert_eq in Hnone. discriminate Hnone. }
    exists (row :: ds).
    split; [constructor; assumption |].
    split.
    { constructor.
      - split; [rewrite Hid; exact Hfresh |].
        rewrite Hframe by exact Hnew. rewrite Hdb, Hid. apply lookup_insert_eq.
      - eapply Forall_impl; [exact Hrows |]. intros d [Hnone Hsome].
        split; [| exact Hsome]. rewrite Hdb in Hnone.
        apply lookup_insert_None in Hnone as [Hnone _]. exact Hnone. }
    split; [rewrite fmap_cons; apply NoDup_cons; split; assumption |].
    split.
    { intros k Hk. rewrite fmap_cons in Hk.
      apply not_elem_of_cons in Hk as [Hne Hk].
      rewrite Hframe by exact Hk. rewrite Hdb.
      apply lookup_insert_ne. congruence. }
    repeat split; congruence.
Qed.

(** X15: the responses of [FileDetail.post].  When the view returns, it
    returns nothing at all (the serializer found the data invalid, and
    nothing was written), or 201 for a content type that contains
    [CONTENT_TYPE_FILE], or 400 for a content type that contains neither
    constant, and then what saving the serializer wrote stays.  It never
    returns 200. *)
Theorem post_responses (request : Request.t) (w w' : world)
    (r : option Response.t) :
  Views.post env upload_to CONTENT_TYPE_FILE CONTENT_TYPE_TEXT is_valid
    serializer_save request w = (Ok r, w') ->
  (forall response, r = Some response ->
     Response.status response <> HTTP_200_OK) /\
  ((is_valid = false /\ r = None /\ w' = w) \/
   (is_valid = true /\
    exists submission w1,
      serializer_save w = (Ok submission, w1) /\
      ((contains CONTENT_TYPE_FILE (Request.content_type request) = true /\
        r = Some (Response.mk (Some submission) HTTP_201_CREATED)) \/
       (contains CONTENT_TYPE_FILE (Request.content_type request) = false /\
        contains CONTENT_TYPE_TEXT (Request.content_type request) = false /\
        r = Some (Response.mk None HTTP_400_BAD_REQUEST) /\ w' = w1)))).
Proof.
  unfold Views.post. destruct is_valid.
  - intros Hrun. apply bind_Ok_inv in Hrun as (s & w1 & Hsave & Hrun).
    destruct (contains CONTENT_TYPE_FILE (Request.content_type request)).
    + apply bind_Ok_inv in Hrun as ([] & w2 & _ & Hret).
      inversion Hret; subst r w2.
      split; [intros response Hr; inversion Hr; discriminate |].
      right. split; [reflexivity |]. exists s, w1.
      split; [exact Hsave |]. left. split; reflexivity.
    + destruct (contains CONTENT_TYPE_TEXT (Request.content_type request)).
      * exfalso.
        apply bind_Ok_inv in Hrun as (text_raw & w2 & _ & Hrun).
        apply bind_Ok_inv in Hrun as ([] & w3 & Hcreate & _).
        assert (Hnone : exists w3,
                  Models.create_and_process_text env upload_to
                    (Some (Submission.id s)) (Some text_raw) None w2
                  = (Ok tt, w3)) by (exists w3; exact Hcreate).
        clear Hcreate. revert Hnone.
        unfold Models.create_and_process_text, bind, lift.
        intros (? & H). discriminate H.
      * inversion Hrun; subst r w'.
        split; [intros response Hr; inversion Hr; discriminate |].
        right. split; [reflexivity |]. exists s, w1.
        split; [exact Hsave |]. right. repeat split.
  - intros Hrun. inversion Hrun; subst r w'.
    split; [intros response Hr; discriminate Hr |].
    left. repeat split.
Qed.

(** X16: a request whose content type contains [CONTENT_TYPE_TEXT] and not
    [CONTENT_TYPE_FILE] is never answered: the view passes no file, so
    creating the document raises on [file.name], and the view ends with an
    exception; nothing was written after the serializer was saved, and no
    collaborator was called. *)
Theorem text_post_raises (request : Request.t) (w : world) :
  is_valid = true ->
  contains CONTENT_TYPE_FILE (Request.content_type request) = false ->
  contains CONTENT_TYPE_TEXT (Request.content_type request) = true ->
  let run :=
    Views.post env upload_to CONTENT_TYPE_FILE CONTENT_TYPE_TEXT is_valid
      serializer_save request w in
  (exists e, run = (Raised e, (serializer_save w).2)) /\
  (forall submission text_raw,
     (serializer_save w).1 = Ok submission ->
     Request.body_decode request = Ok text_raw ->
     run.1 = Raised AttributeError).
Proof.
  intros Hvalid Hfile Htext run.
  assert (Hrun : run =
            match serializer_save w with
            | (Ok _, w1) =>
                match Request.body_decode request with
                | Ok _ => (Raised AttributeError, w1)
                | Raised e => (Raised e, w1)
                end
            | (Raised e, w1) => (Raised e, w1)
            end).
  { subst run. unfold Views.post. rewrite Hvalid, Hfile, Htext.
    unfold bind at 1. destruct (serializer_save w) as [[s|e] w1];
      [| reflexivity].
    unfold Models.create_and_process_text, bind, lift.
    destruct (Request.body_decode request); reflexivity. }
  rewrite Hrun. clear Hrun run.
  destruct (serializer_save w) as [[s|e] w1];
    destruct (Request.body_decode request) as [text_raw|e']; simpl.
  - split; [exists AttributeError; reflexivity | reflexivity].
  - split; [exists e'; reflexivity |]. intros ? ? _ H. discriminate H.
  - split; [exists e; reflexivity |]. intros ? ? H. discriminate H.
  - split; [exists e; reflexivity |]. intros ? ? H. discriminate H.
Qed.

(** X17: a file upload that is answered has created one document per
    uploaded file, in order, each under a key that was not in use, linked
    to the new submission, with the file's name and the placeholder text;
    every other row of the Document table, and the Submission and Result
    tables, are as saving the serializer left them. *)
Theorem file_post_creates_documents (request : Request.t) (w w' : world)
    (r : option Response.t) :
  is_valid = true ->
  contains CONTENT_TYPE_FILE (Request.content_type request) = true ->
  Views.post env upload_to CONTENT_TYPE_FILE CONTENT_TYPE_TEXT is_valid
    serializer_save request w = (Ok r, w') ->
  exists submission w1 ds,
    serializer_save w = (Ok submission, w1) /\
    r = Some (Response.mk (Some submission) HTTP_201_CREATED) /\
    Forall2 (created env upload_to (Some (Submission.id submission)) None)
      (Request.files request) ds /\
    Forall (fun d => db_documents w1 !! Document.id d = None /\
                     db_documents w' !! Document.id d = Some d) ds /\
    NoDup (Document.id <$> ds) /\
    (forall k, k ∉ (Document.id <$> ds) ->
       db_documents w' !! k = db_documents w1 !! k) /\
    db_submissions w' = db_submissions w1 /\
    db_results w' = db_results w1.
Proof.
  intros Hvalid Hfile Hrun. unfold Views.post in Hrun.
  rewrite Hvalid, Hfile in Hrun.
  apply bind_Ok_inv in Hrun as (s & w1 & Hsave & Hrun).
  apply bind_Ok_inv in Hrun as ([] & w2 & Hloop & Hret).
  inversion Hret; subst r w2.
  destruct (upload_loop _ _ _ _ Hloop)
    as (ds & Hall & Hrows & Hnd & Hframe & Hsub & Hres & _).
  exists s, w1, ds. repeat (split; [assumption || reflexivity |]). exact Hres.
Qed.

End UploadView.

Lemma post_responses_witness :
  (Site.post Site.json_request Scenario.w_done).1
    = Ok (Some (Response.mk None HTTP_400_BAD_REQUEST)) /\
  db_submissions (Site.post Site.json_request Scenario.w_done).2 !! 9
    = Some (Submission.mk 9 PENDING None).
Proof.
  destruct (post_responses Upload.env Upload.upload_to Site.CONTENT_TYPE_FILE
              Site.CONTENT_TYPE_TEXT true Site.serializer_save
              Site.json_request Scenario.w_done
              (Site.post Site.json_request Scenario.w_done).2
              (Some (Response.mk None HTTP_400_BAD_REQUEST)) eq_refl)
    as (_ & [(Hv & _) | (_ & s & w1 & Hsave & _)]).
  - discriminate Hv.
  - split; reflexivity.
Defined.

Lemma text_post_raises_witness :
  (Site.post Site.text_request Scenario.w_done).1 = Raised AttributeError.
Proof.
  destruct (text_post_raises Upload.env Upload.upload_to
              Site.CONTENT_TYPE_FILE Site.CONTENT_TYPE_TEXT true
              Site.serializer_save Site.text_request Scenario.w_done
              eq_refl eq_refl eq_refl) as (_ & Hraise).
  apply (Hraise (Submission.mk 9 PENDING None) "alpha"%string);
    reflexivity.
Defined.

Lemma file_post_creates_documents_witness :
  exists submission w1 ds,
    Site.serializer_save Scenario.w_done = (Ok submission, w1) /\
    (Site.post Site.file_request Scenario.w_done).1
      = Ok (Some (Response.mk (Some submission) HTTP_201_CREATED)) /\
    length ds = 1%nat /\
    Forall (fun d =>
              db_documents
                (Site.post Site.file_request Scenario.w_done).2
                !! Document.id d = Some d) ds.
Proof.
  destruct (file_post_creates_documents Upload.env Upload.upload_to
              Site.CONTENT_TYPE_FILE Site.CONTENT_TYPE_TEXT true
              Site.serializer_save Site.file_request Scenario.w_done
              (Site.post Site.file_request Scenario.w_done).2
              (Some (Response.mk
                       (Some (Submission.mk 9 PENDING None))
                       HTTP_201_CREATED))
              eq_refl eq_refl eq_refl)
    as (s & w1 & ds & Hsave & Hr & Hall & Hrows & _).
  exists s, w1, ds. split; [exact Hsave |].
  split; [rewrite <- Hr; reflexivity |].
  split; [symmetry; exact (Forall2_length _ _ _ Hall) |].
  eapply Forall_impl; [exact Hrows |]. intros d [_ H]. exact H.
Defined.
